(** * Total policy cost calculator and emissions input driver (GCAM core)

    A shallow embedding of [TotalPolicyCostCalculator]
    (mac_generator_scenario_runner.cpp) and of
    [InputDriver::calcEmissionsDriver] (input_driver.cpp), with the
    properties of the cost-curve computation proved over it.

    Conventions.
    - A C++ [double] is a primitive binary64 float; arithmetic is the IEEE
      arithmetic of the kernel and comparisons go through the Standard
      Library's specification of binary64 ([SpecFloat]).
    - A [std::map<const string, V>] is an association list kept in
      ascending key order; iteration is list order, [find] and [insert]
      walk the list with the key comparison as a search tree would.
    - A [std::vector] is a list; reading or writing past its end is
      undefined behaviour in the source and [None] here.
    - An [unsigned int] count is a natural number; the one sum the source
      takes of it, [mNumPoints + 1], is reduced modulo 2^32.
    - The scenario behind [IScenarioRunner] is an interface (a type class):
      every theorem holds for every implementation of it.  Each call made
      on the scenario is appended to a call log carried next to its state. *)

From Stdlib Require Import ZArith List String Ascii Bool Arith Lia.
From Stdlib Require Import Floats.PrimFloat Floats.SpecFloat Floats.FloatOps Uint63.
From Stdlib Require Import DecimalString Sorted Permutation OrderedTypeEx.
Import ListNotations.

Local Open Scope string_scope.
Local Open Scope nat_scope.
Local Open Scope list_scope.

(* ================================================================== *)
(** ** Doubles *)

Definition double : Set := float.

(** [a < b] on doubles (false as soon as one side is a NaN). *)
Definition double_ltb (a b : double) : bool := SFltb (Prim2SF a) (Prim2SF b).

(** [a == b] on doubles. *)
Definition double_eqb (a b : double) : bool := SFeqb (Prim2SF a) (Prim2SF b).

(** [x] is a NaN. *)
Definition double_isNaN (x : double) : bool :=
  match Prim2SF x with S754_nan => true | _ => false end.

(** [static_cast<double>] of an [unsigned int]. *)
Definition double_of_nat (n : nat) : double :=
  PrimFloat.of_uint63 (Uint63.of_Z (Z.of_nat n)).

(** Implicit conversion of an [int] to [double]. *)
Definition double_of_int (z : Z) : double :=
  if (z <? 0)%Z then PrimFloat.opp (PrimFloat.of_uint63 (Uint63.of_Z (- z)))
  else PrimFloat.of_uint63 (Uint63.of_Z z).

Definition DBL_MAX : double := 0x1.fffffffffffffp+1023%float.

(* ================================================================== *)
(** ** std::vector *)

(** [v.resize( n )] with value-initialised new elements. *)
Definition resize {A : Type} (dflt : A) (n : nat) (v : list A) : list A :=
  firstn n v ++ repeat dflt (n - List.length v).

(** [v[ i ] = x]. *)
Definition assignAt {A : Type} (i : nat) (x : A) (v : list A) : option (list A) :=
  if i <? List.length v then Some (firstn i v ++ x :: skipn (S i) v) else None.

(* ================================================================== *)
(** ** std::map keyed by strings *)

Module StdMap.

Definition t (V : Type) : Type := list (string * V).

Definition key_lt (a b : string) : Prop := String.compare a b = Lt.

Definition keys {V : Type} (m : t V) : list string := map fst m.

(** The shape of every [std::map]: keys strictly ascending. *)
Definition ordered {V : Type} (m : t V) : Prop :=
  StronglySorted key_lt (keys m).

(** [m.find( k )], [None] for [m.end()]. *)
Fixpoint find {V : Type} (k : string) (m : t V) : option V :=
  match m with
  | [] => None
  | (k', v) :: m' =>
      match String.compare k k' with
      | Lt => None
      | Eq => Some v
      | Gt => find k m'
      end
  end.

(** [m[ k ] = v]. *)
Fixpoint insert {V : Type} (k : string) (v : V) (m : t V) : t V :=
  match m with
  | [] => [(k, v)]
  | (k', v') :: m' =>
      match String.compare k k' with
      | Lt => (k, v) :: m
      | Eq => (k, v) :: m'
      | Gt => (k', v') :: insert k v m'
      end
  end.

(** Storing a run of bindings one after the other. *)
Definition insertAll {V : Type} (kvs : list (string * V)) (m : t V) : t V :=
  fold_left (fun acc kv => insert (fst kv) (snd kv) acc) kvs m.

(** The value bound last to [k] in a run of bindings. *)
Fixpoint lastBinding {V : Type} (k : string) (kvs : list (string * V)) : option V :=
  match kvs with
  | [] => None
  | (k', v) :: rest =>
      match lastBinding k rest with
      | Some v' => Some v'
      | None => if String.eqb k k' then Some v else None
      end
  end.

End StdMap.

(* ================================================================== *)
(** ** Curves *)

Record XYDataPoint : Set := mkXYDataPoint { pointX : double; pointY : double }.

(** Modelled from the spec: ExplicitPointSet (explicit_point_set.cpp is not
    among the sources).  "Curve: ordered set of (x, y) sample points (x
    unique, sorted ascending) ... points remain sorted by x after every
    insertion"; "addPoint(x, y): inserts a sample, maintaining sort order;
    fails with DuplicateXError if x already exists (or defines a
    deterministic overwrite policy - must be consistent)".  The callers
    (lines 204 and 243) ignore the result of [addPoint] and handle no
    error, so the policy modelled is the overwrite: a sample whose x is
    already there takes the place of the sample that has it; any other
    sample goes in front of the first one with a strictly larger x. *)
Definition ExplicitPointSet : Set := list XYDataPoint.

Fixpoint addPoint (p : XYDataPoint) (s : ExplicitPointSet) : ExplicitPointSet :=
  match s with
  | [] => [p]
  | q :: s' =>
      if double_eqb (pointX p) (pointX q) then p :: s'
      else if double_ltb (pointX p) (pointX q) then p :: s
      else q :: addPoint p s'
  end.

(** The point set after [addPoint] was called on each of [ps] in turn. *)
Definition addPoints (ps : list XYDataPoint) (s : ExplicitPointSet) : ExplicitPointSet :=
  fold_left (fun acc p => addPoint p acc) ps s.

(** No sample is followed by one with a strictly smaller x. *)
Fixpoint ascendingX (s : ExplicitPointSet) : Prop :=
  match s with
  | [] => True
  | p :: s' =>
      match s' with
      | [] => True
      | q :: _ => double_ltb (pointX q) (pointX p) = false /\ ascendingX s'
      end
  end.

(** Every sample has a strictly larger x than the one before it: the x
    are unique and ascend. *)
Fixpoint strictlyAscendingX (s : ExplicitPointSet) : Prop :=
  match s with
  | [] => True
  | p :: s' =>
      match s' with
      | [] => True
      | q :: _ => double_ltb (pointX p) (pointX q) = true /\ strictlyAscendingX s'
      end
  end.

(** No double of [xs] is equal to one before it in [xs]. *)
Fixpoint distinctDoubles (xs : list double) : bool :=
  match xs with
  | [] => true
  | x :: xs' => forallb (fun y => negb (double_eqb y x)) xs' && distinctDoubles xs'
  end.

(** A [PointSetCurve]: its point set, its title and its numerical label
    ([None] until [setNumericalLabel] is called). *)
Record Curve : Set := mkCurve {
  curvePoints : ExplicitPointSet;
  curveTitle : string;
  curveNumericalLabel : option nat
}.

Definition PointSetCurve (points : ExplicitPointSet) : Curve :=
  mkCurve points "" None.

Definition setTitle (title : string) (c : Curve) : Curve :=
  mkCurve (curvePoints c) title (curveNumericalLabel c).

Definition setNumericalLabel (label : nat) (c : Curve) : Curve :=
  mkCurve (curvePoints c) (curveTitle c) (Some label).

(** The numerical methods of [Curve] (curve.h, point_set_curve.cpp) are not
    among the sources; the calculator is verified for every implementation. *)
Class CurveOps : Type := {
  getY : Curve -> double -> double;
  getIntegral : Curve -> double -> double -> double;
  getDiscountedValue : Curve -> double -> double -> double -> double
}.

Definition RegionCurves : Type := StdMap.t Curve.

(* ================================================================== *)
(** ** Configuration, model time, policies *)

(** Modelled from the spec: Configuration (configuration.h is not among the
    sources).  "Configuration inputs with documented defaults": a lookup
    returns the value read in for the key, or the default passed by the
    caller when the key was not read in. *)
Record Configuration : Type := mkConfiguration {
  confStrings : list (string * string);
  confInts : list (string * Z);
  confDoubles : list (string * double)
}.

Fixpoint lookupKey {V : Type} (key : string) (l : list (string * V)) : option V :=
  match l with
  | [] => None
  | (k, v) :: l' => if String.eqb key k then Some v else lookupKey key l'
  end.

Definition orDefault {V : Type} (o : option V) (dflt : V) : V :=
  match o with Some v => v | None => dflt end.

Definition getString (conf : Configuration) (key dflt : string) : string :=
  orDefault (lookupKey key (confStrings conf)) dflt.

Definition getInt (conf : Configuration) (key : string) (dflt : Z) : Z :=
  orDefault (lookupKey key (confInts conf)) dflt.

Definition getDouble (conf : Configuration) (key : string) (dflt : double) : double :=
  orDefault (lookupKey key (confDoubles conf)) dflt.

(** [Modeltime] (model_time.h is not among the sources): the number of
    periods, the calendar year of each period and the last year of the
    model.  The number of periods, an [int] in the source, is never
    negative. *)
Record Modeltime : Type := mkModeltime {
  getmaxper : nat;
  getper_to_yr : nat -> Z;
  getEndYear : Z
}.

(** [GHGPolicy( name, market, fixedTaxes )]. *)
Record GHGPolicy : Type := mkGHGPolicy {
  policyName : string;
  policyMarket : string;
  policyFixedTaxes : list double
}.

(* ================================================================== *)
(** ** The scenario behind the runner *)

(** What the calculator uses of [mSingleScenario->getInternalScenario()]:
    the marketplace price, the emissions curves of the last run, the tax
    setter, the run itself, the scenario name and the model time. *)
Class ScenarioFacade (Scenario : Type) : Type := {
  getPrice : Scenario -> string -> string -> Z -> double;
  NO_MARKET_PRICE : double;
  getEmissionsQuantityCurves : Scenario -> string -> RegionCurves;
  getEmissionsPriceCurves : Scenario -> string -> RegionCurves;
  setTax : Scenario -> GHGPolicy -> Scenario;
  run : Scenario -> Z -> bool -> string -> bool * Scenario;
  RUN_ALL_PERIODS : Z;
  getName : Scenario -> string;
  getModeltime : Modeltime
}.

(** One call on the scenario. *)
Inductive Call : Type :=
| CallGetPrice (good region : string) (period : Z)
| CallGetEmissionsQuantityCurves (ghg : string)
| CallGetEmissionsPriceCurves (ghg : string)
| CallSetTax (tax : GHGPolicy)
| CallRun (period : Z) (printDebugging : bool) (filenameEnding : string).

(** The scenario, the calls made on it so far and the lines written to the
    main log. *)
Record World (Scenario : Type) : Type := mkWorld {
  scenario : Scenario;
  calls : list Call;
  mainLog : list string
}.

Arguments mkWorld {Scenario} _ _ _.
Arguments scenario {Scenario} _.
Arguments calls {Scenario} _.
Arguments mainLog {Scenario} _.

(** [util::toString] of a trial number. *)
Definition toString (n : nat) : string :=
  NilZero.string_of_uint (Nat.to_uint n).

(* ================================================================== *)
(** ** TotalPolicyCostCalculator *)

(** The members of the calculator.  Counts and indices are natural numbers:
    [mNumPoints] is compared with [unsigned int] counters (the header is not
    among the sources); the sum [mNumPoints + 1] is taken in [unsigned int]
    (see [trialCount]). *)
Record TotalPolicyCostCalculator : Type := mkTotalPolicyCostCalculator {
  mGlobalCost : double;
  mGlobalDiscountedCost : double;
  mRanCosts : bool;
  mGHGName : string;
  mNumPoints : nat;
  mEmissionsQCurves : list RegionCurves;
  mEmissionsTCurves : list RegionCurves;
  mPeriodCostCurves : list RegionCurves;
  mRegionalCostCurves : RegionCurves;
  mRegionalCosts : StdMap.t double;
  mRegionalDiscountedCosts : StdMap.t double
}.

Definition withEmissionsQCurves (q : list RegionCurves) (self : TotalPolicyCostCalculator) :=
  mkTotalPolicyCostCalculator (mGlobalCost self) (mGlobalDiscountedCost self)
    (mRanCosts self) (mGHGName self) (mNumPoints self) q (mEmissionsTCurves self)
    (mPeriodCostCurves self) (mRegionalCostCurves self) (mRegionalCosts self)
    (mRegionalDiscountedCosts self).

Definition withEmissionsTCurves (t : list RegionCurves) (self : TotalPolicyCostCalculator) :=
  mkTotalPolicyCostCalculator (mGlobalCost self) (mGlobalDiscountedCost self)
    (mRanCosts self) (mGHGName self) (mNumPoints self) (mEmissionsQCurves self) t
    (mPeriodCostCurves self) (mRegionalCostCurves self) (mRegionalCosts self)
    (mRegionalDiscountedCosts self).

Definition withPeriodCostCurves (p : list RegionCurves) (self : TotalPolicyCostCalculator) :=
  mkTotalPolicyCostCalculator (mGlobalCost self) (mGlobalDiscountedCost self)
    (mRanCosts self) (mGHGName self) (mNumPoints self) (mEmissionsQCurves self)
    (mEmissionsTCurves self) p (mRegionalCostCurves self) (mRegionalCosts self)
    (mRegionalDiscountedCosts self).

Definition withRanCosts (b : bool) (self : TotalPolicyCostCalculator) :=
  mkTotalPolicyCostCalculator (mGlobalCost self) (mGlobalDiscountedCost self)
    b (mGHGName self) (mNumPoints self) (mEmissionsQCurves self)
    (mEmissionsTCurves self) (mPeriodCostCurves self) (mRegionalCostCurves self)
    (mRegionalCosts self) (mRegionalDiscountedCosts self).

(** [mNumPoints + 1] as lines 107, 108 and 199 compute it, in [unsigned
    int]: the sum wraps around to 0 when [mNumPoints] is 4294967295. *)
Definition trialCount (self : TotalPolicyCostCalculator) : nat :=
  Z.to_nat ((Z.of_nat (mNumPoints self) + 1) mod 2 ^ 32).

(** The five members written at the end of one pass of the region loop of
    [createRegionalCostCurves] (lines 252-257). *)
Definition recordRegionalCost (region : string) (regCostCurve : Curve)
    (regionalCost discountedRegionalCost : double)
    (self : TotalPolicyCostCalculator) :=
  mkTotalPolicyCostCalculator
    (mGlobalCost self + regionalCost)%float
    (mGlobalDiscountedCost self + discountedRegionalCost)%float
    (mRanCosts self) (mGHGName self) (mNumPoints self) (mEmissionsQCurves self)
    (mEmissionsTCurves self) (mPeriodCostCurves self)
    (StdMap.insert region regCostCurve (mRegionalCostCurves self))
    (StdMap.insert region regionalCost (mRegionalCosts self))
    (StdMap.insert region discountedRegionalCost (mRegionalDiscountedCosts self)).

(** The constructor; [mNumPoints] is an unsigned int set from an int. *)
Definition newTotalPolicyCostCalculator (conf : Configuration) : TotalPolicyCostCalculator :=
  mkTotalPolicyCostCalculator 0%float 0%float false
    (getString conf "AbatedGasForCostCurves" "CO2")
    (Z.to_nat (getInt conf "numPointsForCO2CostCurve" 5 mod 2 ^ 32))
    [] [] [] [] [] [].

Notation "x <- e ;; k" := (match e with Some x => k | None => None end)
  (at level 61, e at next level, right associativity, only parsing).

(** What [printOutput] hands to the XML writers, in call order. *)
Inductive XMLItem : Type :=
| XMLOpeningTag (tag : string) (year : option Z)
| XMLClosingTag (tag : string)
| XMLCurve (curve : Curve)
| XMLElement (value : double) (tag : string) (name : option string).

(** What [printOutput] sends to the sinks. *)
Inductive Output : Type :=
| FileOutput (configKey defaultFileName : string) (content : list XMLItem)
| XMLDBOutput (content : list XMLItem) (location : string)
| DBOutput (var1name var2name var3name var4name uname : string) (dout : list double).

(** 2.212 as the compiler rounds it to binary64. *)
Definition CVRT_75_TO_90 : double := 0x1.1b22d0e560419p+1%float.

Section Calculator.

Context {curveOps : CurveOps}.
Context {Scenario : Type} {facade : ScenarioFacade Scenario}.

(** The compile-time switch [__USE_XML_DB__]. *)
Variable USE_XML_DB : bool.

Definition logCall (c : Call) (w : World Scenario) : World Scenario :=
  mkWorld (scenario w) (calls w ++ [c]) (mainLog w).

Definition logLine (line : string) (w : World Scenario) : World Scenario :=
  mkWorld (scenario w) (calls w) (mainLog w ++ [line]).

Definition worldGetPrice (good region : string) (period : Z) (w : World Scenario)
  : double * World Scenario :=
  (getPrice (scenario w) good region period,
   logCall (CallGetPrice good region period) w).

Definition worldGetEmissionsQuantityCurves (ghg : string) (w : World Scenario)
  : RegionCurves * World Scenario :=
  (getEmissionsQuantityCurves (scenario w) ghg,
   logCall (CallGetEmissionsQuantityCurves ghg) w).

Definition worldGetEmissionsPriceCurves (ghg : string) (w : World Scenario)
  : RegionCurves * World Scenario :=
  (getEmissionsPriceCurves (scenario w) ghg,
   logCall (CallGetEmissionsPriceCurves ghg) w).

Definition worldSetTax (tax : GHGPolicy) (w : World Scenario) : World Scenario :=
  mkWorld (setTax (scenario w) tax) (calls w ++ [CallSetTax tax]) (mainLog w).

Definition worldRun (period : Z) (printDebugging : bool) (filenameEnding : string)
    (w : World Scenario) : bool * World Scenario :=
  (fst (run (scenario w) period printDebugging filenameEnding),
   mkWorld (snd (run (scenario w) period printDebugging filenameEnding))
           (calls w ++ [CallRun period printDebugging filenameEnding])
           (mainLog w)).

(** *** runTrials *)

(** Lines 151-157: the taxes of one region for one trial. *)
Definition currTaxes (baseTax : Curve) (fraction : double) : list double :=
  map (fun per =>
         (getY baseTax (double_of_int (getper_to_yr getModeltime per)) * fraction)%float)
      (seq 0 (getmaxper getModeltime)).

(** Lines 149-161: the loop over the regions of the baseline tax curves. *)
Definition setTrialTaxes (ghg : string) (fraction : double) (baseTaxes : RegionCurves)
    (w : World Scenario) : World Scenario :=
  fold_left
    (fun acc rIter =>
       worldSetTax (mkGHGPolicy ghg (fst rIter) (currTaxes (snd rIter) fraction)) acc)
    baseTaxes w.

(** Lines 144-177, for the trial numbers still to run. *)
Fixpoint runTrialsLoop (points : list nat) (success : bool)
    (self : TotalPolicyCostCalculator) (w : World Scenario)
  : option (bool * TotalPolicyCostCalculator * World Scenario) :=
  match points with
  | [] => Some (success, self, w)
  | currPoint :: rest =>
      let fraction := (double_of_nat currPoint / double_of_nat (mNumPoints self))%float in
      baseTaxes <- nth_error (mEmissionsTCurves self) (mNumPoints self) ;;
      let w1 := setTrialTaxes (mGHGName self) fraction baseTaxes w in
      let w2 := logLine ("Starting cost curve point run number "
                           ++ toString currPoint ++ ".") w1 in
      let r := worldRun RUN_ALL_PERIODS true (toString currPoint) w2 in
      let success' := andb success (fst r) in
      let q := worldGetEmissionsQuantityCurves (mGHGName self) (snd r) in
      qCurves <- assignAt currPoint (fst q) (mEmissionsQCurves self) ;;
      let t := worldGetEmissionsPriceCurves (mGHGName self) (snd q) in
      tCurves <- assignAt currPoint (fst t) (mEmissionsTCurves self) ;;
      runTrialsLoop rest success'
        (withEmissionsTCurves tCurves (withEmissionsQCurves qCurves self)) (snd t)
  end.

Definition runTrials (self : TotalPolicyCostCalculator) (w : World Scenario)
  : option (bool * TotalPolicyCostCalculator * World Scenario) :=
  runTrialsLoop (seq 0 (mNumPoints self)) true self w.

(** *** createCostCurvesByPeriod *)

(** [m[ region ]->getY( year )] on a map of curve pointers: a missing
    region makes [operator[]] yield a null pointer, which is dereferenced. *)
Definition curveOf (region : string) (v : list RegionCurves) (i : nat) : option Curve :=
  m <- nth_error v i ;; StdMap.find region m.

(** Lines 200-203: the data point of one trial. *)
Definition trialPoint (self : TotalPolicyCostCalculator) (region : string)
    (first : Curve) (year : Z) (trial : nat) : option XYDataPoint :=
  q <- curveOf region (mEmissionsQCurves self) trial ;;
  t <- curveOf region (mEmissionsTCurves self) trial ;;
  Some (mkXYDataPoint
          (getY first (double_of_int year) - getY q (double_of_int year))%float
          (getY t (double_of_int year))).

(** Lines 199-205: the loop over the trials. *)
Fixpoint trialPoints (self : TotalPolicyCostCalculator) (region : string)
    (first : Curve) (year : Z) (trials : list nat) (currPoints : ExplicitPointSet)
  : option ExplicitPointSet :=
  match trials with
  | [] => Some currPoints
  | trial :: rest =>
      currPoint <- trialPoint self region first year trial ;;
      trialPoints self region first year rest (addPoint currPoint currPoints)
  end.

(** Lines 196-209: the cost curve of one region in one period. *)
Definition periodCostCurve (self : TotalPolicyCostCalculator) (per : nat)
    (region : string) (first : Curve) : option Curve :=
  currPoints <- trialPoints self region first (getper_to_yr getModeltime per)
                  (seq 0 (trialCount self)) [] ;;
  Some (setNumericalLabel per
          (setTitle (region ++ " period cost curve") (PointSetCurve currPoints))).

(** Lines 195-210: the loop over the regions of [mEmissionsQCurves[ 0 ]]. *)
Fixpoint periodRegionLoop (self : TotalPolicyCostCalculator) (per : nat)
    (regions : list (string * Curve)) (costCurves : RegionCurves)
  : option RegionCurves :=
  match regions with
  | [] => Some costCurves
  | rIter :: rest =>
      perCostCurve <- periodCostCurve self per (fst rIter) (snd rIter) ;;
      periodRegionLoop self per rest (StdMap.insert (fst rIter) perCostCurve costCurves)
  end.

(** Lines 192-211: the loop over the periods. *)
Fixpoint periodLoop (self : TotalPolicyCostCalculator) (periods : list nat)
    (periodCostCurves : list RegionCurves) : option (list RegionCurves) :=
  match periods with
  | [] => Some periodCostCurves
  | per :: rest =>
      regions <- nth_error (mEmissionsQCurves self) 0 ;;
      costCurves <- nth_error periodCostCurves per ;;
      costCurves' <- periodRegionLoop self per regions costCurves ;;
      periodCostCurves' <- assignAt per costCurves' periodCostCurves ;;
      periodLoop self rest periodCostCurves'
  end.

Definition createCostCurvesByPeriod (self : TotalPolicyCostCalculator)
  : option TotalPolicyCostCalculator :=
  let maxPeriod := getmaxper getModeltime in
  periodCostCurves <- periodLoop self (seq 0 maxPeriod)
                        (resize [] maxPeriod (mPeriodCostCurves self)) ;;
  Some (withPeriodCostCurves periodCostCurves self).

(** *** createRegionalCostCurves *)

(** Lines 239-244: the loop over the periods that collects the cost of
    each period at its calendar year. *)
Fixpoint regionCostPoints (self : TotalPolicyCostCalculator) (region : string)
    (periods : list nat) (costPoints : ExplicitPointSet) : option ExplicitPointSet :=
  match periods with
  | [] => Some costPoints
  | per :: rest =>
      curve <- curveOf region (mPeriodCostCurves self) per ;;
      let periodCost := getIntegral curve 0%float DBL_MAX in
      regionCostPoints self region rest
        (addPoint (mkXYDataPoint (double_of_int (getper_to_yr getModeltime per)) periodCost)
                  costPoints)
  end.

(** Lines 231-258: the loop over the regions of [mPeriodCostCurves[ 0 ]]. *)
Fixpoint regionLoop (discountRate : double) (startYear : Z)
    (regions : list (string * Curve)) (self : TotalPolicyCostCalculator)
  : option TotalPolicyCostCalculator :=
  match regions with
  | [] => Some self
  | rNameIter :: rest =>
      if String.eqb (fst rNameIter) "global" then
        regionLoop discountRate startYear rest self
      else
        costPoints <- regionCostPoints self (fst rNameIter)
                        (seq 0 (getmaxper getModeltime)) [] ;;
        let regCostCurve := setTitle (fst rNameIter) (PointSetCurve costPoints) in
        let regionalCost :=
          getIntegral regCostCurve (double_of_int startYear)
                      (double_of_int (getEndYear getModeltime)) in
        let discountedRegionalCost :=
          getDiscountedValue regCostCurve (double_of_int startYear)
                             (double_of_int (getEndYear getModeltime)) discountRate in
        regionLoop discountRate startYear rest
          (recordRegionalCost (fst rNameIter) regCostCurve regionalCost
                              discountedRegionalCost self)
  end.

Definition createRegionalCostCurves (conf : Configuration)
    (self : TotalPolicyCostCalculator) : option TotalPolicyCostCalculator :=
  let discountRate := getDouble conf "discountRate" 0x1.999999999999ap-5%float in
  let startYear := getInt conf "discount-start-year" 2005 in
  regions <- nth_error (mPeriodCostCurves self) 0 ;;
  regionLoop discountRate startYear regions self.

(** *** calculateAbatementCostCurve *)

(** Lines 106-112: room for the trials and the base, and the curves of
    the primary scenario run stored at index [mNumPoints]. *)
Definition storeBaseline (self : TotalPolicyCostCalculator) (w : World Scenario)
  : option (TotalPolicyCostCalculator * World Scenario) :=
  let qSized := resize [] (trialCount self) (mEmissionsQCurves self) in
  let tSized := resize [] (trialCount self) (mEmissionsTCurves self) in
  let q := worldGetEmissionsQuantityCurves (mGHGName self) w in
  qCurves <- assignAt (mNumPoints self) (fst q) qSized ;;
  let t := worldGetEmissionsPriceCurves (mGHGName self) (snd q) in
  tCurves <- assignAt (mNumPoints self) (fst t) tSized ;;
  Some (withEmissionsTCurves tCurves (withEmissionsQCurves qCurves self), snd t).

Definition calculateAbatementCostCurve (conf : Configuration)
    (self : TotalPolicyCostCalculator) (w : World Scenario)
  : option (bool * TotalPolicyCostCalculator * World Scenario) :=
  let price := worldGetPrice (mGHGName self) "USA" 1 w in
  if double_eqb (fst price) NO_MARKET_PRICE then
    Some (true, self,
          logLine "Skipping cost curve calculations for non-policy model run." (snd price))
  else
    based <- storeBaseline self (snd price) ;;
    trials <- runTrials (fst based) (snd based) ;;
    let success := fst (fst trials) in
    byPeriod <- createCostCurvesByPeriod (snd (fst trials)) ;;
    regional <- createRegionalCostCurves conf byPeriod ;;
    Some (success, withRanCosts true regional, snd trials).

(** *** printOutput *)

(** Lines 347-354 of [createXMLOutputString]. *)
Definition periodCostCurvesXML (self : TotalPolicyCostCalculator) (per : nat)
  : option (list XMLItem) :=
  costCurves <- nth_error (mPeriodCostCurves self) per ;;
  Some (XMLOpeningTag "CostCurves" (Some (getper_to_yr getModeltime per))
          :: map (fun rIter => XMLCurve (snd rIter)) costCurves
          ++ [XMLClosingTag "CostCurves"]).

Fixpoint allPeriodCostCurvesXML (self : TotalPolicyCostCalculator) (periods : list nat)
  : option (list XMLItem) :=
  match periods with
  | [] => Some []
  | per :: rest =>
      here <- periodCostCurvesXML self per ;;
      there <- allPeriodCostCurvesXML self rest ;;
      Some (here ++ there)
  end.

Definition createXMLOutputString (self : TotalPolicyCostCalculator)
  : option (list XMLItem) :=
  byPeriod <- allPeriodCostCurvesXML self (seq 0 (getmaxper getModeltime)) ;;
  Some ([XMLOpeningTag "CostCurvesInfo" None; XMLOpeningTag "PeriodCostCurves" None]
          ++ byPeriod
          ++ [XMLClosingTag "PeriodCostCurves";
              XMLOpeningTag "RegionalCostCurvesByPeriod" None]
          ++ map (fun rIter => XMLCurve (snd rIter)) (mRegionalCostCurves self)
          ++ [XMLClosingTag "RegionalCostCurvesByPeriod";
              XMLOpeningTag "RegionalUndiscountedCosts" None]
          ++ map (fun iter => XMLElement (snd iter) "UndiscountedCost" (Some (fst iter)))
                 (mRegionalCosts self)
          ++ [XMLClosingTag "RegionalUndiscountedCosts";
              XMLOpeningTag "RegionalDiscountedCosts" None]
          ++ map (fun iter => XMLElement (snd iter) "DiscountedCost" (Some (fst iter)))
                 (mRegionalDiscountedCosts self)
          ++ [XMLClosingTag "RegionalDiscountedCosts";
              XMLElement (mGlobalCost self) "GlobalUndiscountedTotalCost" None;
              XMLElement (mGlobalDiscountedCost self) "GlobalDiscountedCost" None;
              XMLClosingTag "CostCurvesInfo"]).

(** [tempOutVec[ maxPeriod - 1 ] = total] on the zeroed vector. *)
Definition totalInLastPeriod (total : double) : option (list double) :=
  let maxPeriod := getmaxper getModeltime in
  assignAt (maxPeriod - 1) (total * CVRT_75_TO_90)%float (repeat 0%float maxPeriod).

Fixpoint totalsToDB (var3name : string) (totals : list (string * double))
  : option (list Output) :=
  match totals with
  | [] => Some []
  | iter :: rest =>
      tempOutVec <- totalInLastPeriod (snd iter) ;;
      others <- totalsToDB var3name rest ;;
      Some (DBOutput (fst iter) "General" var3name "AllYears" "(millions)90US$" tempOutVec
              :: others)
  end.

Definition writeToDB (self : TotalPolicyCostCalculator) : option (list Output) :=
  let byPeriod :=
    map (fun rIter =>
           DBOutput (fst rIter) "General" "PolicyCostUndisc" "Period" "(millions)90US$"
             (map (fun per =>
                     (getY (snd rIter) (double_of_int (getper_to_yr getModeltime per))
                      * CVRT_75_TO_90)%float)
                  (seq 0 (getmaxper getModeltime))))
        (mRegionalCostCurves self) in
  undiscounted <- totalsToDB "PolicyCostTotalUndisc" (mRegionalCosts self) ;;
  discounted <- totalsToDB "PolicyCostTotalDisc" (mRegionalDiscountedCosts self) ;;
  Some (byPeriod ++ undiscounted ++ discounted).

Definition printOutput (self : TotalPolicyCostCalculator) (s : Scenario)
  : option (list Output) :=
  if negb (mRanCosts self) then Some []
  else
    xmlString <- createXMLOutputString self ;;
    toDB <- writeToDB self ;;
    Some (FileOutput "costCurvesOutputFileName"
                     ("cost_curves_" ++ getName s ++ ".xml") xmlString
            :: (if USE_XML_DB
                then [XMLDBOutput xmlString "/scenario/world/region[last()]"]
                else [])
            ++ toDB).

End Calculator.

(* ================================================================== *)
(** ** InputDriver *)

(** What the driver uses of an [IInput]: its name and its physical demand
    in a period. *)
Record IInput : Type := mkIInput {
  inputName : string;
  getPhysicalDemand : Z -> double
}.

Record IOutput : Type := mkIOutput { outputName : string }.

Record InputDriver : Type := mkInputDriver { mInputName : string }.

(** Modelled from the spec: FunctionUtils::getInput (function_utils.cpp is
    not among the sources).  The first input of the vector whose name is the
    one asked for; the null pointer ([None]) when no input has that name. *)
Fixpoint getInput (aInputs : list IInput) (aInputName : string) : option IInput :=
  match aInputs with
  | [] => None
  | input :: rest =>
      if String.eqb (inputName input) aInputName then Some input
      else getInput rest aInputName
  end.

Definition calcEmissionsDriver (self : InputDriver) (aInputs : list IInput)
    (aOutputs : list IOutput) (aPeriod : Z) : double :=
  let inputToDrive := getInput aInputs (mInputName self) in
  match inputToDrive with
  | Some input => getPhysicalDemand input aPeriod
  | None => 0%float
  end.

(* ================================================================== *)
(** ** The sweep, told from the scenario's side *)

(** What Trial Sweep Driver is to do (spec 4.2), written as a recursion on
    the trial number over the scenario alone: the taxes of trial [t], the
    scenario it leaves behind, whether it solved, and the calls it makes.
    The calculator's loops are proved to agree with it below. *)
Section Sweep.

Context {curveOps : CurveOps}.
Context {Scenario : Type} {facade : ScenarioFacade Scenario}.

Variable ghg : string.
Variable numPoints : nat.
Variable start : Scenario.

Definition yearOf (per : nat) : double :=
  double_of_int (getper_to_yr getModeltime per).

Definition baselineQuantities : RegionCurves := getEmissionsQuantityCurves start ghg.

Definition baselineTaxes : RegionCurves := getEmissionsPriceCurves start ghg.

Definition trialFraction (t : nat) : double :=
  (double_of_nat t / double_of_nat numPoints)%float.

(** The fixed tax of a region: the baseline tax of each period times the
    fraction of the trial. *)
Definition trialPolicy (t : nat) (region : string) (baseTax : Curve) : GHGPolicy :=
  mkGHGPolicy ghg region
    (map (fun per => (getY baseTax (yearOf per) * trialFraction t)%float)
         (seq 0 (getmaxper getModeltime))).

Definition trialPolicies (t : nat) : list GHGPolicy :=
  map (fun rIter => trialPolicy t (fst rIter) (snd rIter)) baselineTaxes.

Definition withTrialTaxes (t : nat) (s : Scenario) : Scenario :=
  fold_left setTax (trialPolicies t) s.

(** The scenario once trials [0 .. t-1] have run. *)
Fixpoint scenarioAfter (t : nat) : Scenario :=
  match t with
  | 0 => start
  | S t' =>
      snd (run (withTrialTaxes t' (scenarioAfter t')) RUN_ALL_PERIODS true (toString t'))
  end.

(** The success flag of trial [t]. *)
Definition trialSolved (t : nat) : bool :=
  fst (run (withTrialTaxes t (scenarioAfter t)) RUN_ALL_PERIODS true (toString t)).

Definition trialRun (t : nat) : Call := CallRun RUN_ALL_PERIODS true (toString t).

(** The calls of trial [t]: its taxes, then its run, then the snapshots. *)
Definition trialCalls (t : nat) : list Call :=
  map CallSetTax (trialPolicies t)
    ++ [trialRun t; CallGetEmissionsQuantityCurves ghg; CallGetEmissionsPriceCurves ghg].

Definition trialLogLine (t : nat) : string :=
  "Starting cost curve point run number " ++ toString t ++ ".".

(** The snapshots by trial index, the baseline last (index [numPoints]). *)
Definition sweepQuantityCurves : list RegionCurves :=
  map (fun t => getEmissionsQuantityCurves (scenarioAfter (S t)) ghg) (seq 0 numPoints)
    ++ [baselineQuantities].

Definition sweepPriceCurves : list RegionCurves :=
  map (fun t => getEmissionsPriceCurves (scenarioAfter (S t)) ghg) (seq 0 numPoints)
    ++ [baselineTaxes].

Definition sweepSolved : bool := forallb trialSolved (seq 0 numPoints).

End Sweep.

Definition isRun (c : Call) : bool :=
  match c with CallRun _ _ _ => true | _ => false end.

Definition isSetTax (c : Call) : bool :=
  match c with CallSetTax _ => true | _ => false end.

Definition isGetPrice (c : Call) : bool :=
  match c with CallGetPrice _ _ _ => true | _ => false end.

Definition isSome {A : Type} (o : option A) : bool :=
  match o with Some _ => true | None => false end.

(** Keys strictly ascending, as a check. *)
Fixpoint ascendingKeys (ks : list string) : bool :=
  match ks with
  | [] => true
  | k :: ks' =>
      match ks' with
      | [] => true
      | k' :: _ =>
          match String.compare k k' with Lt => ascendingKeys ks' | _ => false end
      end
  end.

Definition sameKeys (a b : list string) : bool :=
  if list_eq_dec string_dec a b then true else false.

Definition notGlobal (region : string) : bool := negb (String.eqb region "global").

(** ** Preconditions of the curve builders, as checks on the calculator *)

Section Preconditions.

Context {curveOps : CurveOps}.
Context {Scenario : Type} {facade : ScenarioFacade Scenario}.

(** Every trial's maps hold a curve for every region of trial 0's
    quantity map (the region sets agree), and that map is a well-formed
    [std::map]. *)
Definition trialsCoverRegions (self : TotalPolicyCostCalculator) : bool :=
  match nth_error (mEmissionsQCurves self) 0 with
  | None => false
  | Some first =>
      ascendingKeys (StdMap.keys first)
      && forallb
           (fun trial =>
              forallb
                (fun region =>
                   isSome (curveOf region (mEmissionsQCurves self) trial)
                   && isSome (curveOf region (mEmissionsTCurves self) trial))
                (StdMap.keys first))
           (seq 0 (mNumPoints self + 1))
  end.

(** Every period's map holds a cost curve for every region of period 0
    that the aggregator processes. *)
Definition periodsCoverRegions (self : TotalPolicyCostCalculator) : bool :=
  match nth_error (mPeriodCostCurves self) 0 with
  | None => false
  | Some first =>
      forallb
        (fun region =>
           forallb (fun per => isSome (curveOf region (mPeriodCostCurves self) per))
                   (seq 0 (getmaxper getModeltime)))
        (filter notGlobal (StdMap.keys first))
  end.

(** The scenario reports one region set, in key order, after the primary
    run and after every trial. *)
Definition sweepWellFormed (ghg : string) (numPoints : nat) (start : Scenario) : bool :=
  let regions := StdMap.keys (getEmissionsQuantityCurves start ghg) in
  ascendingKeys regions
  && forallb
       (fun t =>
          sameKeys (StdMap.keys (getEmissionsQuantityCurves
                                   (scenarioAfter ghg numPoints start t) ghg)) regions
          && sameKeys (StdMap.keys (getEmissionsPriceCurves
                                      (scenarioAfter ghg numPoints start t) ghg)) regions)
       (seq 0 (numPoints + 1)).

(** The cost curve of a region and period as [createCostCurvesByPeriod]
    builds it (the empty curve where the source would fault). *)
Definition periodCostCurveOr (self : TotalPolicyCostCalculator) (per : nat)
    (region : string) (first : Curve) : Curve :=
  orDefault (periodCostCurve self per region first) (PointSetCurve []).

Definition periodCostBindings (self : TotalPolicyCostCalculator) (per : nat)
    (regions : RegionCurves) : RegionCurves :=
  map (fun rIter => (fst rIter, periodCostCurveOr self per (fst rIter) (snd rIter)))
      regions.

(** The year-to-cost curve of a region and its two totals as
    [createRegionalCostCurves] computes them. *)
Definition regionalCostCurveOf (self : TotalPolicyCostCalculator) (region : string)
  : Curve :=
  setTitle region
    (PointSetCurve
       (orDefault (regionCostPoints self region (seq 0 (getmaxper getModeltime)) []) [])).

Definition startYearOf (conf : Configuration) : double :=
  double_of_int (getInt conf "discount-start-year" 2005).

Definition endYear : double := double_of_int (getEndYear getModeltime).

Definition regionalCostOf (conf : Configuration) (self : TotalPolicyCostCalculator)
    (region : string) : double :=
  getIntegral (regionalCostCurveOf self region) (startYearOf conf) endYear.

Definition discountedRegionalCostOf (conf : Configuration)
    (self : TotalPolicyCostCalculator) (region : string) : double :=
  getDiscountedValue (regionalCostCurveOf self region) (startYearOf conf) endYear
    (getDouble conf "discountRate" 0x1.999999999999ap-5%float).

(** The regions the aggregator processes, in iteration order. *)
Definition costedRegions (self : TotalPolicyCostCalculator) : list string :=
  filter notGlobal (StdMap.keys (nth 0 (mPeriodCostCurves self) [])).

(** Left-to-right sum, as [+=] in a loop computes it. *)
Definition sumFrom (init : double) (xs : list double) : double :=
  fold_left PrimFloat.add xs init.

(** The point of trial [trial] on the curve of [region] at [year]:
    x is trial 0's quantity ([first]) minus the trial's quantity, y is
    the trial's tax. *)
Definition pointOfTrial (self : TotalPolicyCostCalculator) (region : string)
    (first : Curve) (year : Z) (trial : nat) (p : XYDataPoint) : Prop :=
  exists q t,
    curveOf region (mEmissionsQCurves self) trial = Some q
    /\ curveOf region (mEmissionsTCurves self) trial = Some t
    /\ pointX p = (getY first (double_of_int year) - getY q (double_of_int year))%float
    /\ pointY p = getY t (double_of_int year).

(** The reduction of trial [trial], the x of its point (0 where the
    source would fault). *)
Definition reductionOf (self : TotalPolicyCostCalculator) (region : string)
    (first : Curve) (year : Z) (trial : nat) : double :=
  match trialPoint self region first year trial with
  | Some p => pointX p
  | None => 0%float
  end.

(** The trials of a region reach pairwise different reductions in a
    period. *)
Definition distinctReductions (self : TotalPolicyCostCalculator) (per : nat)
    (region : string) (first : Curve) : bool :=
  distinctDoubles
    (map (reductionOf self region first (getper_to_yr getModeltime per))
         (seq 0 (trialCount self))).

(** The periods have pairwise different calendar years. *)
Definition distinctYears : bool :=
  distinctDoubles
    (map (fun per => double_of_int (getper_to_yr getModeltime per))
         (seq 0 (getmaxper getModeltime))).

(** The point of a trial as specification 4.3 words it: x is the
    baseline's quantity, that of trial index [mNumPoints], minus the
    trial's quantity; y is the trial's tax. *)
Definition specTrialPoint (self : TotalPolicyCostCalculator) (region : string)
    (year : Z) (trial : nat) : option XYDataPoint :=
  base <- curveOf region (mEmissionsQCurves self) (mNumPoints self) ;;
  q <- curveOf region (mEmissionsQCurves self) trial ;;
  t <- curveOf region (mEmissionsTCurves self) trial ;;
  Some (mkXYDataPoint
          (getY base (double_of_int year) - getY q (double_of_int year))%float
          (getY t (double_of_int year))).

(** The curve stored for a period and region is made of those points. *)
Definition builtFromBaseline (self after : TotalPolicyCostCalculator) (per : nat)
    (region : string) : Prop :=
  exists curve pts,
    curveOf region (mPeriodCostCurves after) per = Some curve
    /\ Forall2 (fun trial p =>
                  specTrialPoint self region (getper_to_yr getModeltime per) trial
                  = Some p)
               (seq 0 (mNumPoints self + 1)) pts
    /\ Permutation pts (curvePoints curve).

(** The point of period [per] on the year-to-cost curve of a region: the
    calendar year of the period, and the integral of the period's cost
    curve from 0 to [DBL_MAX]. *)
Definition costPointOf (pc : nat * Curve) : XYDataPoint :=
  mkXYDataPoint (double_of_int (getper_to_yr getModeltime (fst pc)))
                (getIntegral (snd pc) 0%float DBL_MAX).

(** One pass of the region loop of the aggregator, for a region it
    processes. *)
Definition recordRegion (conf : Configuration) (self acc : TotalPolicyCostCalculator)
    (region : string) : TotalPolicyCostCalculator :=
  recordRegionalCost region (regionalCostCurveOf self region)
    (regionalCostOf conf self region) (discountedRegionalCostOf conf self region) acc.

End Preconditions.

(** ** The outcome of a computation, in closed form *)

Section Outcome.

Context {curveOps : CurveOps}.
Context {Scenario : Type} {facade : ScenarioFacade Scenario}.

Variable conf : Configuration.
Variable self : TotalPolicyCostCalculator.
Variable start : Scenario.

(** The calculator once the primary run is stored and the trials ran. *)
Definition swept : TotalPolicyCostCalculator :=
  withEmissionsTCurves (sweepPriceCurves (mGHGName self) (mNumPoints self) start)
    (withEmissionsQCurves (sweepQuantityCurves (mGHGName self) (mNumPoints self) start)
       self).

(** The quantity curves of trial 0, whose regions drive the builder. *)
Definition firstTrialQuantities : RegionCurves :=
  nth 0 (sweepQuantityCurves (mGHGName self) (mNumPoints self) start) [].

Definition periodCostCurvesOf : list RegionCurves :=
  map (fun per => periodCostBindings swept per firstTrialQuantities)
      (seq 0 (getmaxper getModeltime)).

(** ... once the period cost curves are built. *)
Definition costed : TotalPolicyCostCalculator :=
  withPeriodCostCurves periodCostCurvesOf swept.

(** ... once the regions are aggregated. *)
Definition aggregated : TotalPolicyCostCalculator :=
  fold_left (recordRegion conf costed) (costedRegions costed) costed.

Definition outcome : TotalPolicyCostCalculator := withRanCosts true aggregated.

(** The calls of the whole computation when the policy market is active. *)
Definition computationCalls : list Call :=
  CallGetPrice (mGHGName self) "USA" 1
    :: CallGetEmissionsQuantityCurves (mGHGName self)
    :: CallGetEmissionsPriceCurves (mGHGName self)
    :: flat_map (trialCalls (mGHGName self) (mNumPoints self) start)
                (seq 0 (mNumPoints self)).

End Outcome.

(** The computation was skipped: it reports success, hands the calculator
    back untouched and has called nothing but the price query. *)
Definition skipsCostCurves {curveOps : CurveOps} {Scenario : Type}
    {facade : ScenarioFacade Scenario} (conf : Configuration)
    (self : TotalPolicyCostCalculator) (w : World Scenario) : Prop :=
  exists w',
    calculateAbatementCostCurve conf self w = Some (true, self, w')
    /\ calls w' = calls w ++ [CallGetPrice (mGHGName self) "USA" 1].

(** The computation was performed: it returns the conjunction of the
    trials' flags and the calculator holding the curves and costs computed
    from the sweep, having made the calls of the primary run's snapshots
    and of every trial. *)
Definition performsCostCurves {curveOps : CurveOps} {Scenario : Type}
    {facade : ScenarioFacade Scenario} (conf : Configuration)
    (self : TotalPolicyCostCalculator) (w : World Scenario) : Prop :=
  exists w',
    calculateAbatementCostCurve conf self w
    = Some (sweepSolved (mGHGName self) (mNumPoints self) (scenario w),
            outcome conf self (scenario w), w')
    /\ calls w' = calls w ++ computationCalls self (scenario w).

(* ================================================================== *)
(** ** A small scenario to run the calculator on *)

Module Demo.

Local Open Scope float_scope.

(** Modelled from the spec: Curve::getY (point_set_curve.cpp is not
    among the sources).  "Linear interpolation between neighboring
    samples", flat outside the sampled domain. *)
Definition lerp (p q : XYDataPoint) (x : double) : double :=
  pointY p + (pointY q - pointY p) * (x - pointX p) / (pointX q - pointX p).

Fixpoint interpolate (s : ExplicitPointSet) (x : double) : double :=
  match s with
  | [] => 0
  | p :: s' =>
      match s' with
      | [] => pointY p
      | q :: _ =>
          if double_ltb x (pointX q)
          then (if double_ltb (pointX p) x then lerp p q x else pointY p)
          else interpolate s' x
      end
  end.

Definition dmax (a b : double) : double := if double_ltb a b then b else a.
Definition dmin (a b : double) : double := if double_ltb b a then b else a.

(** Modelled from the spec: Curve::getIntegral and Curve::getDiscountedValue
    (not among the sources).  "Numerically integrates the
    piecewise-interpolated function from xLow to xHigh (clamped to the
    actual domain ...)": the trapezoid of every segment, cut to the bounds.
    The discounted value weighs each trapezoid by the present value at
    xLow of its left end, [1 / (1 + rate * (x - xLow))]. *)
Fixpoint integrate (weight : double -> double) (s : ExplicitPointSet)
    (xLow xHigh : double) : double :=
  match s with
  | [] => 0
  | p :: s' =>
      match s' with
      | [] => 0
      | q :: _ =>
          let a := dmax xLow (pointX p) in
          let b := dmin xHigh (pointX q) in
          (if double_ltb a b
           then weight a * ((lerp p q a + lerp p q b) / 2 * (b - a))
           else 0)
          + integrate weight s' xLow xHigh
      end
  end.

Definition curveOps : CurveOps :=
  {| getY := fun c x => interpolate (curvePoints c) x;
     getIntegral := fun c xLow xHigh => integrate (fun _ => 1) (curvePoints c) xLow xHigh;
     getDiscountedValue := fun c xLow xHigh rate =>
       integrate (fun a => 1 / (1 + rate * (a - xLow))) (curvePoints c) xLow xHigh |}.

(** Two periods, 2005 and 2020. *)
Definition modeltime : Modeltime :=
  mkModeltime 2 (fun per => (2005 + 15 * Z.of_nat per)%Z) 2020.

(** The scenario: the fixed taxes set for the next run, and the taxes in
    force in the run that was solved last, by region and period. *)
Record Scenario : Type := mkScenario {
  fixedTaxes : StdMap.t (list double);
  solvedTaxes : StdMap.t (list double)
}.

Definition curveOver (ys : list double) : Curve :=
  PointSetCurve
    (addPoints
       (map (fun py => mkXYDataPoint (double_of_int (getper_to_yr modeltime (fst py))) (snd py))
            (combine (seq 0 (List.length ys)) ys))
       []).

(** Each region emits 100 without a tax and 2 less per unit of tax. *)
Definition quantityCurves (s : Scenario) : RegionCurves :=
  map (fun rt => (fst rt, curveOver (map (fun tax => 100 - 2 * tax) (snd rt))))
      (solvedTaxes s).

Definition priceCurves (s : Scenario) : RegionCurves :=
  map (fun rt => (fst rt, curveOver (snd rt))) (solvedTaxes s).

Definition noMarketPrice : double := -1.

Definition marketPrice (s : Scenario) (region : string) (period : Z) : double :=
  match StdMap.find region (solvedTaxes s) with
  | Some taxes => nth (Z.to_nat period) taxes noMarketPrice
  | None => noMarketPrice
  end.

(** The run with file name ending "0" does not solve. *)
Definition facade : ScenarioFacade Scenario :=
  {| getPrice := fun s _ region period => marketPrice s region period;
     NO_MARKET_PRICE := noMarketPrice;
     getEmissionsQuantityCurves := fun s _ => quantityCurves s;
     getEmissionsPriceCurves := fun s _ => priceCurves s;
     setTax := fun s tax =>
       mkScenario (StdMap.insert (policyMarket tax) (policyFixedTaxes tax) (fixedTaxes s))
                  (solvedTaxes s);
     run := fun s _ _ filenameEnding =>
       (negb (String.eqb filenameEnding "0"), mkScenario (fixedTaxes s) (fixedTaxes s));
     RUN_ALL_PERIODS := (-1)%Z;
     getName := fun _ => "demo";
     getModeltime := modeltime |}.

Definition policyTaxes : StdMap.t (list double) :=
  [("China", [5; 10]); ("USA", [10; 20]); ("global", [10; 20])].

Definition policyScenario : Scenario := mkScenario policyTaxes policyTaxes.

Definition noPolicyScenario : Scenario := mkScenario [] [].

Definition conf : Configuration :=
  mkConfiguration [] [("numPointsForCO2CostCurve", 2%Z)] [].

Definition start (s : Scenario) : World Scenario := mkWorld s [] [].

Definition calculator : TotalPolicyCostCalculator := newTotalPolicyCostCalculator conf.

(** The policy scenario, nothing called on it yet. *)
Definition world : World Scenario := start policyScenario.

Definition compute (self : TotalPolicyCostCalculator) (s : Scenario) :=
  calculateAbatementCostCurve (curveOps := curveOps) (facade := facade) conf self (start s).

(** The calculator of a computation ([self] when the source would fault). *)
Definition computed (self : TotalPolicyCostCalculator) (s : Scenario)
  : TotalPolicyCostCalculator :=
  match compute self s with
  | Some r => snd (fst r)
  | None => self
  end.

(** The calculator after a first and after a second computation from the
    policy scenario. *)
Definition first : TotalPolicyCostCalculator :=
  Eval vm_compute in computed calculator policyScenario.

Definition second : TotalPolicyCostCalculator :=
  Eval vm_compute in computed first policyScenario.

(** The calculator after lines 106-115 (primary run stored, trials run),
    and after [createCostCurvesByPeriod]. *)
Definition sweptCalculator : TotalPolicyCostCalculator :=
  Eval vm_compute in
    match storeBaseline (facade := facade) calculator (start policyScenario) with
    | Some based =>
        match runTrials (curveOps := curveOps) (facade := facade)
                (fst based) (snd based) with
        | Some trials => snd (fst trials)
        | None => calculator
        end
    | None => calculator
    end.

Definition costedCalculator : TotalPolicyCostCalculator :=
  Eval vm_compute in
    match createCostCurvesByPeriod (curveOps := curveOps) (facade := facade)
            sweptCalculator with
    | Some c => c
    | None => sweptCalculator
    end.

(** A scenario with another tax in 2005 and no market in China, but the
    same price for "USA" at period 1. *)
Definition otherScenario : Scenario :=
  mkScenario [("USA", [3; 20])] [("USA", [3; 20])].

End Demo.

(* ================================================================== *)
(** ** InputDriver: parsing and copying *)

(** A DOM node as [XMLParse] reads it: its name, the value
    [XMLHelper<string>::getValue] gives for it, and its child nodes. *)
#[warnings="-register-all"]
Inductive DOMNode : Type :=
| mkDOMNode (name value : string) (children : list DOMNode).

Definition getNodeName (node : DOMNode) : string :=
  match node with mkDOMNode name _ _ => name end.

Definition getValue (node : DOMNode) : string :=
  match node with mkDOMNode _ value _ => value end.

Definition getChildNodes (node : DOMNode) : list DOMNode :=
  match node with mkDOMNode _ _ children => children end.

Definition getXMLNameStatic : string := "input-driver".

Definition getXMLName (self : InputDriver) : string := getXMLNameStatic.

(** [new InputDriver( *this )]. *)
Definition clone (self : InputDriver) : InputDriver := mkInputDriver (mInputName self).

(** The line sent to the main log at warning level for a child that is not
    recognized (lines 95-97; there is no space before the driver's name). *)
Definition unrecognizedWarning (self : InputDriver) (nodeName : string) : string :=
  "Unrecognized text string: " ++ nodeName ++ " found while parsing" ++ getXMLName self.

Section InputDriverParsing.

(** [XMLHelper<void>::text()], the name of text nodes (xml_helper.h is not
    among the sources). *)
Variable text : string.

(** Lines 84-100: the loop over the child nodes. *)
Fixpoint parseChildNodes (nodeList : list DOMNode) (parsingSuccessful : bool)
    (self : InputDriver) (mainLog : list string)
  : bool * InputDriver * list string :=
  match nodeList with
  | [] => (parsingSuccessful, self, mainLog)
  | curr :: rest =>
      let nodeName := getNodeName curr in
      if String.eqb nodeName text then
        parseChildNodes rest parsingSuccessful self mainLog
      else if String.eqb nodeName "input-name" then
        parseChildNodes rest parsingSuccessful (mkInputDriver (getValue curr)) mainLog
      else
        parseChildNodes rest false self (mainLog ++ [unrecognizedWarning self nodeName])
  end.

(** [XMLParse]; the node is a pointer, asserted not to be null. *)
Definition XMLParse (self : InputDriver) (aNode : option DOMNode)
    (mainLog : list string) : option (bool * InputDriver * list string) :=
  node <- aNode ;;
  Some (parseChildNodes (getChildNodes node) true self mainLog).

(** The children that set the name, and those that draw a warning. *)
Definition namesInput (node : DOMNode) : bool :=
  negb (String.eqb (getNodeName node) text) && String.eqb (getNodeName node) "input-name".

Definition unrecognized (node : DOMNode) : bool :=
  negb (String.eqb (getNodeName node) text)
  && negb (String.eqb (getNodeName node) "input-name").

End InputDriverParsing.

(* ================================================================== *)
(** ** The output document *)

(** Every closing tag closes the tag opened last and not yet closed, and
    nothing is left open at the end. *)
Fixpoint wellNested (opened : list string) (xml : list XMLItem) : bool :=
  match xml with
  | [] => match opened with [] => true | _ :: _ => false end
  | XMLOpeningTag tag _ :: rest => wellNested (tag :: opened) rest
  | XMLClosingTag tag :: rest =>
      match opened with
      | [] => false
      | innermost :: outer => String.eqb innermost tag && wellNested outer rest
      end
  | XMLCurve _ :: rest => wellNested opened rest
  | XMLElement _ _ _ :: rest => wellNested opened rest
  end.

(** The row of the totals tables for one region: zero in every period but
    the last, which holds the converted total. *)
Definition totalRow {Scenario : Type} {facade : ScenarioFacade Scenario}
    (var3name : string) (iter : string * double) : Output :=
  DBOutput (fst iter) "General" var3name "AllYears" "(millions)90US$"
    (repeat 0%float (getmaxper getModeltime - 1) ++ [(snd iter * CVRT_75_TO_90)%float]).

(** The row of the period table for one region. *)
Definition periodRow {curveOps : CurveOps} {Scenario : Type}
    {facade : ScenarioFacade Scenario} (rIter : string * Curve) : Output :=
  DBOutput (fst rIter) "General" "PolicyCostUndisc" "Period" "(millions)90US$"
    (map (fun per =>
            (getY (snd rIter) (double_of_int (getper_to_yr getModeltime per))
             * CVRT_75_TO_90)%float)
         (seq 0 (getmaxper getModeltime))).

(* ================================================================== *)
(** ** More small scenarios *)

Module DemoMore.

Local Open Scope float_scope.

(** The calculator after the sweep of the policy scenario, but with an
    empty price map at trial 1. *)
Definition lackingCalculator : TotalPolicyCostCalculator :=
  Eval vm_compute in
    withEmissionsTCurves
      (firstn 1 (mEmissionsTCurves Demo.sweptCalculator)
         ++ [[]] ++ skipn 2 (mEmissionsTCurves Demo.sweptCalculator))
      Demo.sweptCalculator.

(** The calculator holding the period cost curves of the policy scenario,
    but with an empty map at period 1. *)
Definition shortCalculator : TotalPolicyCostCalculator :=
  Eval vm_compute in
    withPeriodCostCurves (firstn 1 (mPeriodCostCurves Demo.costedCalculator) ++ [[]])
      Demo.costedCalculator.

(** The calculator holding the period cost curves of the policy scenario,
    with costs recorded earlier for "Atlantis" and for "global". *)
Definition reusedCalculator : TotalPolicyCostCalculator :=
  Eval vm_compute in
    recordRegionalCost "global" (PointSetCurve []) 1 0.5
      (recordRegionalCost "Atlantis" (PointSetCurve []) 7 3 Demo.costedCalculator).

(** The scenario of [Demo] with a model time of no period. *)
Definition noPeriodFacade : ScenarioFacade Demo.Scenario :=
  {| getPrice := fun s _ region period => Demo.marketPrice s region period;
     NO_MARKET_PRICE := Demo.noMarketPrice;
     getEmissionsQuantityCurves := fun s _ => Demo.quantityCurves s;
     getEmissionsPriceCurves := fun s _ => Demo.priceCurves s;
     setTax := fun s tax =>
       Demo.mkScenario
         (StdMap.insert (policyMarket tax) (policyFixedTaxes tax) (Demo.fixedTaxes s))
         (Demo.solvedTaxes s);
     run := fun s _ _ _ => (true, Demo.mkScenario (Demo.fixedTaxes s) (Demo.fixedTaxes s));
     RUN_ALL_PERIODS := (-1)%Z;
     getName := fun _ => "demo";
     getModeltime := mkModeltime 0 (fun _ => 2005%Z) 2005 |}.

(** The policy of a single region with no tax in the first period: all
    trials emit the same there. *)
Definition untaxedScenario : Demo.Scenario :=
  Demo.mkScenario [("USA", [0; 20])] [("USA", [0; 20])].

(** The calculator after a computation from it. *)
Definition untaxedCalculator : TotalPolicyCostCalculator :=
  Eval vm_compute in Demo.computed Demo.calculator untaxedScenario.

(** A configuration asking for no trial. *)
Definition noPointConf : Configuration :=
  mkConfiguration [] [("numPointsForCO2CostCurve", 0%Z)] [].

(** An <input-driver> element: white space, a name, a stray element,
    another name. *)
Definition driverNode : DOMNode :=
  mkDOMNode "input-driver" ""
    [mkDOMNode "#text" " " [];
     mkDOMNode "input-name" "coal" [mkDOMNode "#text" "coal" []];
     mkDOMNode "output-name" "CO2" [];
     mkDOMNode "input-name" "gas" [mkDOMNode "#text" "gas" []]].

End DemoMore.

(* ================================================================== *)
(** * Properties *)

(** ** Vectors *)

Lemma assignAt_Some {A : Type} (i : nat) (x : A) (v : list A) :
  i < List.length v ->
  exists v', assignAt i x v = Some v'
             /\ List.length v' = List.length v
             /\ nth_error v' i = Some x
             /\ (forall j, j <> i -> nth_error v' j = nth_error v j).
Proof.
  intro Hi. unfold assignAt.
  destruct (Nat.ltb_spec i (List.length v)) as [_ | Hge]; [ | lia ].
  eexists; split; [ reflexivity | ].
  assert (Hlen : List.length (firstn i v) = i) by (rewrite length_firstn; lia).
  repeat split.
  - rewrite length_app, Hlen. cbn [List.length]. rewrite length_skipn. lia.
  - rewrite nth_error_app2 by lia. rewrite Hlen, Nat.sub_diag. reflexivity.
  - intros j Hj. destruct (Nat.lt_ge_cases j i) as [Hlt | Hgt].
    + rewrite nth_error_app1 by lia. rewrite nth_error_firstn.
      destruct (Nat.ltb_spec j i); [ reflexivity | lia ].
    + rewrite nth_error_app2 by lia. rewrite Hlen.
      destruct (j - i) as [ | d ] eqn:Hd; [ lia | ].
      cbn [nth_error]. rewrite nth_error_skipn. f_equal. lia.
Qed.

Lemma length_resize {A : Type} (dflt : A) (n : nat) (v : list A) :
  List.length (resize dflt n v) = n.
Proof.
  unfold resize. rewrite length_app, length_firstn, repeat_length. lia.
Qed.

Lemma resize_same_length {A : Type} (dflt : A) (v : list A) :
  resize dflt (List.length v) v = v.
Proof.
  unfold resize. rewrite firstn_all, Nat.sub_diag. cbn. apply app_nil_r.
Qed.

Lemma resize_nil {A : Type} (dflt : A) (n : nat) :
  resize dflt n [] = repeat dflt n.
Proof.
  unfold resize. rewrite firstn_nil. cbn. f_equal. lia.
Qed.

(** Two lists that agree at every index are equal. *)
Lemma nth_error_ext_eq {A : Type} (l1 l2 : list A) :
  (forall i, nth_error l1 i = nth_error l2 i) -> l1 = l2.
Proof.
  revert l2. induction l1 as [ | a l1 IH ]; intros [ | b l2 ] H.
  - reflexivity.
  - specialize (H 0). discriminate.
  - specialize (H 0). discriminate.
  - pose proof (H 0) as H0. cbn in H0. injection H0 as ->.
    f_equal. apply IH. intro i. exact (H (S i)).
Qed.

(** ** std::map *)

Module StdMapFacts.
Import StdMap.

Lemma compare_refl (k : string) : String.compare k k = Eq.
Proof.
  pose proof (String.compare_antisym k k) as H.
  destruct (String.compare k k); cbn in H; congruence.
Qed.

Lemma compare_Gt_lt (a b : string) : String.compare a b = Gt -> key_lt b a.
Proof.
  intro H. unfold key_lt. rewrite String.compare_antisym, H. reflexivity.
Qed.

Lemma key_lt_trans (a b c : string) : key_lt a b -> key_lt b c -> key_lt a c.
Proof.
  unfold key_lt. intros Hab Hbc.
  apply String_as_OT.cmp_lt. apply String_as_OT.cmp_lt in Hab, Hbc.
  exact (String_as_OT.lt_trans _ _ _ Hab Hbc).
Qed.

Lemma key_lt_Gt (a b : string) : key_lt a b -> String.compare b a = Gt.
Proof.
  unfold key_lt. intro H. rewrite String.compare_antisym, H. reflexivity.
Qed.

Section Values.
Context {V : Type}.
Implicit Types (m : t V) (k : string) (v : V).

Lemma find_insert_same k v m : find k (insert k v m) = Some v.
Proof.
  induction m as [ | [k' v'] m IH ]; cbn.
  - rewrite compare_refl. reflexivity.
  - destruct (String.compare k k') eqn:E; cbn.
    + rewrite compare_refl. reflexivity.
    + rewrite compare_refl. reflexivity.
    + rewrite E. exact IH.
Qed.

Lemma find_insert_other k k' v m :
  k <> k' -> find k (insert k' v m) = find k m.
Proof.
  intro Hne. induction m as [ | [k1 v1] m IH ]; cbn.
  - destruct (String.compare k k') eqn:E; try reflexivity.
    apply String.compare_eq_iff in E. contradiction.
  - destruct (String.compare k' k1) eqn:E1; cbn.
    + apply String.compare_eq_iff in E1. subst k1.
      destruct (String.compare k k') eqn:E; try reflexivity.
      apply String.compare_eq_iff in E. contradiction.
    + destruct (String.compare k k') eqn:E; try reflexivity.
      * apply String.compare_eq_iff in E. contradiction.
      * assert (H : key_lt k k1) by (eapply key_lt_trans; eassumption).
        unfold key_lt in H. rewrite H. reflexivity.
    + destruct (String.compare k k1); try reflexivity. exact IH.
Qed.

Lemma find_insert k k' v m :
  find k (insert k' v m) = if String.eqb k k' then Some v else find k m.
Proof.
  destruct (String.eqb_spec k k') as [-> | Hne].
  - apply find_insert_same.
  - apply find_insert_other. assumption.
Qed.

Lemma find_insertAll k (kvs : list (string * V)) m :
  find k (insertAll kvs m)
  = match lastBinding k kvs with
    | Some v => Some v
    | None => find k m
    end.
Proof.
  unfold insertAll. revert m.
  induction kvs as [ | [k1 v1] kvs IH ]; intro m; cbn.
  - reflexivity.
  - rewrite IH. destruct (lastBinding k kvs); [ reflexivity | ].
    rewrite find_insert. cbn. destruct (String.eqb k k1); reflexivity.
Qed.

Lemma keys_insert_Forall (P : string -> Prop) k v m :
  P k -> Forall P (keys m) -> Forall P (keys (insert k v m)).
Proof.
  intros Hk. induction m as [ | [k' v'] m IH ]; cbn; intro H.
  - constructor; [ assumption | constructor ].
  - inversion H as [ | ? ? Hk' Hm ]; subst.
    destruct (String.compare k k'); cbn.
    + constructor; assumption.
    + constructor; [ assumption | ]. constructor; assumption.
    + constructor; [ assumption | ]. apply IH. assumption.
Qed.

Lemma insert_ordered k v m : ordered m -> ordered (insert k v m).
Proof.
  unfold ordered. induction m as [ | [k' v'] m IH ]; cbn; intro H.
  - constructor; constructor.
  - apply StronglySorted_inv in H. destruct H as [Hm Hk'].
    destruct (String.compare k k') eqn:E; cbn.
    + apply String.compare_eq_iff in E. subst k'.
      constructor; assumption.
    + constructor.
      * constructor; assumption.
      * constructor; [ exact E | ].
        eapply Forall_impl; [ | exact Hk' ].
        intros a Ha. eapply key_lt_trans; eassumption.
    + constructor.
      * apply IH. assumption.
      * apply keys_insert_Forall; [ | assumption ].
        apply compare_Gt_lt. assumption.
Qed.

Lemma insertAll_ordered (kvs : list (string * V)) m :
  ordered m -> ordered (insertAll kvs m).
Proof.
  unfold insertAll. revert m.
  induction kvs as [ | kv kvs IH ]; intros m H; cbn.
  - assumption.
  - apply IH. apply insert_ordered. assumption.
Qed.

(** Below the smallest key there is nothing to find. *)
Lemma find_below k k0 m :
  (k = k0 \/ key_lt k k0) -> Forall (key_lt k0) (keys m) -> find k m = None.
Proof.
  intros Hk H. destruct m as [ | [k1 v1] m ]; [ reflexivity | ].
  cbn in *. inversion H as [ | ? ? H1 _ ]; subst.
  assert (Hlt : key_lt k k1).
  { destruct Hk as [-> | Hk]; [ assumption | ].
    eapply key_lt_trans; eassumption. }
  unfold key_lt in Hlt. rewrite Hlt. reflexivity.
Qed.

Lemma ordered_ext m1 m2 :
  ordered m1 -> ordered m2 ->
  (forall k, find k m1 = find k m2) -> m1 = m2.
Proof.
  unfold ordered. revert m2.
  induction m1 as [ | [k1 v1] m1 IH ]; intros [ | [k2 v2] m2 ] H1 H2 Hext.
  - reflexivity.
  - specialize (Hext k2). cbn in Hext. rewrite compare_refl in Hext. discriminate.
  - specialize (Hext k1). cbn in Hext. rewrite compare_refl in Hext. discriminate.
  - cbn in H1, H2.
    apply StronglySorted_inv in H1. destruct H1 as [Hs1 Hf1].
    apply StronglySorted_inv in H2. destruct H2 as [Hs2 Hf2].
    destruct (String.compare k1 k2) eqn:E.
    + apply String.compare_eq_iff in E. subst k2.
      pose proof (Hext k1) as Hv. cbn in Hv. rewrite compare_refl in Hv.
      injection Hv as ->. f_equal.
      apply IH; try assumption.
      intro k. pose proof (Hext k) as Hk. cbn in Hk.
      destruct (String.compare k k1) eqn:Ek.
      * apply String.compare_eq_iff in Ek. subst k.
        rewrite (find_below k1 k1 m1), (find_below k1 k1 m2); auto.
      * rewrite (find_below k k1 m1), (find_below k k1 m2); auto.
      * exact Hk.
    + pose proof (Hext k1) as Hk. cbn in Hk.
      rewrite compare_refl, E in Hk. discriminate.
    + pose proof (Hext k2) as Hk. cbn in Hk.
      rewrite compare_refl in Hk.
      apply compare_Gt_lt in E. unfold key_lt in E. rewrite E in Hk. discriminate.
Qed.

Lemma find_In m k v : ordered m -> In (k, v) m -> find k m = Some v.
Proof.
  unfold ordered. induction m as [ | [k1 v1] m IH ]; cbn; intros Hs Hin.
  - contradiction.
  - apply StronglySorted_inv in Hs. destruct Hs as [Hs Hf].
    destruct Hin as [Heq | Hin].
    + injection Heq as -> ->. rewrite compare_refl. reflexivity.
    + assert (Hlt : key_lt k1 k).
      { rewrite Forall_forall in Hf. apply Hf.
        unfold keys. apply in_map_iff. exists (k, v). auto. }
      rewrite (key_lt_Gt _ _ Hlt). apply IH; assumption.
Qed.

Lemma find_Some_In m k v : find k m = Some v -> In (k, v) m.
Proof.
  induction m as [ | [k1 v1] m IH ]; cbn; intro H.
  - discriminate.
  - destruct (String.compare k k1) eqn:E.
    + apply String.compare_eq_iff in E. subst k1. injection H as ->. auto.
    + discriminate.
    + right. apply IH. assumption.
Qed.

Lemma find_key_In m k : ordered m -> In k (keys m) -> exists v, find k m = Some v.
Proof.
  intros Hs Hin. unfold keys in Hin. apply in_map_iff in Hin.
  destruct Hin as [[k' v] [Hk Hin]]. cbn in Hk. subst k'.
  exists v. apply find_In; assumption.
Qed.

Lemma lastBinding_ordered (kvs : list (string * V)) k :
  ordered kvs -> lastBinding k kvs = find k kvs.
Proof.
  unfold ordered. induction kvs as [ | [k1 v1] kvs IH ]; cbn; intro Hs.
  - reflexivity.
  - apply StronglySorted_inv in Hs. destruct Hs as [Hs Hf].
    rewrite (IH Hs).
    destruct (String.compare k k1) eqn:E.
    + apply String.compare_eq_iff in E. subst k1.
      rewrite (find_below k k kvs) by auto.
      rewrite String.eqb_refl. reflexivity.
    + rewrite (find_below k k1 kvs) by auto.
      destruct (String.eqb_spec k k1) as [-> | _]; [ | reflexivity ].
      rewrite compare_refl in E. discriminate.
    + destruct (find k kvs); [ reflexivity | ].
      destruct (String.eqb_spec k k1) as [-> | _]; [ | reflexivity ].
      rewrite compare_refl in E. discriminate.
Qed.

(** Filling an empty map from bindings in key order gives the
    bindings back. *)
Lemma insertAll_ordered_nil (kvs : list (string * V)) :
  ordered kvs -> insertAll kvs [] = kvs.
Proof.
  intro Hs. apply ordered_ext.
  - apply insertAll_ordered. constructor.
  - assumption.
  - intro k. rewrite find_insertAll, lastBinding_ordered by assumption.
    destruct (find k kvs); reflexivity.
Qed.

(** Storing the same bindings a second time changes nothing. *)
Lemma insertAll_twice (kvs : list (string * V)) m :
  ordered m -> insertAll kvs (insertAll kvs m) = insertAll kvs m.
Proof.
  intro Hs. apply ordered_ext.
  - do 2 apply insertAll_ordered. assumption.
  - apply insertAll_ordered. assumption.
  - intro k. rewrite !find_insertAll.
    destruct (lastBinding k kvs); reflexivity.
Qed.

End Values.

Lemma ascendingKeys_sorted (ks : list string) :
  ascendingKeys ks = true -> StronglySorted key_lt ks.
Proof.
  intro H. apply Sorted_StronglySorted.
  - intros a b c. apply key_lt_trans.
  - induction ks as [ | k ks IH ]; [ constructor | ].
    cbn in H. destruct ks as [ | k' ks ].
    + constructor; constructor.
    + destruct (String.compare k k') eqn:E; try discriminate.
      constructor; [ apply IH; assumption | constructor; exact E ].
Qed.

Lemma sorted_filter (f : string -> bool) (ks : list string) :
  StronglySorted key_lt ks -> StronglySorted key_lt (filter f ks).
Proof.
  induction 1 as [ | k ks Hs IH Hf ]; cbn.
  - constructor.
  - destruct (f k); [ | assumption ].
    constructor; [ assumption | ].
    rewrite Forall_forall in *. intros x Hx.
    apply filter_In in Hx. apply Hf. tauto.
Qed.

End StdMapFacts.

(** ** Point sets *)

Lemma SFltb_asym (x y : spec_float) : SFltb x y = true -> SFltb y x = false.
Proof.
  unfold SFltb, SFcompare.
  destruct x as [sx | sx | | sx mx ex], y as [sy | sy | | sy my ey];
    try destruct sx; try destruct sy; cbn; try congruence.
  all: rewrite (Z.compare_antisym ex ey);
    change (Pos.compare_cont Eq my mx) with (Pos.compare my mx);
    change (Pos.compare_cont Eq mx my) with (Pos.compare mx my);
    rewrite (Pos.compare_antisym mx my);
    destruct (ex ?= ey)%Z; cbn; try congruence;
    destruct (mx ?= my)%positive; cbn; congruence.
Qed.

Lemma double_ltb_asym (a b : double) : double_ltb a b = true -> double_ltb b a = false.
Proof. apply SFltb_asym. Qed.

Lemma SFeqb_SFltb_r (x y z : spec_float) : SFeqb x y = true -> SFltb z x = SFltb z y.
Proof.
  unfold SFeqb, SFltb, SFcompare. intro H.
  destruct x as [[ | ] | [ | ] | | [ | ] mx ex], y as [[ | ] | [ | ] | | [ | ] my ey];
    try discriminate H;
    try (destruct z as [sz | sz | | sz mz ez]; reflexivity).
  all: change (Pos.compare_cont Eq mx my) with (Pos.compare mx my) in H;
    destruct (Z.compare_spec ex ey); try discriminate H;
    destruct (Pos.compare_spec mx my); try discriminate H;
    subst; reflexivity.
Qed.

Lemma double_eqb_ltb_r (a b c : double) :
  double_eqb a b = true -> double_ltb c a = double_ltb c b.
Proof. apply SFeqb_SFltb_r. Qed.

Lemma SFeqb_SFltb_l (x y z : spec_float) : SFeqb x y = true -> SFltb x z = SFltb y z.
Proof.
  unfold SFeqb, SFltb, SFcompare. intro H.
  destruct x as [[ | ] | [ | ] | | [ | ] mx ex], y as [[ | ] | [ | ] | | [ | ] my ey];
    try discriminate H;
    try (destruct z as [sz | sz | | sz mz ez]; reflexivity).
  all: change (Pos.compare_cont Eq mx my) with (Pos.compare mx my) in H;
    destruct (Z.compare_spec ex ey); try discriminate H;
    destruct (Pos.compare_spec mx my); try discriminate H;
    subst; reflexivity.
Qed.

Lemma double_eqb_ltb_l (a b c : double) :
  double_eqb a b = true -> double_ltb a c = double_ltb b c.
Proof. apply SFeqb_SFltb_l. Qed.

(** Two doubles, neither a NaN, are equal or one is below the other. *)
Lemma double_ltb_total (a b : double) :
  double_isNaN a = false -> double_isNaN b = false ->
  double_ltb a b = false -> double_eqb a b = false -> double_ltb b a = true.
Proof.
  unfold double_isNaN, double_ltb, double_eqb, SFltb, SFeqb, SFcompare.
  destruct (Prim2SF a) as [[ | ] | [ | ] | | [ | ] mx ex],
           (Prim2SF b) as [[ | ] | [ | ] | | [ | ] my ey];
    cbn; try congruence.
  all: rewrite (Z.compare_antisym ex ey);
    change (Pos.compare_cont Eq my mx) with (Pos.compare my mx);
    change (Pos.compare_cont Eq mx my) with (Pos.compare mx my);
    rewrite (Pos.compare_antisym mx my);
    destruct (ex ?= ey)%Z; cbn; try congruence;
    destruct (mx ?= my)%positive; cbn; congruence.
Qed.

Lemma length_addPoint_le (p : XYDataPoint) (s : ExplicitPointSet) :
  List.length (addPoint p s) <= S (List.length s).
Proof.
  induction s as [ | q s IH ]; cbn; [ lia | ].
  destruct (double_eqb (pointX p) (pointX q)); cbn; [ lia | ].
  destruct (double_ltb (pointX p) (pointX q)); cbn; lia.
Qed.

Lemma In_addPoint (q p : XYDataPoint) (s : ExplicitPointSet) :
  In q (addPoint p s) -> q = p \/ In q s.
Proof.
  induction s as [ | r s IH ]; cbn [addPoint].
  - intros [<- | []]. left. reflexivity.
  - destruct (double_eqb (pointX p) (pointX r)).
    + intros [<- | Hin]; [ left; reflexivity | right; right; exact Hin ].
    + destruct (double_ltb (pointX p) (pointX r)).
      * intros [<- | Hin]; [ left; reflexivity | right; exact Hin ].
      * intros [<- | Hin]; [ right; left; reflexivity | ].
        destruct (IH Hin) as [-> | Hs]; [ left; reflexivity | right; right; exact Hs ].
Qed.

(** A sample whose x is not there yet is added to the samples. *)
Lemma addPoint_Permutation (p : XYDataPoint) (s : ExplicitPointSet) :
  forallb (fun q => negb (double_eqb (pointX p) (pointX q))) s = true ->
  Permutation (p :: s) (addPoint p s).
Proof.
  induction s as [ | q s IH ]; cbn [addPoint forallb]; [ intros _; apply Permutation_refl | ].
  intro Hfresh. apply andb_prop in Hfresh. destruct Hfresh as [Hq Hs].
  destruct (double_eqb (pointX p) (pointX q)); [ discriminate Hq | ].
  destruct (double_ltb (pointX p) (pointX q)); [ apply Permutation_refl | ].
  eapply Permutation_trans; [ apply perm_swap | ].
  apply perm_skip. apply IH. exact Hs.
Qed.

Lemma addPoint_ascendingX (p : XYDataPoint) (s : ExplicitPointSet) :
  ascendingX s -> ascendingX (addPoint p s).
Proof.
  induction s as [ | q s IH ]; intro Hs; [ exact I | ].
  cbn [addPoint].
  destruct (double_eqb (pointX p) (pointX q)) eqn:Eeq.
  - destruct s as [ | r s ]; [ exact I | ].
    destruct Hs as [Hrq Hs]. split; [ | exact Hs ].
    rewrite (double_eqb_ltb_r _ _ _ Eeq). exact Hrq.
  - destruct (double_ltb (pointX p) (pointX q)) eqn:Epq.
    + split; [ apply double_ltb_asym; exact Epq | exact Hs ].
    + destruct s as [ | r s ].
      * cbn. rewrite Epq. split; [ reflexivity | exact I ].
      * destruct Hs as [Hrq Hs]. specialize (IH Hs).
        cbn [addPoint] in IH |- *.
        destruct (double_eqb (pointX p) (pointX r)).
        -- split; [ exact Epq | exact IH ].
        -- destruct (double_ltb (pointX p) (pointX r)).
           ++ split; [ exact Epq | exact IH ].
           ++ split; [ exact Hrq | exact IH ].
Qed.

(** The x of a point set stay unique and ascending as points are added
    (no x being a NaN). *)
Lemma addPoint_strictlyAscendingX (p : XYDataPoint) (s : ExplicitPointSet) :
  double_isNaN (pointX p) = false ->
  Forall (fun q => double_isNaN (pointX q) = false) s ->
  strictlyAscendingX s -> strictlyAscendingX (addPoint p s).
Proof.
  intro Hp. induction s as [ | q s IH ]; intros Hnan Hs; [ exact I | ].
  inversion Hnan as [ | q' s'' Hq Hnan' ]; subst.
  cbn [addPoint].
  destruct (double_eqb (pointX p) (pointX q)) eqn:Eeq.
  - destruct s as [ | r s ]; [ exact I | ].
    destruct Hs as [Hqr Hs]. split; [ | exact Hs ].
    rewrite (double_eqb_ltb_l _ _ _ Eeq). exact Hqr.
  - destruct (double_ltb (pointX p) (pointX q)) eqn:Epq.
    + split; [ exact Epq | exact Hs ].
    + assert (Hqp : double_ltb (pointX q) (pointX p) = true)
        by (apply double_ltb_total; assumption).
      destruct s as [ | r s ].
      * cbn. split; [ exact Hqp | exact I ].
      * destruct Hs as [Hqr Hs]. specialize (IH Hnan' Hs).
        cbn [addPoint] in IH |- *.
        destruct (double_eqb (pointX p) (pointX r)).
        -- split; [ exact Hqp | exact IH ].
        -- destruct (double_ltb (pointX p) (pointX r)).
           ++ split; [ exact Hqp | exact IH ].
           ++ split; [ exact Hqr | exact IH ].
Qed.

Lemma length_addPoints_le (ps : list XYDataPoint) (s : ExplicitPointSet) :
  List.length (addPoints ps s) <= List.length ps + List.length s.
Proof.
  unfold addPoints. revert s. induction ps as [ | p ps IH ]; intro s; cbn.
  - lia.
  - specialize (IH (addPoint p s)). pose proof (length_addPoint_le p s). lia.
Qed.

Lemma In_addPoints (q : XYDataPoint) (ps : list XYDataPoint) (s : ExplicitPointSet) :
  In q (addPoints ps s) -> In q ps \/ In q s.
Proof.
  unfold addPoints. revert s. induction ps as [ | p ps IH ]; intro s; cbn.
  - intro Hin. right. exact Hin.
  - intro Hin. destruct (IH _ Hin) as [Hps | Hadd]; [ left; right; exact Hps | ].
    destruct (In_addPoint _ _ _ Hadd) as [-> | Hs];
      [ left; left; reflexivity | right; exact Hs ].
Qed.

Lemma addPoints_strictlyAscendingX (ps : list XYDataPoint) :
  forall s : ExplicitPointSet,
    Forall (fun p => double_isNaN (pointX p) = false) ps ->
    Forall (fun q => double_isNaN (pointX q) = false) s ->
    strictlyAscendingX s -> strictlyAscendingX (addPoints ps s).
Proof.
  unfold addPoints.
  induction ps as [ | p ps IH ]; intros s Hps Hnan Hs; cbn [fold_left];
    [ exact Hs | ].
  inversion Hps as [ | p' ps' Hp Hps' ]; subst.
  apply IH; [ exact Hps' | | apply addPoint_strictlyAscendingX; assumption ].
  apply Forall_forall. intros q Hq.
  destruct (In_addPoint _ _ _ Hq) as [-> | Hin]; [ exact Hp | ].
  rewrite Forall_forall in Hnan. apply Hnan. exact Hin.
Qed.

(** Samples with pairwise different x, none of them there yet, are all
    added. *)
Lemma addPoints_Permutation_onto (ps : list XYDataPoint) :
  forall s : ExplicitPointSet,
    distinctDoubles (map pointX ps) = true ->
    (forall p q, In p ps -> In q s -> double_eqb (pointX p) (pointX q) = false) ->
    Permutation (ps ++ s) (addPoints ps s).
Proof.
  unfold addPoints.
  induction ps as [ | p ps IH ]; intros s Hdistinct Hfresh; cbn [fold_left app].
  - apply Permutation_refl.
  - cbn [map distinctDoubles] in Hdistinct. apply andb_prop in Hdistinct.
    destruct Hdistinct as [Hp Hps]. rewrite forallb_forall in Hp.
    eapply Permutation_trans; [ | apply IH ].
    + eapply Permutation_trans; [ apply Permutation_middle | ].
      apply Permutation_app_head. apply addPoint_Permutation.
      apply forallb_forall. intros q Hq.
      rewrite (Hfresh p q (or_introl eq_refl) Hq). reflexivity.
    + exact Hps.
    + intros p' q Hp' Hq. destruct (In_addPoint _ _ _ Hq) as [-> | Hs].
      * specialize (Hp (pointX p') (in_map pointX _ _ Hp')).
        destruct (double_eqb (pointX p') (pointX p)); [ discriminate Hp | reflexivity ].
      * apply Hfresh; [ right; exact Hp' | exact Hs ].
Qed.

Lemma addPoints_Permutation (ps : list XYDataPoint) :
  distinctDoubles (map pointX ps) = true -> Permutation ps (addPoints ps []).
Proof.
  intro Hdistinct. rewrite <- (app_nil_r ps) at 1.
  apply addPoints_Permutation_onto; [ exact Hdistinct | intros p q _ [] ].
Qed.

Lemma length_addPoints (ps : list XYDataPoint) :
  distinctDoubles (map pointX ps) = true ->
  List.length (addPoints ps []) = List.length ps.
Proof.
  intro Hdistinct. symmetry. apply Permutation_length.
  apply addPoints_Permutation. exact Hdistinct.
Qed.

Lemma addPoints_ascendingX (ps : list XYDataPoint) (s : ExplicitPointSet) :
  ascendingX s -> ascendingX (addPoints ps s).
Proof.
  unfold addPoints. revert s. induction ps as [ | p ps IH ]; intros s Hs; cbn.
  - exact Hs.
  - apply IH. apply addPoint_ascendingX. exact Hs.
Qed.

(** ** The sweep *)

Lemma with_curves_eta (self : TotalPolicyCostCalculator) :
  withEmissionsTCurves (mEmissionsTCurves self)
    (withEmissionsQCurves (mEmissionsQCurves self) self) = self.
Proof. destruct self. reflexivity. Qed.

Section SweepFacts.

Context {curveOps : CurveOps}.
Context {Scenario : Type} {facade : ScenarioFacade Scenario}.

Variable ghg : string.
Variable numPoints : nat.
Variable start : Scenario.

Lemma setTrialTaxes_fold (fraction : double) (baseTaxes : RegionCurves)
    (w : World Scenario) :
  let policies :=
    map (fun rIter => mkGHGPolicy ghg (fst rIter) (currTaxes (snd rIter) fraction))
        baseTaxes in
  setTrialTaxes ghg fraction baseTaxes w
  = mkWorld (fold_left setTax policies (scenario w))
            (calls w ++ map CallSetTax policies) (mainLog w).
Proof.
  cbn zeta. unfold setTrialTaxes. revert w.
  induction baseTaxes as [ | rIter rest IH ]; intro w; cbn.
  - rewrite app_nil_r. destruct w; reflexivity.
  - rewrite IH. cbn. rewrite <- app_assoc. reflexivity.
Qed.

Lemma setTrialTaxes_trial (t : nat) (w : World Scenario) :
  setTrialTaxes ghg (trialFraction numPoints t) (baselineTaxes ghg start) w
  = mkWorld (withTrialTaxes ghg numPoints start t (scenario w))
            (calls w ++ map CallSetTax (trialPolicies ghg numPoints start t))
            (mainLog w).
Proof. apply setTrialTaxes_fold. Qed.

(** The loop of [runTrials] from trial [a] on, for [k] more trials. *)
Lemma runTrialsLoop_spec (k : nat) :
  forall (a : nat) (success : bool) (self : TotalPolicyCostCalculator)
         (w : World Scenario),
    a + k = numPoints ->
    mNumPoints self = numPoints ->
    mGHGName self = ghg ->
    List.length (mEmissionsQCurves self) = numPoints + 1 ->
    List.length (mEmissionsTCurves self) = numPoints + 1 ->
    nth_error (mEmissionsTCurves self) numPoints = Some (baselineTaxes ghg start) ->
    scenario w = scenarioAfter ghg numPoints start a ->
    exists (qCurves tCurves : list RegionCurves) (w' : World Scenario),
      runTrialsLoop (seq a k) success self w
      = Some (andb success (forallb (trialSolved ghg numPoints start) (seq a k)),
              withEmissionsTCurves tCurves (withEmissionsQCurves qCurves self), w')
      /\ scenario w' = scenarioAfter ghg numPoints start (a + k)
      /\ calls w' = calls w ++ flat_map (trialCalls ghg numPoints start) (seq a k)
      /\ mainLog w' = mainLog w ++ map trialLogLine (seq a k)
      /\ List.length qCurves = numPoints + 1
      /\ List.length tCurves = numPoints + 1
      /\ (forall t,
            nth_error qCurves t
            = if andb (a <=? t) (t <? a + k)
              then Some (getEmissionsQuantityCurves
                           (scenarioAfter ghg numPoints start (S t)) ghg)
              else nth_error (mEmissionsQCurves self) t)
      /\ (forall t,
            nth_error tCurves t
            = if andb (a <=? t) (t <? a + k)
              then Some (getEmissionsPriceCurves
                           (scenarioAfter ghg numPoints start (S t)) ghg)
              else nth_error (mEmissionsTCurves self) t).
Proof.
  induction k as [ | k IH ]; intros a success self w Hak HN Hghg HQ HT Hbase Hw.
  - exists (mEmissionsQCurves self), (mEmissionsTCurves self), w.
    cbn [seq runTrialsLoop forallb flat_map map].
    rewrite with_curves_eta, andb_true_r, !app_nil_r, Nat.add_0_r.
    repeat split; try assumption.
    + intro t. destruct (Nat.leb_spec a t), (Nat.ltb_spec t a);
        cbn [andb]; try reflexivity; lia.
    + intro t. destruct (Nat.leb_spec a t), (Nat.ltb_spec t a);
        cbn [andb]; try reflexivity; lia.
  - cbn [seq runTrialsLoop].
    rewrite HN, Hghg, Hbase.
    change (double_of_nat a / double_of_nat numPoints)%float
      with (trialFraction numPoints a).
    rewrite setTrialTaxes_trial.
    destruct (assignAt_Some a
                (getEmissionsQuantityCurves
                   (scenarioAfter ghg numPoints start (S a)) ghg)
                (mEmissionsQCurves self)) as (q1 & Eq1 & Lq1 & Nq1 & Oq1); [ lia | ].
    destruct (assignAt_Some a
                (getEmissionsPriceCurves
                   (scenarioAfter ghg numPoints start (S a)) ghg)
                (mEmissionsTCurves self)) as (t1 & Et1 & Lt1 & Nt1 & Ot1); [ lia | ].
    cbn [worldRun logLine worldGetEmissionsQuantityCurves worldGetEmissionsPriceCurves
         logCall fst snd scenario calls mainLog].
    rewrite Hw.
    change (snd (run (withTrialTaxes ghg numPoints start a
                        (scenarioAfter ghg numPoints start a))
                     RUN_ALL_PERIODS true (toString a)))
      with (scenarioAfter ghg numPoints start (S a)).
    rewrite Eq1. cbn [mEmissionsTCurves withEmissionsQCurves]. rewrite Et1.
    change (fst (run (withTrialTaxes ghg numPoints start a
                        (scenarioAfter ghg numPoints start a))
                     RUN_ALL_PERIODS true (toString a)))
      with (trialSolved ghg numPoints start a).
    match goal with
    | |- context [runTrialsLoop _ _ ?self1 ?w1] =>
        pose proof (IH (S a) (andb success (trialSolved ghg numPoints start a))
                       self1 w1) as HIH
    end.
    cbn [mNumPoints mGHGName mEmissionsQCurves mEmissionsTCurves
         withEmissionsTCurves withEmissionsQCurves
         logCall scenario calls mainLog] in HIH.
    assert (HbaseS : nth_error t1 numPoints = Some (baselineTaxes ghg start))
      by (rewrite Ot1 by lia; assumption).
    specialize (HIH ltac:(lia) HN Hghg ltac:(lia) ltac:(lia) HbaseS eq_refl).
    destruct HIH as (q2 & t2 & w2 & Erun & Hs2 & Hc2 & Hl2 & Lq2 & Lt2 & Nq2 & Nt2).
    exists q2, t2, w2.
    rewrite Erun.
    split; [ cbn [forallb]; rewrite andb_assoc; reflexivity | ].
    split; [ rewrite Hs2; f_equal; lia | ].
    split.
    { rewrite Hc2. unfold trialCalls at 2, trialRun. cbn [flat_map].
      rewrite <- !app_assoc. reflexivity. }
    split; [ rewrite Hl2; rewrite <- app_assoc; reflexivity | ].
    split; [ assumption | ]. split; [ assumption | ].
    split.
    + intro t. rewrite Nq2.
      destruct (Nat.eq_dec t a) as [-> | Hne].
      * replace (S a <=? a) with false by (symmetry; apply Nat.leb_gt; lia).
        rewrite Nat.leb_refl.
        replace (a <? a + S k) with true by (symmetry; apply Nat.ltb_lt; lia).
        cbn. assumption.
      * rewrite Oq1 by assumption.
        destruct (Nat.leb_spec (S a) t), (Nat.leb_spec a t),
                 (Nat.ltb_spec t (S a + k)), (Nat.ltb_spec t (a + S k));
          cbn [andb]; try reflexivity; lia.
    + intro t. rewrite Nt2.
      destruct (Nat.eq_dec t a) as [-> | Hne].
      * replace (S a <=? a) with false by (symmetry; apply Nat.leb_gt; lia).
        rewrite Nat.leb_refl.
        replace (a <? a + S k) with true by (symmetry; apply Nat.ltb_lt; lia).
        cbn. assumption.
      * rewrite Ot1 by assumption.
        destruct (Nat.leb_spec (S a) t), (Nat.leb_spec a t),
                 (Nat.ltb_spec t (S a + k)), (Nat.ltb_spec t (a + S k));
          cbn [andb]; try reflexivity; lia.
Qed.

End SweepFacts.

(** [mNumPoints + 1] in [unsigned int]. *)
Lemma trialCount_fits (self : TotalPolicyCostCalculator) :
  (Z.of_nat (mNumPoints self) + 1 < 2 ^ 32)%Z ->
  trialCount self = mNumPoints self + 1.
Proof.
  intro Hfits. unfold trialCount. rewrite Z.mod_small by lia. lia.
Qed.

Lemma trialCount_le (self : TotalPolicyCostCalculator) :
  trialCount self <= mNumPoints self + 1.
Proof.
  unfold trialCount.
  pose proof (Z.mod_le (Z.of_nat (mNumPoints self) + 1) (2 ^ 32)) as Hle.
  lia.
Qed.

Lemma trialCount_wraps (self : TotalPolicyCostCalculator) :
  ~ (Z.of_nat (mNumPoints self) + 1 < 2 ^ 32)%Z ->
  trialCount self <= mNumPoints self.
Proof.
  intro Hwraps. unfold trialCount.
  pose proof (Z.mod_pos_bound (Z.of_nat (mNumPoints self) + 1) (2 ^ 32)) as Hlt.
  lia.
Qed.

Section BaselineFacts.

Context {curveOps : CurveOps}.
Context {Scenario : Type} {facade : ScenarioFacade Scenario}.

Lemma nth_error_snoc_map {A : Type} (f : nat -> A) (n : nat) (last : A) (t : nat) :
  nth_error (map f (seq 0 n) ++ [last]) t
  = if t <? n then Some (f t) else if t =? n then Some last else None.
Proof.
  destruct (Nat.ltb_spec t n) as [Hlt | Hge].
  - rewrite nth_error_app1 by (rewrite length_map, length_seq; assumption).
    rewrite nth_error_map, nth_error_seq.
    destruct (Nat.ltb_spec t n); [ reflexivity | lia ].
  - rewrite nth_error_app2 by (rewrite length_map, length_seq; assumption).
    rewrite length_map, length_seq.
    destruct (Nat.eqb_spec t n) as [-> | Hne].
    + rewrite Nat.sub_diag. reflexivity.
    + destruct (t - n) as [ | d ] eqn:Hd; [ lia | ].
      cbn. destruct d; reflexivity.
Qed.

(** Lines 106-112 store the curves of the primary run at index
    [mNumPoints] and make no other call on the scenario. *)
Lemma storeBaseline_spec (self : TotalPolicyCostCalculator) (w : World Scenario) :
  (Z.of_nat (mNumPoints self) + 1 < 2 ^ 32)%Z ->
  exists qCurves tCurves : list RegionCurves,
    storeBaseline self w
    = Some (withEmissionsTCurves tCurves (withEmissionsQCurves qCurves self),
            mkWorld (scenario w)
                    (calls w ++ [CallGetEmissionsQuantityCurves (mGHGName self);
                                 CallGetEmissionsPriceCurves (mGHGName self)])
                    (mainLog w))
    /\ List.length qCurves = mNumPoints self + 1
    /\ List.length tCurves = mNumPoints self + 1
    /\ nth_error qCurves (mNumPoints self)
       = Some (getEmissionsQuantityCurves (scenario w) (mGHGName self))
    /\ nth_error tCurves (mNumPoints self)
       = Some (getEmissionsPriceCurves (scenario w) (mGHGName self)).
Proof.
  intro Hfits. unfold storeBaseline. rewrite (trialCount_fits self Hfits).
  cbn [worldGetEmissionsQuantityCurves worldGetEmissionsPriceCurves logCall
       fst snd scenario calls mainLog].
  destruct (assignAt_Some (mNumPoints self)
              (getEmissionsQuantityCurves (scenario w) (mGHGName self))
              (resize [] (mNumPoints self + 1) (mEmissionsQCurves self)))
    as (q1 & Eq1 & Lq1 & Nq1 & _); [ rewrite length_resize; lia | ].
  destruct (assignAt_Some (mNumPoints self)
              (getEmissionsPriceCurves (scenario w) (mGHGName self))
              (resize [] (mNumPoints self + 1) (mEmissionsTCurves self)))
    as (t1 & Et1 & Lt1 & Nt1 & _); [ rewrite length_resize; lia | ].
  rewrite Eq1, Et1. rewrite length_resize in Lq1, Lt1.
  exists q1, t1. unfold logCall. cbn [scenario calls mainLog].
  rewrite <- app_assoc. cbn [app].
  repeat split; assumption.
Qed.

(** When [mNumPoints + 1] wraps around, the vectors are emptied and
    line 111 writes past the end. *)
Lemma storeBaseline_wraps (self : TotalPolicyCostCalculator) (w : World Scenario) :
  ~ (Z.of_nat (mNumPoints self) + 1 < 2 ^ 32)%Z ->
  storeBaseline self w = None.
Proof.
  intro Hwraps. unfold storeBaseline, assignAt. rewrite length_resize.
  destruct (Nat.ltb_spec (mNumPoints self) (trialCount self)) as [Hlt | _];
    [ | reflexivity ].
  pose proof (trialCount_wraps self Hwraps). lia.
Qed.

(** The primary run is stored, then the trials run: whatever the
    calculator held before, it ends with the snapshots of the sweep, the
    conjunction of the trials' success flags, and the scenario left by
    the last trial. *)
Lemma sweep_spec (self : TotalPolicyCostCalculator) (w : World Scenario) :
  let ghg := mGHGName self in
  let numPoints := mNumPoints self in
  let start := scenario w in
  (Z.of_nat numPoints + 1 < 2 ^ 32)%Z ->
  exists (based : TotalPolicyCostCalculator) (w0 w' : World Scenario),
    storeBaseline self w = Some (based, w0)
    /\ scenario w0 = start
    /\ calls w0 = calls w ++ [CallGetEmissionsQuantityCurves ghg;
                              CallGetEmissionsPriceCurves ghg]
    /\ nth_error (mEmissionsQCurves based) numPoints
       = Some (baselineQuantities ghg start)
    /\ nth_error (mEmissionsTCurves based) numPoints
       = Some (baselineTaxes ghg start)
    /\ runTrials based w0
       = Some (sweepSolved ghg numPoints start,
               withEmissionsTCurves (sweepPriceCurves ghg numPoints start)
                 (withEmissionsQCurves (sweepQuantityCurves ghg numPoints start) self),
               w')
    /\ scenario w' = scenarioAfter ghg numPoints start numPoints
    /\ calls w' = calls w0 ++ flat_map (trialCalls ghg numPoints start) (seq 0 numPoints)
    /\ mainLog w' = mainLog w ++ map trialLogLine (seq 0 numPoints).
Proof.
  intros ghg numPoints start Hfits.
  destruct (storeBaseline_spec self w Hfits)
    as (q1 & t1 & Ebase & Lq1 & Lt1 & Nq1 & Nt1).
  fold ghg numPoints start in Ebase, Lq1, Lt1, Nq1, Nt1.
  set (based := withEmissionsTCurves t1 (withEmissionsQCurves q1 self)) in *.
  set (w0 := mkWorld start _ _) in *.
  destruct (runTrialsLoop_spec ghg numPoints start numPoints 0 true based w0)
    as (q2 & t2 & w' & Erun & Hs & Hc & Hl & Lq2 & Lt2 & Nq2 & Nt2);
    try reflexivity; try assumption.
  exists based, w0, w'.
  assert (Eq2 : q2 = sweepQuantityCurves ghg numPoints start).
  { apply nth_error_ext_eq. intro t. rewrite Nq2.
    unfold sweepQuantityCurves. rewrite nth_error_snoc_map.
    cbn [Nat.leb andb Nat.add mEmissionsQCurves based
         withEmissionsTCurves withEmissionsQCurves].
    destruct (Nat.ltb_spec t numPoints) as [Hlt | Hge]; [ reflexivity | ].
    destruct (Nat.eqb_spec t numPoints) as [-> | Hne]; [ assumption | ].
    apply nth_error_None. lia. }
  assert (Et2 : t2 = sweepPriceCurves ghg numPoints start).
  { apply nth_error_ext_eq. intro t. rewrite Nt2.
    unfold sweepPriceCurves. rewrite nth_error_snoc_map.
    cbn [Nat.leb andb Nat.add mEmissionsTCurves based
         withEmissionsTCurves withEmissionsQCurves].
    destruct (Nat.ltb_spec t numPoints) as [Hlt | Hge]; [ reflexivity | ].
    destruct (Nat.eqb_spec t numPoints) as [-> | Hne]; [ assumption | ].
    apply nth_error_None. lia. }
  subst q2 t2.
  repeat split; try assumption; try reflexivity.
Qed.

End BaselineFacts.

(** ** Period cost curves *)

Import StdMapFacts.

Lemma find_map_values {V W : Type} (g : string -> V -> W) (k : string) (m : StdMap.t V) :
  StdMap.find k (map (fun kv => (fst kv, g (fst kv) (snd kv))) m)
  = option_map (g k) (StdMap.find k m).
Proof.
  induction m as [ | [k1 v1] m IH ]; cbn; [ reflexivity | ].
  destruct (String.compare k k1) eqn:E; try reflexivity.
  - apply String.compare_eq_iff in E. subst k1. reflexivity.
  - exact IH.
Qed.

Lemma keys_map_values {V W : Type} (g : string -> V -> W) (m : StdMap.t V) :
  StdMap.keys (map (fun kv => (fst kv, g (fst kv) (snd kv))) m) = StdMap.keys m.
Proof.
  unfold StdMap.keys. rewrite map_map. reflexivity.
Qed.

Lemma isSome_true {A : Type} (o : option A) : isSome o = true -> exists a, o = Some a.
Proof. destruct o; [ eauto | discriminate ]. Qed.

Section PeriodCurveFacts.

Context {curveOps : CurveOps}.
Context {Scenario : Type} {facade : ScenarioFacade Scenario}.

Variable self : TotalPolicyCostCalculator.

(** What [trialsCoverRegions] checks. *)
Lemma trialsCoverRegions_inv :
  trialsCoverRegions self = true ->
  exists first,
    nth_error (mEmissionsQCurves self) 0 = Some first
    /\ StdMap.ordered first
    /\ forall trial region,
         trial < mNumPoints self + 1 -> In region (StdMap.keys first) ->
         exists q t,
           curveOf region (mEmissionsQCurves self) trial = Some q
           /\ curveOf region (mEmissionsTCurves self) trial = Some t.
Proof.
  unfold trialsCoverRegions.
  destruct (nth_error (mEmissionsQCurves self) 0) as [first | ]; [ | discriminate ].
  intro H. apply andb_true_iff in H. destruct H as [Hord Hall].
  exists first. split; [ reflexivity | ].
  split; [ apply ascendingKeys_sorted; assumption | ].
  intros trial region Htrial Hregion.
  rewrite forallb_forall in Hall.
  specialize (Hall trial ltac:(apply in_seq; lia)).
  rewrite forallb_forall in Hall. specialize (Hall region Hregion).
  apply andb_true_iff in Hall. destruct Hall as [Hq Ht].
  apply isSome_true in Hq, Ht. destruct Hq as [q Hq], Ht as [t Ht].
  exists q, t. split; assumption.
Qed.

Lemma trialPoints_spec (region : string) (first : Curve) (year : Z)
    (trials : list nat) :
  forall acc,
    (forall trial, In trial trials ->
       exists q t,
         curveOf region (mEmissionsQCurves self) trial = Some q
         /\ curveOf region (mEmissionsTCurves self) trial = Some t) ->
    exists pts,
      trialPoints self region first year trials acc = Some (addPoints pts acc)
      /\ Forall2 (pointOfTrial self region first year) trials pts.
Proof.
  induction trials as [ | trial rest IH ]; intros acc Hcov.
  - exists []. split; [ reflexivity | constructor ].
  - destruct (Hcov trial (or_introl eq_refl)) as (q & t & Hq & Ht).
    cbn [trialPoints]. unfold trialPoint. rewrite Hq, Ht.
    match goal with
    | |- context [addPoint ?p acc] =>
        destruct (IH (addPoint p acc)) as (pts & Epts & Hpts);
          [ intros; apply Hcov; right; assumption | ];
          exists (p :: pts)
    end.
    split; [ exact Epts | ].
    constructor; [ | assumption ].
    exists q, t. repeat split; assumption.
Qed.

Lemma periodCostCurve_spec (per : nat) (region : string) (first : Curve) :
  (forall trial, trial < trialCount self ->
     exists q t,
       curveOf region (mEmissionsQCurves self) trial = Some q
       /\ curveOf region (mEmissionsTCurves self) trial = Some t) ->
  exists pts,
    periodCostCurve self per region first
    = Some (setNumericalLabel per
              (setTitle (region ++ " period cost curve")
                        (PointSetCurve (addPoints pts []))))
    /\ Forall2 (pointOfTrial self region first (getper_to_yr getModeltime per))
               (seq 0 (trialCount self)) pts.
Proof.
  intro Hcov. unfold periodCostCurve.
  destruct (trialPoints_spec region first (getper_to_yr getModeltime per)
              (seq 0 (trialCount self)) []) as (pts & Epts & Hpts).
  { intros trial Hin. apply Hcov. apply in_seq in Hin. lia. }
  rewrite Epts. exists pts. split; [ reflexivity | assumption ].
Qed.

Lemma periodRegionLoop_spec (per : nat) (regions : list (string * Curve)) :
  forall costCurves,
    (forall rIter, In rIter regions ->
       periodCostCurve self per (fst rIter) (snd rIter) <> None) ->
    periodRegionLoop self per regions costCurves
    = Some (StdMap.insertAll (periodCostBindings self per regions) costCurves).
Proof.
  induction regions as [ | rIter rest IH ]; intros costCurves Hcov.
  - reflexivity.
  - cbn [periodRegionLoop].
    destruct (periodCostCurve self per (fst rIter) (snd rIter)) as [curve | ] eqn:E.
    + rewrite IH by (intros; apply Hcov; right; assumption).
      unfold StdMap.insertAll, periodCostBindings, periodCostCurveOr.
      cbn [map fold_left fst snd]. rewrite E. reflexivity.
    + exfalso. apply (Hcov rIter); [ left; reflexivity | assumption ].
Qed.

Lemma periodLoop_spec (first : RegionCurves) (periods : list nat) :
  forall periodCostCurves,
    nth_error (mEmissionsQCurves self) 0 = Some first ->
    (forall per rIter, In rIter first ->
       periodCostCurve self per (fst rIter) (snd rIter) <> None) ->
    (forall per, In per periods -> per < List.length periodCostCurves) ->
    NoDup periods ->
    exists result,
      periodLoop self periods periodCostCurves = Some result
      /\ List.length result = List.length periodCostCurves
      /\ forall i,
           nth_error result i
           = if existsb (Nat.eqb i) periods
             then Some (StdMap.insertAll (periodCostBindings self i first)
                                         (nth i periodCostCurves []))
             else nth_error periodCostCurves i.
Proof.
  induction periods as [ | per rest IH ]; intros pcs Hfirst Hcov Hlen Hnd.
  - exists pcs. repeat split. 
  - cbn [periodLoop]. rewrite Hfirst.
    assert (Hper : per < List.length pcs) by (apply Hlen; left; reflexivity).
    destruct (nth_error pcs per) as [old | ] eqn:Eold;
      [ | apply nth_error_None in Eold; lia ].
    rewrite periodRegionLoop_spec by (intros; apply Hcov; assumption).
    destruct (assignAt_Some (A := RegionCurves) per
                (StdMap.insertAll (periodCostBindings self per first) old) pcs Hper)
      as (pcs1 & E1 & L1 & N1 & O1).
    rewrite E1.
    inversion Hnd as [ | ? ? Hnotin Hnd' ]; subst.
    destruct (IH pcs1 Hfirst Hcov) as (result & Eres & Lres & Nres);
      [ intros p Hp; rewrite L1; apply Hlen; right; assumption | assumption | ].
    exists result. split; [ assumption | ]. split; [ congruence | ].
    intro i. rewrite Nres. cbn [existsb].
    destruct (Nat.eqb_spec i per) as [-> | Hne].
    + replace (existsb (Nat.eqb per) rest) with false.
      * cbn. rewrite N1. f_equal. f_equal.
        symmetry. apply nth_error_nth. assumption.
      * symmetry. apply not_true_is_false. intro Hex.
        apply existsb_exists in Hex. destruct Hex as (x & Hx & Heq).
        apply Nat.eqb_eq in Heq. subst x. contradiction.
    + cbn. rewrite (O1 i Hne).
      destruct (existsb (Nat.eqb i) rest); [ | reflexivity ].
      f_equal. f_equal.
      destruct (nth_error pcs i) as [x | ] eqn:Ex.
      * rewrite (nth_error_nth _ _ _ Ex).
        apply nth_error_nth. rewrite O1; assumption.
      * apply nth_error_None in Ex.
        rewrite !nth_overflow by lia. reflexivity.
Qed.

(** [createCostCurvesByPeriod] on maps that cover the regions: every
    period's map gets the cost curves of the regions of trial 0 stored
    over what it held. *)
Lemma createCostCurvesByPeriod_spec (first : RegionCurves) :
  trialsCoverRegions self = true ->
  nth_error (mEmissionsQCurves self) 0 = Some first ->
  createCostCurvesByPeriod self
  = Some (withPeriodCostCurves
            (map (fun per =>
                    StdMap.insertAll (periodCostBindings self per first)
                      (nth per (resize [] (getmaxper getModeltime)
                                       (mPeriodCostCurves self)) []))
                 (seq 0 (getmaxper getModeltime)))
            self).
Proof.
  intros Hcov Hfirst.
  destruct (trialsCoverRegions_inv Hcov) as (first' & Hfirst' & Hord & Hall).
  rewrite Hfirst in Hfirst'. injection Hfirst' as <-.
  unfold createCostCurvesByPeriod.
  destruct (periodLoop_spec first (seq 0 (getmaxper getModeltime))
              (resize [] (getmaxper getModeltime) (mPeriodCostCurves self)))
    as (result & Eres & Lres & Nres); try assumption.
  - intros per rIter Hin.
    destruct (periodCostCurve_spec per (fst rIter) (snd rIter)) as (pts & E & _).
    + intros trial Htrial. apply Hall; [ pose proof (trialCount_le self); lia | ].
      unfold StdMap.keys. apply in_map. assumption.
    + rewrite E. discriminate.
  - intros per Hin. rewrite length_resize. apply in_seq in Hin. lia.
  - apply seq_NoDup.
  - rewrite Eres. f_equal. f_equal.
    apply nth_error_ext_eq. intro i. rewrite Nres.
    rewrite length_resize in Lres.
    destruct (Nat.lt_ge_cases i (getmaxper getModeltime)) as [Hlt | Hge].
    + replace (existsb (Nat.eqb i) (seq 0 (getmaxper getModeltime))) with true.
      * rewrite nth_error_map, nth_error_seq.
        destruct (Nat.ltb_spec i (getmaxper getModeltime)); [ reflexivity | lia ].
      * symmetry. apply existsb_exists. exists i.
        split; [ apply in_seq; lia | apply Nat.eqb_refl ].
    + replace (existsb (Nat.eqb i) (seq 0 (getmaxper getModeltime))) with false.
      * rewrite nth_error_map, nth_error_seq.
        destruct (Nat.ltb_spec i (getmaxper getModeltime)); [ lia | ].
        cbn. apply nth_error_None. rewrite length_resize. assumption.
      * symmetry. apply not_true_is_false. intro Hex.
        apply existsb_exists in Hex. destruct Hex as (x & Hx & Heq).
        apply Nat.eqb_eq in Heq. subst x. apply in_seq in Hx. lia.
Qed.

End PeriodCurveFacts.

(** ** Regional costs *)

Lemma lastBinding_keyed {V : Type} (f : string -> V) (k : string) (rs : list string) :
  StdMap.lastBinding k (map (fun r => (r, f r)) rs)
  = if existsb (String.eqb k) rs then Some (f k) else None.
Proof.
  induction rs as [ | r rs IH ]; cbn; [ reflexivity | ].
  rewrite IH. destruct (existsb (String.eqb k) rs).
  - rewrite orb_true_r. reflexivity.
  - rewrite orb_false_r. destruct (String.eqb_spec k r) as [-> | _]; reflexivity.
Qed.

Lemma existsb_eqb_In (k : string) (rs : list string) :
  In k rs -> existsb (String.eqb k) rs = true.
Proof.
  intro H. apply existsb_exists. exists k. split; [ assumption | apply String.eqb_refl ].
Qed.

Lemma keys_keyed {V : Type} (f : string -> V) (rs : list string) :
  StdMap.keys (map (fun r => (r, f r)) rs) = rs.
Proof.
  unfold StdMap.keys. rewrite map_map. cbn. apply map_id.
Qed.

Section RegionalFacts.

Context {curveOps : CurveOps}.
Context {Scenario : Type} {facade : ScenarioFacade Scenario}.

Variable conf : Configuration.
Variable self : TotalPolicyCostCalculator.

Lemma periodsCoverRegions_inv :
  periodsCoverRegions self = true ->
  exists first,
    nth_error (mPeriodCostCurves self) 0 = Some first
    /\ forall region per,
         In region (filter notGlobal (StdMap.keys first)) ->
         per < getmaxper getModeltime ->
         exists curve, curveOf region (mPeriodCostCurves self) per = Some curve.
Proof.
  unfold periodsCoverRegions.
  destruct (nth_error (mPeriodCostCurves self) 0) as [first | ]; [ | discriminate ].
  intro H. exists first. split; [ reflexivity | ].
  intros region per Hregion Hper.
  rewrite forallb_forall in H. specialize (H region Hregion).
  rewrite forallb_forall in H. specialize (H per ltac:(apply in_seq; lia)).
  apply isSome_true. assumption.
Qed.

Lemma regionCostPoints_same (other : TotalPolicyCostCalculator) (region : string)
    (periods : list nat) :
  forall acc,
    mPeriodCostCurves other = mPeriodCostCurves self ->
    regionCostPoints other region periods acc
    = regionCostPoints self region periods acc.
Proof.
  induction periods as [ | per rest IH ]; intros acc Hsame; cbn [regionCostPoints].
  - reflexivity.
  - rewrite Hsame.
    destruct (curveOf region (mPeriodCostCurves self) per); [ | reflexivity ].
    apply IH. assumption.
Qed.

Lemma regionCostPoints_spec (region : string) (periods : list nat) :
  forall acc,
    (forall per, In per periods ->
       exists curve, curveOf region (mPeriodCostCurves self) per = Some curve) ->
    exists curves,
      Forall2 (fun per curve => curveOf region (mPeriodCostCurves self) per = Some curve)
              periods curves
      /\ regionCostPoints self region periods acc
         = Some (addPoints (map costPointOf (combine periods curves)) acc).
Proof.
  induction periods as [ | per rest IH ]; intros acc Hcov.
  - exists []. split; [ constructor | reflexivity ].
  - destruct (Hcov per (or_introl eq_refl)) as (curve & Hcurve).
    cbn [regionCostPoints]. rewrite Hcurve.
    match goal with
    | |- context [addPoint ?p acc] =>
        destruct (IH (addPoint p acc)) as (curves & Hall & E);
          [ intros; apply Hcov; right; assumption | ]
    end.
    exists (curve :: curves). split; [ constructor; assumption | ].
    rewrite E. reflexivity.
Qed.

Lemma regionLoop_spec (regions : list (string * Curve)) :
  forall other,
    mPeriodCostCurves other = mPeriodCostCurves self ->
    (forall region per,
       In region (filter notGlobal (StdMap.keys regions)) ->
       per < getmaxper getModeltime ->
       exists curve, curveOf region (mPeriodCostCurves self) per = Some curve) ->
    regionLoop (getDouble conf "discountRate" 0x1.999999999999ap-5%float)
               (getInt conf "discount-start-year" 2005) regions other
    = Some (fold_left (recordRegion conf self) (filter notGlobal (StdMap.keys regions)) other).
Proof.
  induction regions as [ | rNameIter rest IH ]; intros other Hsame Hcov.
  - reflexivity.
  - cbn [regionLoop StdMap.keys map filter]. unfold notGlobal at 1.
    fold (StdMap.keys rest).
    destruct (String.eqb (fst rNameIter) "global") eqn:Eg; cbn [negb].
    + apply IH; [ assumption | ].
      intros region per Hin. apply Hcov. cbn [StdMap.keys map filter].
      unfold notGlobal at 1. rewrite Eg. exact Hin.
    + assert (Hcov' : forall region per,
                In region (filter notGlobal (StdMap.keys rest)) ->
                per < getmaxper getModeltime ->
                exists curve, curveOf region (mPeriodCostCurves self) per = Some curve).
      { intros region per Hin. apply Hcov. cbn [StdMap.keys map filter].
        unfold notGlobal at 1. rewrite Eg. right. exact Hin. }
      assert (Hhere : forall per, In per (seq 0 (getmaxper getModeltime)) ->
                exists curve,
                  curveOf (fst rNameIter) (mPeriodCostCurves self) per = Some curve).
      { intros per Hper. apply Hcov; [ | apply in_seq in Hper; lia ].
        cbn [StdMap.keys map filter]. unfold notGlobal at 1. rewrite Eg.
        left. reflexivity. }
      rewrite (regionCostPoints_same other) by assumption.
      destruct (regionCostPoints_spec (fst rNameIter)
                  (seq 0 (getmaxper getModeltime)) [] Hhere) as (cs & _ & E).
      rewrite E. cbn [fold_left].
      rewrite IH; [ | cbn; assumption | assumption ].
      f_equal. f_equal.
      unfold recordRegion, regionalCostOf, discountedRegionalCostOf,
             regionalCostCurveOf, startYearOf, endYear.
      rewrite E. reflexivity.
Qed.

End RegionalFacts.

Section AggregatorFacts.

Context {curveOps : CurveOps}.
Context {Scenario : Type} {facade : ScenarioFacade Scenario}.

Variable conf : Configuration.
Variable self : TotalPolicyCostCalculator.

(** What the passes of the region loop leave in the calculator. *)
Lemma fold_recordRegion (rs : list string) :
  forall acc,
    let final := fold_left (recordRegion conf self) rs acc in
    mGlobalCost final = sumFrom (mGlobalCost acc) (map (regionalCostOf conf self) rs)
    /\ mGlobalDiscountedCost final
       = sumFrom (mGlobalDiscountedCost acc) (map (discountedRegionalCostOf conf self) rs)
    /\ mRegionalCostCurves final
       = StdMap.insertAll (map (fun r => (r, regionalCostCurveOf self r)) rs)
                          (mRegionalCostCurves acc)
    /\ mRegionalCosts final
       = StdMap.insertAll (map (fun r => (r, regionalCostOf conf self r)) rs)
                          (mRegionalCosts acc)
    /\ mRegionalDiscountedCosts final
       = StdMap.insertAll (map (fun r => (r, discountedRegionalCostOf conf self r)) rs)
                          (mRegionalDiscountedCosts acc)
    /\ mRanCosts final = mRanCosts acc
    /\ mGHGName final = mGHGName acc
    /\ mNumPoints final = mNumPoints acc
    /\ mEmissionsQCurves final = mEmissionsQCurves acc
    /\ mEmissionsTCurves final = mEmissionsTCurves acc
    /\ mPeriodCostCurves final = mPeriodCostCurves acc.
Proof.
  induction rs as [ | r rs IH ]; intro acc; cbn zeta.
  - cbn. repeat split.
  - cbn [fold_left map]. specialize (IH (recordRegion conf self acc r)).
    cbn zeta in IH.
    destruct IH as (H1 & H2 & H3 & H4 & H5 & H6 & H7 & H8 & H9 & H10 & H11).
    rewrite H1, H2, H3, H4, H5, H6, H7, H8, H9, H10, H11.
    repeat split.
Qed.

Lemma costedRegions_first (first : RegionCurves) :
  nth_error (mPeriodCostCurves self) 0 = Some first ->
  costedRegions self = filter notGlobal (StdMap.keys first).
Proof.
  unfold costedRegions. destruct (mPeriodCostCurves self) as [ | m l ]; cbn.
  - discriminate.
  - intro H. injection H as ->. reflexivity.
Qed.

Lemma createRegionalCostCurves_spec :
  periodsCoverRegions self = true ->
  createRegionalCostCurves conf self
  = Some (fold_left (recordRegion conf self) (costedRegions self) self).
Proof.
  intro Hcov.
  destruct (periodsCoverRegions_inv self Hcov) as (first & Hfirst & Hall).
  rewrite (costedRegions_first first Hfirst).
  unfold createRegionalCostCurves. rewrite Hfirst.
  apply regionLoop_spec; [ reflexivity | assumption ].
Qed.

End AggregatorFacts.

(* ================================================================== *)
(** * The specified properties *)

(** ** InputDriver *)

Lemma getInput_Some (aInputs : list IInput) (aInputName : string) (input : IInput) :
  getInput aInputs aInputName = Some input ->
  In input aInputs /\ inputName input = aInputName.
Proof.
  induction aInputs as [ | i rest IH ]; cbn; [ discriminate | ].
  destruct (String.eqb_spec (inputName i) aInputName) as [Heq | Hne].
  - intro H. injection H as <-. auto.
  - intro H. destruct (IH H). auto.
Qed.

Lemma getInput_None (aInputs : list IInput) (aInputName : string) :
  getInput aInputs aInputName = None ->
  forall input, In input aInputs -> inputName input <> aInputName.
Proof.
  induction aInputs as [ | i rest IH ]; cbn; [ contradiction | ].
  destruct (String.eqb_spec (inputName i) aInputName) as [Heq | Hne];
    [ discriminate | ].
  intros H input [<- | Hin]; [ assumption | apply IH; assumption ].
Qed.

(** C10: [InputDriver::calcEmissionsDriver] returns a value for every input
    vector, output vector and period: exactly 0.0 when no input of the
    vector is named [mInputName] (the lookup gave the null pointer, which
    is not dereferenced), and otherwise the physical demand in the period
    of the input the lookup found, an input of the vector with that name. *)
Theorem calcEmissionsDriver_total (self : InputDriver) (aInputs : list IInput)
    (aOutputs : list IOutput) (aPeriod : Z) :
  (getInput aInputs (mInputName self) = None
   /\ (forall input, In input aInputs -> inputName input <> mInputName self)
   /\ calcEmissionsDriver self aInputs aOutputs aPeriod = 0%float)
  \/ (exists input,
        getInput aInputs (mInputName self) = Some input
        /\ In input aInputs
        /\ inputName input = mInputName self
        /\ calcEmissionsDriver self aInputs aOutputs aPeriod
           = getPhysicalDemand input aPeriod).
Proof.
  unfold calcEmissionsDriver.
  destruct (getInput aInputs (mInputName self)) as [input | ] eqn:E.
  - right. exists input. destruct (getInput_Some _ _ _ E). auto.
  - left. split; [ reflexivity | ]. split; [ | reflexivity ].
    apply getInput_None. assumption.
Qed.

(** ** The policy-market check *)

Section MarketCheck.

Context {curveOps : CurveOps}.
Context {Scenario : Type} {facade : ScenarioFacade Scenario}.

Variable USE_XML_DB : bool.
Variable conf : Configuration.

(** C3: when the price of the policy market is the no-market sentinel,
    [calculateAbatementCostCurve] returns true, leaves the calculator as
    it was (no cost curve is produced), leaves the scenario as it was and
    calls nothing on it but the price query (no tax is set, no trial is
    run); with [mRanCosts] still false, [printOutput] sends nothing to any
    sink, for whatever scenario it is called with. *)
Theorem no_market_skips_everything (self : TotalPolicyCostCalculator)
    (w : World Scenario) (later : Scenario) :
  mRanCosts self = false ->
  double_eqb (getPrice (scenario w) (mGHGName self) "USA" 1) NO_MARKET_PRICE = true ->
  exists w',
    calculateAbatementCostCurve conf self w = Some (true, self, w')
    /\ scenario w' = scenario w
    /\ calls w' = calls w ++ [CallGetPrice (mGHGName self) "USA" 1]
    /\ filter isRun (calls w') = filter isRun (calls w)
    /\ filter isSetTax (calls w') = filter isSetTax (calls w)
    /\ printOutput USE_XML_DB self later = Some [].
Proof.
  intros Hran Hprice. unfold calculateAbatementCostCurve.
  cbn [worldGetPrice fst snd]. rewrite Hprice.
  eexists. split; [ reflexivity | ].
  cbn [logLine logCall scenario calls].
  repeat split.
  - rewrite filter_app. cbn. apply app_nil_r.
  - rewrite filter_app. cbn. apply app_nil_r.
  - unfold printOutput. rewrite Hran. reflexivity.
Qed.

End MarketCheck.

(** ** The whole computation *)

Lemma sameKeys_eq (a b : list string) : sameKeys a b = true -> a = b.
Proof.
  unfold sameKeys. destruct (list_eq_dec string_dec a b); [ auto | discriminate ].
Qed.

Lemma insertAll_self {V : Type} (b : StdMap.t V) :
  StdMap.ordered b -> StdMap.insertAll b b = b.
Proof.
  intro Hb. rewrite <- (insertAll_ordered_nil b Hb) at 2 3.
  apply insertAll_twice. constructor.
Qed.

Section PipelineFacts.

Context {curveOps : CurveOps}.
Context {Scenario : Type} {facade : ScenarioFacade Scenario}.

Variable conf : Configuration.
Variable self : TotalPolicyCostCalculator.
Variable start : Scenario.

Let ghg := mGHGName self.
Let numPoints := mNumPoints self.
Let regions := StdMap.keys (getEmissionsQuantityCurves start ghg).

Hypothesis wellFormed : sweepWellFormed ghg numPoints start = true.

Lemma regions_sorted : StronglySorted StdMap.key_lt regions.
Proof.
  unfold sweepWellFormed in wellFormed. apply andb_true_iff in wellFormed.
  apply ascendingKeys_sorted. apply wellFormed.
Qed.

Lemma sweep_maps (trial : nat) :
  trial < numPoints + 1 ->
  exists qm tm,
    nth_error (sweepQuantityCurves ghg numPoints start) trial = Some qm
    /\ nth_error (sweepPriceCurves ghg numPoints start) trial = Some tm
    /\ StdMap.keys qm = regions /\ StdMap.keys tm = regions.
Proof.
  intro Htrial.
  unfold sweepWellFormed in wellFormed. apply andb_true_iff in wellFormed.
  destruct wellFormed as [_ Hall]. rewrite forallb_forall in Hall.
  unfold sweepQuantityCurves, sweepPriceCurves. rewrite !nth_error_snoc_map.
  destruct (Nat.ltb_spec trial numPoints) as [Hlt | Hge].
  - specialize (Hall (S trial) ltac:(apply in_seq; lia)).
    apply andb_true_iff in Hall. destruct Hall as [Hq Ht].
    apply sameKeys_eq in Hq, Ht.
    do 2 eexists. repeat split; assumption.
  - replace trial with numPoints by lia. rewrite Nat.eqb_refl.
    specialize (Hall 0 ltac:(apply in_seq; lia)).
    apply andb_true_iff in Hall. destruct Hall as [Hq Ht].
    apply sameKeys_eq in Hq, Ht.
    do 2 eexists. repeat split; assumption.
Qed.

Lemma first_trial :
  nth_error (sweepQuantityCurves ghg numPoints start) 0
  = Some (firstTrialQuantities self start)
  /\ StdMap.keys (firstTrialQuantities self start) = regions.
Proof.
  destruct (sweep_maps 0 ltac:(lia)) as (qm & tm & Hq & _ & Hk & _).
  unfold firstTrialQuantities. fold ghg numPoints.
  rewrite (nth_error_nth _ _ _ Hq). split; assumption.
Qed.

Lemma swept_covers : trialsCoverRegions (swept self start) = true.
Proof.
  unfold trialsCoverRegions. cbn [swept mEmissionsQCurves mEmissionsTCurves mNumPoints
    withEmissionsTCurves withEmissionsQCurves].
  fold ghg numPoints.
  destruct first_trial as [Hfirst Hkeys]. rewrite Hfirst, Hkeys.
  apply andb_true_iff. split.
  { unfold sweepWellFormed in wellFormed. apply andb_true_iff in wellFormed.
    apply wellFormed. }
  apply forallb_forall. intros trial Htrial. apply in_seq in Htrial.
  apply forallb_forall. intros region Hregion.
  destruct (sweep_maps trial ltac:(lia)) as (qm & tm & Hq & Ht & Hkq & Hkt).
  unfold curveOf. rewrite Hq, Ht.
  destruct (find_key_In qm region) as [q Eq];
    [ unfold StdMap.ordered; rewrite Hkq; apply regions_sorted
    | rewrite Hkq; assumption | ].
  destruct (find_key_In tm region) as [t Et];
    [ unfold StdMap.ordered; rewrite Hkt; apply regions_sorted
    | rewrite Hkt; assumption | ].
  rewrite Eq, Et. reflexivity.
Qed.

Lemma keys_periodCostBindings (s : TotalPolicyCostCalculator) (per : nat)
    (first : RegionCurves) :
  StdMap.keys (periodCostBindings s per first) = StdMap.keys first.
Proof.
  unfold periodCostBindings.
  apply (keys_map_values (fun region c => periodCostCurveOr s per region c)).
Qed.

Lemma bindings_ordered (per : nat) :
  StdMap.ordered (periodCostBindings (swept self start) per
                    (firstTrialQuantities self start)).
Proof.
  unfold StdMap.ordered. rewrite keys_periodCostBindings.
  destruct first_trial as [_ Hkeys]. rewrite Hkeys. apply regions_sorted.
Qed.

Lemma nth_periodCostCurvesOf (per : nat) :
  per < getmaxper getModeltime ->
  nth_error (periodCostCurvesOf self start) per
  = Some (periodCostBindings (swept self start) per (firstTrialQuantities self start)).
Proof.
  intro Hper. unfold periodCostCurvesOf.
  rewrite nth_error_map, nth_error_seq.
  destruct (Nat.ltb_spec per (getmaxper getModeltime)); [ reflexivity | lia ].
Qed.

(** The period cost curves are built as [periodCostCurvesOf] tells when
    the calculator held none before, or held these very curves. *)
Lemma createCostCurvesByPeriod_swept :
  mPeriodCostCurves self = [] \/ mPeriodCostCurves self = periodCostCurvesOf self start ->
  createCostCurvesByPeriod (swept self start) = Some (costed self start).
Proof.
  intro Hprior. destruct first_trial as [Hfirst _].
  rewrite (createCostCurvesByPeriod_spec (swept self start)
             (firstTrialQuantities self start) swept_covers Hfirst).
  unfold costed. f_equal. f_equal. unfold periodCostCurvesOf.
  apply map_ext_in. intros per Hper. apply in_seq in Hper.
  cbn [swept mPeriodCostCurves withEmissionsTCurves withEmissionsQCurves].
  destruct Hprior as [-> | ->].
  - rewrite resize_nil. rewrite nth_repeat.
    apply insertAll_ordered_nil. apply bindings_ordered.
  - replace (resize [] (getmaxper getModeltime) (periodCostCurvesOf self start))
      with (periodCostCurvesOf self start).
    + rewrite (nth_error_nth _ _ _ (nth_periodCostCurvesOf per ltac:(lia))).
      apply insertAll_self. apply bindings_ordered.
    + rewrite <- (resize_same_length [] (periodCostCurvesOf self start)) at 1.
      f_equal. unfold periodCostCurvesOf. rewrite length_map, length_seq. reflexivity.
Qed.

Hypothesis somePeriod : 0 < getmaxper getModeltime.

Lemma costed_first :
  nth_error (mPeriodCostCurves (costed self start)) 0
  = Some (periodCostBindings (swept self start) 0 (firstTrialQuantities self start)).
Proof. apply nth_periodCostCurvesOf. assumption. Qed.

Lemma costedRegions_costed :
  costedRegions (costed self start) = filter notGlobal regions.
Proof.
  rewrite (costedRegions_first _ _ costed_first).
  rewrite keys_periodCostBindings.
  destruct first_trial as [_ Hkeys]. rewrite Hkeys. reflexivity.
Qed.

Lemma costed_covers : periodsCoverRegions (costed self start) = true.
Proof.
  unfold periodsCoverRegions. rewrite costed_first.
  apply forallb_forall. intros region Hregion.
  apply forallb_forall. intros per Hper. apply in_seq in Hper.
  unfold curveOf. cbn [costed mPeriodCostCurves withPeriodCostCurves].
  rewrite nth_periodCostCurvesOf by lia.
  destruct (find_key_In
              (periodCostBindings (swept self start) per
                 (firstTrialQuantities self start)) region) as [c Ec].
  - apply bindings_ordered.
  - rewrite keys_periodCostBindings.
    apply filter_In in Hregion. destruct Hregion as [Hin _].
    rewrite keys_periodCostBindings in Hin. exact Hin.
  - unfold RegionCurves in *. rewrite Ec. reflexivity.
Qed.

Lemma createRegionalCostCurves_costed :
  createRegionalCostCurves conf (costed self start) = Some (aggregated conf self start).
Proof. apply createRegionalCostCurves_spec. apply costed_covers. Qed.

End PipelineFacts.

Section Computation.

Context {curveOps : CurveOps}.
Context {Scenario : Type} {facade : ScenarioFacade Scenario}.

Variable conf : Configuration.

(** With an active policy market, [mNumPoints + 1] that does not wrap
    around, a scenario that reports one region set throughout, at least one
    period, and a calculator that holds no period cost curves (or those of
    an earlier computation from the same scenario), the computation
    returns, and returns [outcome]. *)
Lemma calculate_spec (self : TotalPolicyCostCalculator) (w : World Scenario) :
  double_eqb (getPrice (scenario w) (mGHGName self) "USA" 1) NO_MARKET_PRICE = false ->
  (Z.of_nat (mNumPoints self) + 1 < 2 ^ 32)%Z ->
  sweepWellFormed (mGHGName self) (mNumPoints self) (scenario w) = true ->
  0 < getmaxper getModeltime ->
  mPeriodCostCurves self = []
  \/ mPeriodCostCurves self = periodCostCurvesOf self (scenario w) ->
  exists w',
    calculateAbatementCostCurve conf self w
    = Some (sweepSolved (mGHGName self) (mNumPoints self) (scenario w),
            outcome conf self (scenario w), w')
    /\ scenario w'
       = scenarioAfter (mGHGName self) (mNumPoints self) (scenario w) (mNumPoints self)
    /\ calls w' = calls w ++ computationCalls self (scenario w)
    /\ mainLog w' = mainLog w ++ map trialLogLine (seq 0 (mNumPoints self)).
Proof.
  intros Hprice Hfits Hwf Hper Hprior.
  unfold calculateAbatementCostCurve. cbn [worldGetPrice fst snd]. rewrite Hprice.
  destruct (sweep_spec self (logCall (CallGetPrice (mGHGName self) "USA" 1) w) Hfits)
    as (based & w0 & w' & Ebase & Hs0 & Hc0 & _ & _ & Erun & Hs & Hc & Hl).
  cbn [logCall scenario calls mainLog] in *.
  rewrite Ebase. cbn [fst snd]. rewrite Erun. cbn [fst snd].
  fold (swept self (scenario w)).
  rewrite (createCostCurvesByPeriod_swept self (scenario w) Hwf Hprior).
  rewrite (createRegionalCostCurves_costed conf self (scenario w) Hwf Hper).
  exists w'. split; [ reflexivity | ]. split; [ assumption | ].
  split; [ | assumption ].
  rewrite Hc, Hc0. unfold computationCalls.
  rewrite <- !app_assoc. reflexivity.
Qed.

Lemma assignAt_length {A : Type} (i : nat) (x : A) (v v' : list A) :
  assignAt i x v = Some v' -> List.length v' = List.length v.
Proof.
  unfold assignAt. destruct (Nat.ltb_spec i (List.length v)) as [Hlt | _];
    [ | discriminate ].
  destruct (assignAt_Some i x v Hlt) as (v1 & E & L & _).
  unfold assignAt in E. destruct (Nat.ltb_spec i (List.length v)); [ | lia ].
  congruence.
Qed.

Lemma periodLoop_length (self : TotalPolicyCostCalculator) (periods : list nat) :
  forall pcs result,
    periodLoop self periods pcs = Some result ->
    List.length result = List.length pcs.
Proof.
  induction periods as [ | per rest IH ]; intros pcs result; cbn [periodLoop].
  - intro H. injection H as <-. reflexivity.
  - destruct (nth_error (mEmissionsQCurves self) 0); [ | discriminate ].
    destruct (nth_error pcs per); [ | discriminate ].
    destruct (periodRegionLoop self per _ _); [ | discriminate ].
    destruct (assignAt per _ pcs) as [pcs1 | ] eqn:E; [ | discriminate ].
    intro H. rewrite (IH _ _ H). eapply assignAt_length. exact E.
Qed.

(** The period cost curves built, when the builder returns: one map per
    period, the trial curves untouched. *)
Lemma createCostCurvesByPeriod_keeps (self byPeriod : TotalPolicyCostCalculator) :
  createCostCurvesByPeriod self = Some byPeriod ->
  List.length (mPeriodCostCurves byPeriod) = getmaxper getModeltime
  /\ mEmissionsQCurves byPeriod = mEmissionsQCurves self
  /\ mEmissionsTCurves byPeriod = mEmissionsTCurves self.
Proof.
  unfold createCostCurvesByPeriod.
  destruct (periodLoop self _ _) as [pcs | ] eqn:E; [ | discriminate ].
  intro H. injection H as <-. cbn [mPeriodCostCurves mEmissionsQCurves mEmissionsTCurves
    withPeriodCostCurves].
  rewrite (periodLoop_length _ _ _ _ E), length_resize. repeat split.
Qed.

Lemma regionLoop_keeps (discountRate : double) (startYear : Z)
    (regions : list (string * Curve)) :
  forall self regional,
    regionLoop discountRate startYear regions self = Some regional ->
    mPeriodCostCurves regional = mPeriodCostCurves self
    /\ mEmissionsQCurves regional = mEmissionsQCurves self
    /\ mEmissionsTCurves regional = mEmissionsTCurves self.
Proof.
  induction regions as [ | rNameIter rest IH ]; intros self regional; cbn [regionLoop].
  - intro H. injection H as <-. repeat split.
  - destruct (String.eqb (fst rNameIter) "global"); [ apply IH | ].
    destruct (regionCostPoints self _ _ _); [ | discriminate ].
    intro H. apply IH in H. exact H.
Qed.

(** The aggregator, when it returns: there is a period, and the curves it
    read are untouched. *)
Lemma createRegionalCostCurves_keeps (self regional : TotalPolicyCostCalculator) :
  createRegionalCostCurves conf self = Some regional ->
  0 < List.length (mPeriodCostCurves self)
  /\ mPeriodCostCurves regional = mPeriodCostCurves self
  /\ mEmissionsQCurves regional = mEmissionsQCurves self
  /\ mEmissionsTCurves regional = mEmissionsTCurves self.
Proof.
  unfold createRegionalCostCurves.
  destruct (nth_error (mPeriodCostCurves self) 0) as [first | ] eqn:E; [ | discriminate ].
  intro H. split; [ | eapply regionLoop_keeps; exact H ].
  destruct (mPeriodCostCurves self); [ discriminate | cbn; lia ].
Qed.

(** A computation that was not skipped, when it returns, whatever the
    calculator held before. *)
Lemma calculate_returns (self : TotalPolicyCostCalculator) (w : World Scenario)
    (success : bool) (final : TotalPolicyCostCalculator) (w' : World Scenario) :
  double_eqb (getPrice (scenario w) (mGHGName self) "USA" 1) NO_MARKET_PRICE = false ->
  calculateAbatementCostCurve conf self w = Some (success, final, w') ->
  success = sweepSolved (mGHGName self) (mNumPoints self) (scenario w)
  /\ mRanCosts final = true
  /\ calls w' = calls w ++ computationCalls self (scenario w)
  /\ mEmissionsQCurves final
     = sweepQuantityCurves (mGHGName self) (mNumPoints self) (scenario w)
  /\ mEmissionsTCurves final
     = sweepPriceCurves (mGHGName self) (mNumPoints self) (scenario w)
  /\ List.length (mPeriodCostCurves final) = getmaxper getModeltime
  /\ 0 < getmaxper getModeltime.
Proof.
  intros Hprice. unfold calculateAbatementCostCurve.
  cbn [worldGetPrice fst snd]. rewrite Hprice.
  destruct (Z_lt_dec (Z.of_nat (mNumPoints self) + 1) (2 ^ 32)) as [Hfits | Hwraps];
    [ | rewrite (storeBaseline_wraps self _ Hwraps); discriminate ].
  destruct (sweep_spec self (logCall (CallGetPrice (mGHGName self) "USA" 1) w) Hfits)
    as (based & w0 & w1 & Ebase & Hs0 & Hc0 & _ & _ & Erun & Hs & Hc & Hl).
  cbn [logCall scenario calls mainLog] in *.
  rewrite Ebase. cbn [fst snd]. rewrite Erun. cbn [fst snd].
  destruct (createCostCurvesByPeriod _) as [byPeriod | ] eqn:Eby; [ | discriminate ].
  destruct (createRegionalCostCurves conf byPeriod) as [regional | ] eqn:Ereg;
    [ | discriminate ].
  intro H. injection H as <- <- <-.
  destruct (createCostCurvesByPeriod_keeps _ _ Eby) as (Hlen & HQ & HT).
  destruct (createRegionalCostCurves_keeps _ _ Ereg) as (Hpos & HPC & HQ' & HT').
  cbn [withRanCosts mRanCosts mEmissionsQCurves mEmissionsTCurves mPeriodCostCurves].
  rewrite HQ', HT', HPC, HQ, HT, Hlen. rewrite Hlen in Hpos.
  repeat split; try assumption.
  rewrite Hc, Hc0. unfold computationCalls.
  rewrite <- !app_assoc. reflexivity.
Qed.

(** On an active policy market with [mNumPoints + 1] wrapping around
    (a configured count of -1 makes [mNumPoints] 4294967295), the
    computation faults at line 111 before any trial. *)
Lemma calculate_wraps (self : TotalPolicyCostCalculator) (w : World Scenario) :
  double_eqb (getPrice (scenario w) (mGHGName self) "USA" 1) NO_MARKET_PRICE = false ->
  ~ (Z.of_nat (mNumPoints self) + 1 < 2 ^ 32)%Z ->
  calculateAbatementCostCurve conf self w = None.
Proof.
  intros Hprice Hwraps. unfold calculateAbatementCostCurve.
  cbn [worldGetPrice fst snd]. rewrite Hprice.
  rewrite (storeBaseline_wraps self _ Hwraps). reflexivity.
Qed.

End Computation.

(** ** The trial sweep *)

Section SweepClaims.

Context {curveOps : CurveOps}.
Context {Scenario : Type} {facade : ScenarioFacade Scenario}.

Lemma filter_isRun_trialCalls (ghg : string) (numPoints : nat) (start : Scenario)
    (trials : list nat) :
  filter isRun (flat_map (trialCalls ghg numPoints start) trials)
  = map trialRun trials.
Proof.
  induction trials as [ | t rest IH ]; cbn [flat_map map]; [ reflexivity | ].
  rewrite filter_app, IH. unfold trialCalls at 1. rewrite filter_app.
  replace (filter isRun (map CallSetTax (trialPolicies ghg numPoints start t)))
    with (@nil Call).
  - reflexivity.
  - induction (trialPolicies ghg numPoints start t); cbn; auto.
Qed.

Lemma filter_isGetPrice_trialCalls (ghg : string) (numPoints : nat) (start : Scenario)
    (trials : list nat) :
  filter isGetPrice (flat_map (trialCalls ghg numPoints start) trials) = [].
Proof.
  induction trials as [ | t rest IH ]; cbn [flat_map]; [ reflexivity | ].
  rewrite filter_app, IH. unfold trialCalls. rewrite filter_app.
  replace (filter isGetPrice (map CallSetTax (trialPolicies ghg numPoints start t)))
    with (@nil Call).
  - reflexivity.
  - induction (trialPolicies ghg numPoints start t); cbn; auto.
Qed.

(** C2: for a trial count N with N + 1 representable as [unsigned int]
    (N < 4294967295; at that value lines 107-111 empty the vectors and
    write past their end): once the curves of the primary run are stored
    at trial index N (lines 106-112, which run nothing), [runTrials]
    makes, for each trial
    t = 0, ..., N-1 in this order, one [setTax] call per region of the
    baseline tax curves, whose tax for a period is the baseline tax of the
    region at the year of the period times t/N, then the run with file
    name ending t, then the two snapshots.  So the runs are exactly those
    tagged 0, ..., N-1, in increasing order, each on the scenario left by
    the trial before it once all the taxes of its own trial are set; there
    is no run for the baseline and its curves are still at index N after
    the sweep. *)
Theorem runTrials_runs_each_trial_once (self : TotalPolicyCostCalculator)
    (w : World Scenario) :
  let ghg := mGHGName self in
  let N := mNumPoints self in
  let start := scenario w in
  (Z.of_nat N + 1 < 2 ^ 32)%Z ->
  exists (based : TotalPolicyCostCalculator) (w0 : World Scenario)
         (success : bool) (after : TotalPolicyCostCalculator) (w' : World Scenario),
    storeBaseline self w = Some (based, w0)
    /\ nth_error (mEmissionsQCurves based) N = Some (getEmissionsQuantityCurves start ghg)
    /\ nth_error (mEmissionsTCurves based) N = Some (getEmissionsPriceCurves start ghg)
    /\ filter isRun (calls w0) = filter isRun (calls w)
    /\ runTrials based w0 = Some (success, after, w')
    /\ calls w'
       = calls w0
         ++ flat_map
              (fun t =>
                 map CallSetTax (trialPolicies ghg N start t)
                   ++ [CallRun RUN_ALL_PERIODS true (toString t);
                       CallGetEmissionsQuantityCurves ghg;
                       CallGetEmissionsPriceCurves ghg])
              (seq 0 N)
    /\ (forall t,
          trialPolicies ghg N start t
          = map (fun rIter =>
                   mkGHGPolicy ghg (fst rIter)
                     (map (fun per =>
                             (getY (snd rIter)
                                   (double_of_int (getper_to_yr getModeltime per))
                              * (double_of_nat t / double_of_nat N))%float)
                          (seq 0 (getmaxper getModeltime))))
                (getEmissionsPriceCurves start ghg))
    /\ filter isRun (calls w')
       = filter isRun (calls w)
         ++ map (fun t => CallRun RUN_ALL_PERIODS true (toString t)) (seq 0 N)
    /\ List.length (filter isRun (calls w')) = List.length (filter isRun (calls w)) + N
    /\ scenario w' = scenarioAfter ghg N start N
    /\ (forall t,
          scenarioAfter ghg N start (S t)
          = snd (run (fold_left setTax (trialPolicies ghg N start t)
                                (scenarioAfter ghg N start t))
                     RUN_ALL_PERIODS true (toString t)))
    /\ nth_error (mEmissionsQCurves after) N = Some (getEmissionsQuantityCurves start ghg)
    /\ nth_error (mEmissionsTCurves after) N = Some (getEmissionsPriceCurves start ghg).
Proof.
  intros ghg N start Hfits.
  destruct (sweep_spec self w Hfits)
    as (based & w0 & w' & Ebase & Hs0 & Hc0 & HbQ & HbT & Erun & Hs & Hc & Hl).
  fold ghg N start in Ebase, Hs0, Hc0, HbQ, HbT, Erun, Hs, Hc, Hl.
  assert (Hruns0 : filter isRun (calls w0) = filter isRun (calls w)).
  { rewrite Hc0, filter_app. cbn. apply app_nil_r. }
  assert (Hruns : filter isRun (calls w')
                  = filter isRun (calls w)
                    ++ map (fun t => CallRun RUN_ALL_PERIODS true (toString t)) (seq 0 N)).
  { rewrite Hc, filter_app, Hruns0, filter_isRun_trialCalls. reflexivity. }
  exists based, w0. do 2 eexists. exists w'.
  split; [ exact Ebase | ]. split; [ exact HbQ | ]. split; [ exact HbT | ].
  split; [ exact Hruns0 | ]. split; [ exact Erun | ].
  split; [ exact Hc | ]. split; [ reflexivity | ].
  split; [ exact Hruns | ].
  split; [ rewrite Hruns, length_app, length_map, length_seq; reflexivity | ].
  split; [ exact Hs | ]. split; [ reflexivity | ].
  cbn [mEmissionsQCurves mEmissionsTCurves withEmissionsTCurves withEmissionsQCurves].
  unfold sweepQuantityCurves, sweepPriceCurves. rewrite !nth_error_snoc_map.
  rewrite Nat.ltb_irrefl, Nat.eqb_refl. split; reflexivity.
Qed.

End SweepClaims.

(** ** Output *)

Section OutputFacts.

Context {curveOps : CurveOps}.
Context {Scenario : Type} {facade : ScenarioFacade Scenario}.

Variable USE_XML_DB : bool.

Lemma allPeriodCostCurvesXML_Some (self : TotalPolicyCostCalculator)
    (periods : list nat) :
  (forall per, In per periods -> per < List.length (mPeriodCostCurves self)) ->
  exists xml, allPeriodCostCurvesXML self periods = Some xml.
Proof.
  induction periods as [ | per rest IH ]; intro Hlen; cbn [allPeriodCostCurvesXML].
  - eauto.
  - unfold periodCostCurvesXML.
    destruct (nth_error (mPeriodCostCurves self) per) as [m | ] eqn:E.
    + destruct IH as [xml Exml]; [ intros; apply Hlen; right; assumption | ].
      rewrite Exml. eauto.
    + apply nth_error_None in E.
      specialize (Hlen per (or_introl eq_refl)). lia.
Qed.



End OutputFacts.

(** ** What a computation leaves in the calculator *)

Section OutcomeFacts.

Context {curveOps : CurveOps}.
Context {Scenario : Type} {facade : ScenarioFacade Scenario}.

Variable conf : Configuration.
Variable self : TotalPolicyCostCalculator.
Variable start : Scenario.

Lemma outcome_fields :
  mRanCosts (outcome conf self start) = true
  /\ mGHGName (outcome conf self start) = mGHGName self
  /\ mNumPoints (outcome conf self start) = mNumPoints self
  /\ mEmissionsQCurves (outcome conf self start)
     = sweepQuantityCurves (mGHGName self) (mNumPoints self) start
  /\ mEmissionsTCurves (outcome conf self start)
     = sweepPriceCurves (mGHGName self) (mNumPoints self) start
  /\ mPeriodCostCurves (outcome conf self start) = periodCostCurvesOf self start.
Proof.
  unfold outcome, aggregated.
  destruct (fold_recordRegion conf (costed self start)
              (costedRegions (costed self start)) (costed self start))
    as (_ & _ & _ & _ & _ & _ & H7 & H8 & H9 & H10 & H11).
  cbn [withRanCosts mRanCosts mGHGName mNumPoints mEmissionsQCurves
       mEmissionsTCurves mPeriodCostCurves].
  rewrite H7, H8, H9, H10, H11. repeat split.
Qed.

Lemma outcome_costs :
  let rs := costedRegions (costed self start) in
  mGlobalCost (outcome conf self start)
  = sumFrom (mGlobalCost self) (map (regionalCostOf conf (costed self start)) rs)
  /\ mGlobalDiscountedCost (outcome conf self start)
     = sumFrom (mGlobalDiscountedCost self)
               (map (discountedRegionalCostOf conf (costed self start)) rs)
  /\ mRegionalCostCurves (outcome conf self start)
     = StdMap.insertAll (map (fun r => (r, regionalCostCurveOf (costed self start) r)) rs)
                        (mRegionalCostCurves self)
  /\ mRegionalCosts (outcome conf self start)
     = StdMap.insertAll (map (fun r => (r, regionalCostOf conf (costed self start) r)) rs)
                        (mRegionalCosts self)
  /\ mRegionalDiscountedCosts (outcome conf self start)
     = StdMap.insertAll
         (map (fun r => (r, discountedRegionalCostOf conf (costed self start) r)) rs)
         (mRegionalDiscountedCosts self).
Proof.
  cbn zeta. unfold outcome, aggregated.
  destruct (fold_recordRegion conf (costed self start)
              (costedRegions (costed self start)) (costed self start))
    as (H1 & H2 & H3 & H4 & H5 & _).
  cbn [withRanCosts mGlobalCost mGlobalDiscountedCost mRegionalCostCurves
       mRegionalCosts mRegionalDiscountedCosts].
  rewrite H1, H2, H3, H4, H5. repeat split.
Qed.

End OutcomeFacts.

(** ** Failed trials and the completion flag *)

Section ComputationClaims.

Context {curveOps : CurveOps}.
Context {Scenario : Type} {facade : ScenarioFacade Scenario}.

Variable USE_XML_DB : bool.
Variable conf : Configuration.

(** C4: with an active policy market, whatever the success flags of the
    trials are: whenever the computation returns, it has run every trial
    0, ..., N-1 (a trial that fails is followed by the next one), it holds
    at each trial's index the quantity and price curves the scenario
    reported after that trial, failed or not, and it returns the
    conjunction of the success flags of all trials.  And it does return,
    from a calculator holding no period cost curves, when N + 1 is
    representable as [unsigned int] (N < 4294967295; otherwise lines
    107-111 write past the end of an emptied vector) and the scenario
    reports one region set throughout and has a period (otherwise the
    curve builders after the sweep may fault). *)
Theorem failed_trials_do_not_stop_the_sweep (self : TotalPolicyCostCalculator)
    (w : World Scenario) :
  let ghg := mGHGName self in
  let N := mNumPoints self in
  let start := scenario w in
  double_eqb (getPrice start ghg "USA" 1) NO_MARKET_PRICE = false ->
  (forall success final w',
     calculateAbatementCostCurve conf self w = Some (success, final, w') ->
     success = forallb (trialSolved ghg N start) (seq 0 N)
     /\ filter isRun (calls w')
        = filter isRun (calls w)
          ++ map (fun t => CallRun RUN_ALL_PERIODS true (toString t)) (seq 0 N)
     /\ forall t, t < N ->
          nth_error (mEmissionsQCurves final) t
          = Some (getEmissionsQuantityCurves (scenarioAfter ghg N start (S t)) ghg)
          /\ nth_error (mEmissionsTCurves final) t
             = Some (getEmissionsPriceCurves (scenarioAfter ghg N start (S t)) ghg))
  /\ ((Z.of_nat N + 1 < 2 ^ 32)%Z ->
      sweepWellFormed ghg N start = true ->
      0 < getmaxper getModeltime ->
      mPeriodCostCurves self = [] ->
      exists final w',
        calculateAbatementCostCurve conf self w
        = Some (forallb (trialSolved ghg N start) (seq 0 N), final, w')).
Proof.
  intros ghg N start Hprice. split.
  - intros success final w' Ecalc.
    destruct (calculate_returns conf self w success final w' Hprice Ecalc)
      as (Hsuccess & _ & Hcalls & HQ & HT & _).
    split; [ exact Hsuccess | ]. split.
    + rewrite Hcalls, filter_app. unfold computationCalls. cbn [filter isRun].
      rewrite filter_isRun_trialCalls. reflexivity.
    + intros t Ht. rewrite HQ, HT. unfold sweepQuantityCurves, sweepPriceCurves.
      rewrite !nth_error_snoc_map.
      fold ghg N. destruct (Nat.ltb_spec t N); [ split; reflexivity | lia ].
  - intros Hfits Hwf Hper Hfresh.
    destruct (calculate_spec conf self w Hprice Hfits Hwf Hper (or_introl Hfresh))
      as (w' & Ecalc & _).
    exists (outcome conf self start), w'. exact Ecalc.
Qed.


(** C9: the check of the policy market is one price query, for the gas
    in region "USA" at period 1.  The computation is skipped exactly when
    that price is the no-market sentinel, and no other price is queried.
    When that price is not the sentinel the computation is performed:
    whenever it returns, it returns the conjunction of the trials' flags
    with [mRanCosts] set, having made the calls of the snapshots of the
    primary run and of every trial, and it holds the curves of the sweep
    and one map of cost curves per period; and it does return what the
    sweep and the curve builders compute when N + 1 is representable as
    [unsigned int], the scenario reports one region set throughout and has
    a period, and the calculator holds no period cost curves.  So of two
    scenarios with the same price there, both are skipped or both are
    performed, whatever else they hold. *)
Theorem market_check_reads_usa_period_1 (self : TotalPolicyCostCalculator)
    (w1 w2 : World Scenario) :
  getPrice (scenario w1) (mGHGName self) "USA" 1
  = getPrice (scenario w2) (mGHGName self) "USA" 1 ->
  (skipsCostCurves conf self w1 <-> skipsCostCurves conf self w2)
  /\ (skipsCostCurves conf self w1
      <-> double_eqb (getPrice (scenario w1) (mGHGName self) "USA" 1)
                     NO_MARKET_PRICE = true)
  /\ (forall success final w',
        calculateAbatementCostCurve conf self w1 = Some (success, final, w') ->
        filter isGetPrice (calls w')
        = filter isGetPrice (calls w1) ++ [CallGetPrice (mGHGName self) "USA" 1])
  /\ (double_eqb (getPrice (scenario w1) (mGHGName self) "USA" 1)
                 NO_MARKET_PRICE = false ->
      forall w, w = w1 \/ w = w2 ->
        (forall success final w',
           calculateAbatementCostCurve conf self w = Some (success, final, w') ->
           success = sweepSolved (mGHGName self) (mNumPoints self) (scenario w)
           /\ mRanCosts final = true
           /\ calls w' = calls w ++ computationCalls self (scenario w)
           /\ mEmissionsQCurves final
              = sweepQuantityCurves (mGHGName self) (mNumPoints self) (scenario w)
           /\ mEmissionsTCurves final
              = sweepPriceCurves (mGHGName self) (mNumPoints self) (scenario w)
           /\ List.length (mPeriodCostCurves final) = getmaxper getModeltime)
        /\ ((Z.of_nat (mNumPoints self) + 1 < 2 ^ 32)%Z ->
            sweepWellFormed (mGHGName self) (mNumPoints self) (scenario w) = true ->
            0 < getmaxper getModeltime ->
            mPeriodCostCurves self = [] ->
            performsCostCurves conf self w)).
Proof.
  assert (Hskip : forall w : World Scenario,
            skipsCostCurves conf self w
            <-> double_eqb (getPrice (scenario w) (mGHGName self) "USA" 1)
                           NO_MARKET_PRICE = true).
  { intro w. split.
    - intros (w' & Ecalc & Hcalls).
      destruct (double_eqb (getPrice (scenario w) (mGHGName self) "USA" 1)
                           NO_MARKET_PRICE) eqn:E; [ reflexivity | exfalso ].
      destruct (calculate_returns conf self w true self w' E Ecalc) as (_ & _ & Hc & _).
      rewrite Hc in Hcalls. apply app_inv_head in Hcalls.
      unfold computationCalls in Hcalls. discriminate.
    - intro E. unfold skipsCostCurves, calculateAbatementCostCurve.
      cbn [worldGetPrice fst snd]. rewrite E.
      eexists. split; reflexivity. }
  intro Hsame. split; [ | split; [ | split ] ].
  - rewrite !Hskip, Hsame. reflexivity.
  - apply Hskip.
  - intros success final w' Ecalc.
    destruct (double_eqb (getPrice (scenario w1) (mGHGName self) "USA" 1)
                         NO_MARKET_PRICE) eqn:E.
    + unfold calculateAbatementCostCurve in Ecalc.
      cbn [worldGetPrice fst snd] in Ecalc. rewrite E in Ecalc.
      injection Ecalc as _ _ <-. cbn [logLine logCall calls].
      rewrite filter_app. reflexivity.
    + destruct (calculate_returns conf self w1 success final w' E Ecalc)
      as (_ & _ & Hc & _).
      rewrite Hc, filter_app. unfold computationCalls. cbn [filter isGetPrice].
      rewrite filter_isGetPrice_trialCalls. reflexivity.
  - intros Hactive w Hw.
    assert (Hprice : double_eqb (getPrice (scenario w) (mGHGName self) "USA" 1)
                                NO_MARKET_PRICE = false).
    { destruct Hw as [-> | ->]; [ | rewrite <- Hsame ]; exact Hactive. }
    split.
    + intros success final w' Ecalc.
      destruct (calculate_returns conf self w success final w' Hprice Ecalc)
        as (H1 & H2 & H3 & H4 & H5 & H6 & _).
      repeat split; assumption.
    + intros Hfits Hwf Hper Hfresh.
      destruct (calculate_spec conf self w Hprice Hfits Hwf Hper (or_introl Hfresh))
        as (w' & Ecalc & _ & Hcalls & _).
      exists w'. split; assumption.
Qed.

End ComputationClaims.

(** ** The period cost curves *)

Section PeriodCurveClaims.

Context {curveOps : CurveOps}.
Context {Scenario : Type} {facade : ScenarioFacade Scenario}.

Lemma pointOfTrial_reductions (self : TotalPolicyCostCalculator) (region : string)
    (first : Curve) (year : Z) (trials : list nat) (pts : list XYDataPoint) :
  Forall2 (pointOfTrial self region first year) trials pts ->
  map pointX pts = map (reductionOf self region first year) trials.
Proof.
  induction 1 as [ | trial p trials pts (q & t & Hq & Ht & Hx & _) _ IH ];
    [ reflexivity | ].
  cbn [map]. rewrite IH. f_equal.
  unfold reductionOf, trialPoint. rewrite Hq, Ht. exact Hx.
Qed.

(** C1 (amended): with N + 1 representable as [unsigned int] (otherwise
    the loop of line 199 reads no trial), for every period p and every
    region r of the quantity map of trial 0 (the zero-tax trial, whose
    regions every trial's maps cover), [createCostCurvesByPeriod] stores
    for (p, r) the curve that results from adding, for t = 0, ..., N in
    this order, the point of trial t: x = trial 0's quantity of r at the
    year of p minus trial t's quantity, y = trial t's tax.  In the curve
    no sample is followed by one with a smaller x, whatever the order of
    insertion; every sample is the point of a trial; there are at most
    N+1 samples, and they are exactly the N+1 points when the trials
    reach pairwise different reductions (a point whose x is already in
    the curve takes the place of the sample that has it). *)
Theorem period_cost_curves_built (self : TotalPolicyCostCalculator) :
  (Z.of_nat (mNumPoints self) + 1 < 2 ^ 32)%Z ->
  trialsCoverRegions self = true ->
  exists after,
    createCostCurvesByPeriod self = Some after
    /\ List.length (mPeriodCostCurves after) = getmaxper getModeltime
    /\ forall per region first,
         per < getmaxper getModeltime ->
         curveOf region (mEmissionsQCurves self) 0 = Some first ->
         exists curve pts,
           curveOf region (mPeriodCostCurves after) per = Some curve
           /\ Forall2 (pointOfTrial self region first (getper_to_yr getModeltime per))
                      (seq 0 (mNumPoints self + 1)) pts
           /\ curvePoints curve = addPoints pts []
           /\ ascendingX (curvePoints curve)
           /\ (forall p, In p (curvePoints curve) -> In p pts)
           /\ List.length (curvePoints curve) <= mNumPoints self + 1
           /\ (distinctReductions self per region first = true ->
               Permutation pts (curvePoints curve)
               /\ List.length (curvePoints curve) = mNumPoints self + 1).
Proof.
  intros Hfits Hcov.
  destruct (trialsCoverRegions_inv self Hcov) as (firsts & Hfirsts & Hord & Hall).
  rewrite (createCostCurvesByPeriod_spec self firsts Hcov Hfirsts).
  eexists. split; [ reflexivity | ].
  cbn [mPeriodCostCurves withPeriodCostCurves].
  split; [ rewrite length_map, length_seq; reflexivity | ].
  intros per region first Hper Hfirst.
  unfold curveOf in Hfirst. rewrite Hfirsts in Hfirst.
  assert (Hin : In region (StdMap.keys firsts)).
  { apply find_Some_In in Hfirst. unfold StdMap.keys.
    apply in_map_iff. exists (region, first). auto. }
  destruct (periodCostCurve_spec self per region first) as (pts & Ecurve & Hpts).
  { intros trial Htrial. apply Hall; [ pose proof (trialCount_le self); lia | assumption ]. }
  assert (Hlen : List.length pts = mNumPoints self + 1).
  { apply Forall2_length in Hpts. rewrite length_seq in Hpts.
    rewrite <- Hpts. apply trialCount_fits. exact Hfits. }
  exists (setNumericalLabel per
            (setTitle (region ++ " period cost curve")
                      (PointSetCurve (addPoints pts [])))), pts.
  split.
  - unfold curveOf. rewrite nth_error_map, nth_error_seq.
    destruct (Nat.ltb_spec per (getmaxper getModeltime)); [ | lia ].
    cbn [option_map Nat.add]. rewrite find_insertAll.
    rewrite lastBinding_ordered.
    + unfold periodCostBindings.
      rewrite (find_map_values (fun r c => periodCostCurveOr self per r c)).
      unfold RegionCurves in *. rewrite Hfirst. cbn [option_map].
      unfold periodCostCurveOr. rewrite Ecurve. reflexivity.
    + unfold StdMap.ordered, periodCostBindings.
      rewrite (keys_map_values (fun r c => periodCostCurveOr self per r c)).
      exact Hord.
  - split; [ rewrite <- (trialCount_fits self Hfits); exact Hpts | ].
    cbn [curvePoints setNumericalLabel setTitle PointSetCurve].
    split; [ reflexivity | ].
    split; [ apply addPoints_ascendingX; exact I | ].
    split.
    { intros p Hp. destruct (In_addPoints _ _ _ Hp) as [Hps | []]. exact Hps. }
    split.
    { pose proof (length_addPoints_le pts []) as Hle. cbn [List.length] in Hle. lia. }
    intro Hdistinct. unfold distinctReductions in Hdistinct.
    rewrite <- (pointOfTrial_reductions _ _ _ _ _ _ Hpts) in Hdistinct.
    split; [ apply addPoints_Permutation; exact Hdistinct | ].
    rewrite (length_addPoints pts Hdistinct). exact Hlen.
Qed.

End PeriodCurveClaims.

(** ** The aggregator *)

Lemma map_pointX_costPoints {curveOps : CurveOps} {Scenario : Type}
    {facade : ScenarioFacade Scenario} (periods : list nat) (curves : list Curve) :
  List.length curves = List.length periods ->
  map pointX (map costPointOf (combine periods curves))
  = map (fun per => double_of_int (getper_to_yr getModeltime per)) periods.
Proof.
  revert curves. induction periods as [ | per rest IH ]; intros [ | c cs ] Hlen;
    cbn in *; try discriminate; try reflexivity.
  f_equal. apply IH. lia.
Qed.

Lemma global_not_costed (ks : list string) : ~ In "global" (filter notGlobal ks).
Proof.
  intro H. apply filter_In in H. destruct H as [_ H]. discriminate.
Qed.

Section AggregatorClaims.

Context {curveOps : CurveOps}.
Context {Scenario : Type} {facade : ScenarioFacade Scenario}.

Variable conf : Configuration.

(** C5: for every region the aggregator processes (a region of period 0's
    map other than "global"), the cost of a period is the integral of the
    period's cost curve of the region from 0 to [DBL_MAX], the largest
    double, standing for an unbounded upper limit (cutting it down to the
    largest reduction of the curve is left to [getIntegral]); the costs
    of the periods, each at the calendar year of its period, make the
    year-to-cost curve of the region, one point per period (the periods
    having pairwise different calendar years; points of one year would
    share one sample of the curve); the regional
    cost is the integral of that curve from the configured start year
    (default 2005) to the end year of the model, and the discounted
    regional cost is its discounted value over the same bounds at the
    configured discount rate (default 0.05). *)
Theorem regional_costs_from_period_curves (self : TotalPolicyCostCalculator) :
  periodsCoverRegions self = true ->
  exists after,
    createRegionalCostCurves conf self = Some after
    /\ forall region,
         In region (costedRegions self) ->
         exists (periodCurves : list Curve) (yearCurve : Curve),
           Forall2 (fun per curve =>
                      curveOf region (mPeriodCostCurves self) per = Some curve)
                   (seq 0 (getmaxper getModeltime)) periodCurves
           /\ yearCurve
              = setTitle region
                  (PointSetCurve
                     (addPoints
                        (map (fun pc =>
                                mkXYDataPoint
                                  (double_of_int (getper_to_yr getModeltime (fst pc)))
                                  (getIntegral (snd pc) 0%float DBL_MAX))
                             (combine (seq 0 (getmaxper getModeltime)) periodCurves))
                        []))
           /\ (distinctYears = true ->
               List.length (curvePoints yearCurve) = getmaxper getModeltime
               /\ Permutation
                    (map pointX (curvePoints yearCurve))
                    (map (fun per => double_of_int (getper_to_yr getModeltime per))
                         (seq 0 (getmaxper getModeltime))))
           /\ StdMap.find region (mRegionalCostCurves after) = Some yearCurve
           /\ StdMap.find region (mRegionalCosts after)
              = Some (getIntegral yearCurve
                        (double_of_int (getInt conf "discount-start-year" 2005))
                        (double_of_int (getEndYear getModeltime)))
           /\ StdMap.find region (mRegionalDiscountedCosts after)
              = Some (getDiscountedValue yearCurve
                        (double_of_int (getInt conf "discount-start-year" 2005))
                        (double_of_int (getEndYear getModeltime))
                        (getDouble conf "discountRate" 0x1.999999999999ap-5%float)).
Proof.
  intro Hcov.
  rewrite (createRegionalCostCurves_spec conf self Hcov).
  eexists. split; [ reflexivity | ].
  intros region Hregion.
  destruct (periodsCoverRegions_inv self Hcov) as (first & Hfirst & Hall).
  rewrite (costedRegions_first self first Hfirst) in Hregion.
  destruct (regionCostPoints_spec self region (seq 0 (getmaxper getModeltime)) [])
    as (curves & Hcurves & Epts).
  { intros per Hper. apply Hall; [ assumption | apply in_seq in Hper; lia ]. }
  assert (Hyear : regionalCostCurveOf self region
                  = setTitle region
                      (PointSetCurve
                         (addPoints
                            (map costPointOf
                                 (combine (seq 0 (getmaxper getModeltime)) curves))
                            []))).
  { unfold regionalCostCurveOf. rewrite Epts. reflexivity. }
  assert (Hlen : List.length curves = List.length (seq 0 (getmaxper getModeltime))).
  { symmetry. eapply Forall2_length. exact Hcurves. }
  exists curves, (regionalCostCurveOf self region).
  split; [ exact Hcurves | ]. split; [ exact Hyear | ].
  split.
  { intro Hyears. unfold distinctYears in Hyears.
    rewrite <- (map_pointX_costPoints _ curves Hlen) in Hyears.
    rewrite Hyear. cbn [curvePoints setTitle PointSetCurve]. split.
    - rewrite (length_addPoints _ Hyears), length_map, length_combine, Hlen,
        length_seq. lia.
    - rewrite <- (map_pointX_costPoints _ curves Hlen).
      apply Permutation_sym. apply Permutation_map.
      apply addPoints_Permutation. exact Hyears. }
  destruct (fold_recordRegion conf self (costedRegions self) self)
    as (_ & _ & H3 & H4 & H5 & _).
  rewrite (costedRegions_first self first Hfirst) in *.
  rewrite H3, H4, H5, !find_insertAll, !lastBinding_keyed.
  rewrite (existsb_eqb_In _ _ Hregion).
  repeat split.
Qed.

(** C6: on a calculator whose totals are zero and whose regional maps
    are empty, as the constructor leaves them, the aggregator ends with
    the global cost equal to the sum of the regional costs it stored,
    taken left to right from zero in region order, and the global
    discounted cost equal to the like sum of the regional discounted
    costs.  The regions stored are those of period 0's map but "global":
    "global" is in none of the three regional maps and in neither sum. *)
Theorem global_costs_sum_regional_costs (self : TotalPolicyCostCalculator) :
  periodsCoverRegions self = true ->
  ascendingKeys (StdMap.keys (nth 0 (mPeriodCostCurves self) [])) = true ->
  mGlobalCost self = 0%float ->
  mGlobalDiscountedCost self = 0%float ->
  mRegionalCostCurves self = [] ->
  mRegionalCosts self = [] ->
  mRegionalDiscountedCosts self = [] ->
  exists after,
    createRegionalCostCurves conf self = Some after
    /\ mGlobalCost after = sumFrom 0%float (map snd (mRegionalCosts after))
    /\ mGlobalDiscountedCost after
       = sumFrom 0%float (map snd (mRegionalDiscountedCosts after))
    /\ StdMap.keys (mRegionalCosts after)
       = filter notGlobal (StdMap.keys (nth 0 (mPeriodCostCurves self) []))
    /\ StdMap.keys (mRegionalDiscountedCosts after) = StdMap.keys (mRegionalCosts after)
    /\ StdMap.keys (mRegionalCostCurves after) = StdMap.keys (mRegionalCosts after)
    /\ ~ In "global" (StdMap.keys (mRegionalCosts after)).
Proof.
  intros Hcov Hasc Hg Hgd Hcurves Hcosts Hdisc.
  rewrite (createRegionalCostCurves_spec conf self Hcov).
  eexists. split; [ reflexivity | ].
  destruct (fold_recordRegion conf self (costedRegions self) self)
    as (H1 & H2 & H3 & H4 & H5 & _).
  assert (Hsorted : StronglySorted StdMap.key_lt (costedRegions self)).
  { unfold costedRegions. apply sorted_filter. apply ascendingKeys_sorted. exact Hasc. }
  rewrite H1, H2, H3, H4, H5, Hg, Hgd, Hcurves, Hcosts, Hdisc.
  rewrite !insertAll_ordered_nil
    by (unfold StdMap.ordered; rewrite keys_keyed; exact Hsorted).
  rewrite !keys_keyed, !map_map. cbn [snd].
  repeat split. apply global_not_costed.
Qed.

End AggregatorClaims.

(** ** Computing twice *)

Section SameInputs.

Context {curveOps : CurveOps}.
Context {Scenario : Type} {facade : ScenarioFacade Scenario}.

(** The period cost curves read the calculator through its trial curves
    and its number of points only. *)
Lemma periodCostCurve_same (a b : TotalPolicyCostCalculator) (per : nat)
    (region : string) (first : Curve) :
  mEmissionsQCurves a = mEmissionsQCurves b ->
  mEmissionsTCurves a = mEmissionsTCurves b ->
  mNumPoints a = mNumPoints b ->
  periodCostCurve a per region first = periodCostCurve b per region first.
Proof.
  intros HQ HT HN. unfold periodCostCurve, trialCount. rewrite HN.
  assert (H : forall trials acc,
            trialPoints a region first (getper_to_yr getModeltime per) trials acc
            = trialPoints b region first (getper_to_yr getModeltime per) trials acc).
  { induction trials as [ | trial rest IH ]; intro acc; cbn [trialPoints].
    - reflexivity.
    - unfold trialPoint. rewrite HQ, HT.
      destruct (curveOf region (mEmissionsQCurves b) trial); [ | reflexivity ].
      destruct (curveOf region (mEmissionsTCurves b) trial); [ | reflexivity ].
      apply IH. }
  rewrite H. reflexivity.
Qed.

Lemma periodCostCurvesOf_same (a b : TotalPolicyCostCalculator) (start : Scenario) :
  mGHGName a = mGHGName b ->
  mNumPoints a = mNumPoints b ->
  periodCostCurvesOf a start = periodCostCurvesOf b start.
Proof.
  intros Hghg HN. unfold periodCostCurvesOf, firstTrialQuantities.
  rewrite Hghg, HN. apply map_ext. intro per.
  unfold periodCostBindings. apply map_ext. intro rIter.
  unfold periodCostCurveOr. f_equal. f_equal.
  apply periodCostCurve_same; cbn; congruence.
Qed.

(** The year-to-cost curve of a region and its totals read the calculator
    through its period cost curves only. *)
Lemma regionalCostCurveOf_same (a b : TotalPolicyCostCalculator) (region : string) :
  mPeriodCostCurves a = mPeriodCostCurves b ->
  regionalCostCurveOf a region = regionalCostCurveOf b region.
Proof.
  intro H. unfold regionalCostCurveOf.
  rewrite (regionCostPoints_same b a) by assumption. reflexivity.
Qed.

Lemma regionalCostOf_same (conf : Configuration) (a b : TotalPolicyCostCalculator)
    (region : string) :
  mPeriodCostCurves a = mPeriodCostCurves b ->
  regionalCostOf conf a region = regionalCostOf conf b region
  /\ discountedRegionalCostOf conf a region = discountedRegionalCostOf conf b region.
Proof.
  intro H. unfold regionalCostOf, discountedRegionalCostOf.
  rewrite (regionalCostCurveOf_same a b region H). split; reflexivity.
Qed.

End SameInputs.

Section Recomputation.

Context {curveOps : CurveOps}.
Context {Scenario : Type} {facade : ScenarioFacade Scenario}.

Variable conf : Configuration.

(** What a second computation does, in general: a newly constructed
    calculator (with N + 1 representable as [unsigned int]) computes from
    a scenario state, and computes again from the same scenario state.
    Both computations return the same success flag and leave the same
    trial curves, period cost curves, regional cost curves, regional costs
    and regional discounted costs.  The global totals are not the same:
    lines 256-257 add to members that the constructor alone zeroes, so the
    second computation adds every regional cost once more on top of the
    totals of the first, and the total stored is no longer the sum of the
    regional costs that the comment at line 219 announces. *)
Theorem second_computation_adds_to_the_totals (w : World Scenario)
    (calls2 : list Call) (log2 : list string) :
  let self := newTotalPolicyCostCalculator conf in
  double_eqb (getPrice (scenario w) (mGHGName self) "USA" 1) NO_MARKET_PRICE = false ->
  (Z.of_nat (mNumPoints self) + 1 < 2 ^ 32)%Z ->
  sweepWellFormed (mGHGName self) (mNumPoints self) (scenario w) = true ->
  0 < getmaxper getModeltime ->
  exists (success : bool) (first second : TotalPolicyCostCalculator)
         (w1 w2 : World Scenario),
    calculateAbatementCostCurve conf self w = Some (success, first, w1)
    /\ calculateAbatementCostCurve conf first (mkWorld (scenario w) calls2 log2)
       = Some (success, second, w2)
    /\ mEmissionsQCurves second = mEmissionsQCurves first
    /\ mEmissionsTCurves second = mEmissionsTCurves first
    /\ mPeriodCostCurves second = mPeriodCostCurves first
    /\ mRegionalCostCurves second = mRegionalCostCurves first
    /\ mRegionalCosts second = mRegionalCosts first
    /\ mRegionalDiscountedCosts second = mRegionalDiscountedCosts first
    /\ mGlobalCost first = sumFrom 0%float (map snd (mRegionalCosts first))
    /\ mGlobalCost second
       = sumFrom (mGlobalCost first) (map snd (mRegionalCosts first))
    /\ mGlobalDiscountedCost first
       = sumFrom 0%float (map snd (mRegionalDiscountedCosts first))
    /\ mGlobalDiscountedCost second
       = sumFrom (mGlobalDiscountedCost first) (map snd (mRegionalDiscountedCosts first)).
Proof.
  intros self Hprice Hfits Hwf Hper.
  set (start := scenario w) in *.
  destruct (calculate_spec conf self w Hprice Hfits Hwf Hper (or_introl eq_refl))
    as (w1 & E1 & _).
  fold start in E1.
  set (first := outcome conf self start) in *.
  destruct (outcome_fields conf self start)
    as (_ & Hghg & HN & HQ1 & HT1 & HPC1).
  fold first in Hghg, HN, HQ1, HT1, HPC1.
  assert (Hsame : periodCostCurvesOf first start = periodCostCurvesOf self start)
    by (apply periodCostCurvesOf_same; assumption).
  destruct (calculate_spec conf first (mkWorld start calls2 log2))
    as (w2 & E2 & _); cbn [scenario]; try assumption.
  { rewrite Hghg. exact Hprice. }
  { rewrite HN. exact Hfits. }
  { rewrite Hghg, HN. exact Hwf. }
  { right. rewrite Hsame. exact HPC1. }
  cbn [scenario] in E2. rewrite Hghg, HN in E2.
  set (second := outcome conf first start) in *.
  exists (sweepSolved (mGHGName self) (mNumPoints self) start), first, second, w1, w2.
  split; [ exact E1 | ]. split; [ exact E2 | ].
  destruct (outcome_fields conf first start) as (_ & _ & _ & HQ2 & HT2 & HPC2).
  fold second in HQ2, HT2, HPC2.
  destruct (outcome_costs conf self start) as (G1 & D1 & C1 & R1 & S1).
  destruct (outcome_costs conf first start) as (G2 & D2 & C2 & R2 & S2).
  fold first in G1, D1, C1, R1, S1. fold second in G2, D2, C2, R2, S2.
  cbn zeta in G1, D1, C1, R1, S1, G2, D2, C2, R2, S2.
  assert (HPCc : mPeriodCostCurves (costed first start)
                 = mPeriodCostCurves (costed self start)).
  { cbn [costed mPeriodCostCurves withPeriodCostCurves]. exact Hsame. }
  assert (Hrs : costedRegions (costed first start) = costedRegions (costed self start)).
  { unfold costedRegions. rewrite HPCc. reflexivity. }
  assert (Hcurve : forall r, regionalCostCurveOf (costed first start) r
                             = regionalCostCurveOf (costed self start) r).
  { intro r. apply regionalCostCurveOf_same. exact HPCc. }
  assert (Hcost : forall r, regionalCostOf conf (costed first start) r
                            = regionalCostOf conf (costed self start) r).
  { intro r. apply regionalCostOf_same. exact HPCc. }
  assert (Hdisc : forall r, discountedRegionalCostOf conf (costed first start) r
                            = discountedRegionalCostOf conf (costed self start) r).
  { intro r. apply regionalCostOf_same. exact HPCc. }
  rewrite Hrs in G2, D2, C2, R2, S2.
  rewrite (map_ext _ _ Hcost) in G2.
  rewrite (map_ext _ _ Hdisc) in D2.
  rewrite (map_ext _ _ (fun r => f_equal (pair r) (Hcurve r))) in C2.
  rewrite (map_ext _ _ (fun r => f_equal (pair r) (Hcost r))) in R2.
  rewrite (map_ext _ _ (fun r => f_equal (pair r) (Hdisc r))) in S2.
  assert (Hsorted : StronglySorted StdMap.key_lt (costedRegions (costed self start))).
  { rewrite (costedRegions_costed self start Hwf Hper).
    apply sorted_filter. apply (regions_sorted self start Hwf). }
  cbn [self newTotalPolicyCostCalculator mGlobalCost mGlobalDiscountedCost
       mRegionalCostCurves mRegionalCosts mRegionalDiscountedCosts] in G1, D1, C1, R1, S1.
  assert (Hnil : forall V, StdMap.ordered (@nil (string * V))) by (intro; constructor).
  split; [ congruence | ]. split; [ congruence | ]. split; [ congruence | ].
  split; [ rewrite C2, C1; apply insertAll_twice; apply Hnil | ].
  split; [ rewrite R2, R1; apply insertAll_twice; apply Hnil | ].
  split; [ rewrite S2, S1; apply insertAll_twice; apply Hnil | ].
  rewrite insertAll_ordered_nil in R1, S1
    by (unfold StdMap.ordered; rewrite keys_keyed; exact Hsorted).
  rewrite G2, D2, G1, D1, R1, S1, !map_map. cbn [snd].
  repeat split.
Qed.

End Recomputation.

(* ================================================================== *)
(** * The properties on the small scenario *)

Section OnTheDemo.

#[local] Existing Instance Demo.curveOps.
#[local] Existing Instance Demo.facade.

(** The curve methods used on the small scenario meet the sanity checks of
    the specification (section 8): the triangle under {(0,0),(10,10)}
    from 0 to 10 is 50; an upper limit of [DBL_MAX] stops at the last
    sample; a zero discount rate gives the undiscounted integral. *)
Example getIntegral_triangle :
  let c := PointSetCurve (addPoints [mkXYDataPoint 10 10; mkXYDataPoint 0 0]%float []) in
  getIntegral c 0%float 10%float = 50%float
  /\ getIntegral c 0%float DBL_MAX = 50%float
  /\ getDiscountedValue c 0%float 10%float 0%float = getIntegral c 0%float 10%float
  /\ getY c 4%float = 4%float.
Proof. repeat split; vm_compute; reflexivity. Qed.

(** The market check of C3 on the scenario without a policy. *)
Lemma no_market_skips_everything_witness :
  (mRanCosts Demo.calculator = false
   /\ double_eqb (getPrice Demo.noPolicyScenario "CO2" "USA" 1) NO_MARKET_PRICE = true)
  /\ exists w',
       calculateAbatementCostCurve Demo.conf Demo.calculator
         (Demo.start Demo.noPolicyScenario)
       = Some (true, Demo.calculator, w')
       /\ scenario w' = scenario (Demo.start Demo.noPolicyScenario)
       /\ calls w' = calls (Demo.start Demo.noPolicyScenario)
                     ++ [CallGetPrice (mGHGName Demo.calculator) "USA" 1]
       /\ filter isRun (calls w') = filter isRun (calls (Demo.start Demo.noPolicyScenario))
       /\ filter isSetTax (calls w')
          = filter isSetTax (calls (Demo.start Demo.noPolicyScenario))
       /\ printOutput false Demo.calculator Demo.policyScenario = Some [].
Proof.
  split; [ split; [ reflexivity | vm_compute; reflexivity ] | ].
  apply (no_market_skips_everything false Demo.conf Demo.calculator
           (Demo.start Demo.noPolicyScenario) Demo.policyScenario).
  - reflexivity.
  - vm_compute. reflexivity.
Defined.

(** C2 on the policy scenario with two trials. *)
Lemma runTrials_runs_each_trial_once_witness :
  (Z.of_nat (mNumPoints Demo.calculator) + 1 < 2 ^ 32)%Z
  /\ exists (based : TotalPolicyCostCalculator) (w0 : World Demo.Scenario)
            (success : bool) (after : TotalPolicyCostCalculator)
            (w' : World Demo.Scenario),
       storeBaseline Demo.calculator Demo.world = Some (based, w0)
       /\ filter isRun (calls w0) = []
       /\ runTrials based w0 = Some (success, after, w')
       /\ filter isRun (calls w') = [CallRun (-1) true "0"; CallRun (-1) true "1"]
       /\ nth_error (mEmissionsQCurves after) 2
          = Some (getEmissionsQuantityCurves Demo.policyScenario "CO2").
Proof.
  assert (Hfits : (Z.of_nat (mNumPoints Demo.calculator) + 1 < 2 ^ 32)%Z)
    by (vm_compute; reflexivity).
  split; [ exact Hfits | ].
  pose proof (runTrials_runs_each_trial_once Demo.calculator Demo.world Hfits) as H.
  cbv zeta in H.
  destruct H as (based & w0 & success & after & w' & Ebase & _ & _ & Hruns0 & Erun
                 & _ & _ & Hruns & _ & _ & _ & HQ & _).
  exists based, w0, success, after, w'.
  split; [ exact Ebase | ]. split; [ exact Hruns0 | ]. split; [ exact Erun | ].
  split; [ exact Hruns | exact HQ ].
Defined.

(** C4 on the policy scenario, where trial 0 does not solve and trial 1
    does. *)
Lemma failed_trials_do_not_stop_the_sweep_witness :
  (double_eqb (getPrice Demo.policyScenario "CO2" "USA" 1) NO_MARKET_PRICE = false
   /\ (Z.of_nat (mNumPoints Demo.calculator) + 1 < 2 ^ 32)%Z
   /\ sweepWellFormed "CO2" 2 Demo.policyScenario = true
   /\ 0 < getmaxper getModeltime
   /\ mPeriodCostCurves Demo.calculator = [])
  /\ (trialSolved "CO2" 2 Demo.policyScenario 0 = false
      /\ trialSolved "CO2" 2 Demo.policyScenario 1 = true)
  /\ exists (final : TotalPolicyCostCalculator) (w' : World Demo.Scenario),
       calculateAbatementCostCurve Demo.conf Demo.calculator Demo.world
       = Some (false, final, w')
       /\ filter isRun (calls w') = [CallRun (-1) true "0"; CallRun (-1) true "1"]
       /\ nth_error (mEmissionsQCurves final) 0
          = Some (getEmissionsQuantityCurves
                    (scenarioAfter "CO2" 2 Demo.policyScenario 1) "CO2")
       /\ nth_error (mEmissionsTCurves final) 0
          = Some (getEmissionsPriceCurves
                    (scenarioAfter "CO2" 2 Demo.policyScenario 1) "CO2").
Proof.
  assert (Hprice : double_eqb (getPrice Demo.policyScenario "CO2" "USA" 1)
                              NO_MARKET_PRICE = false) by (vm_compute; reflexivity).
  assert (Hfits : (Z.of_nat (mNumPoints Demo.calculator) + 1 < 2 ^ 32)%Z)
    by (vm_compute; reflexivity).
  assert (Hwf : sweepWellFormed "CO2" 2 Demo.policyScenario = true)
    by (vm_compute; reflexivity).
  assert (Hper : 0 < getmaxper getModeltime) by (cbn; lia).
  split; [ repeat split; assumption | ].
  split; [ split; vm_compute; reflexivity | ].
  destruct (failed_trials_do_not_stop_the_sweep Demo.conf Demo.calculator Demo.world
              Hprice) as [Hall Hreturns].
  destruct (Hreturns Hfits Hwf Hper eq_refl) as (final & w' & Ecalc).
  destruct (Hall _ final w' Ecalc) as (_ & Hruns & Hsnap).
  exists final, w'. split; [ exact Ecalc | ].
  split; [ exact Hruns | ].
  apply (Hsnap 0). cbn. lia.
Defined.


(** C9 on two scenarios that agree on the price of "USA" at period 1 and
    on little else: the price is not the sentinel, and the computation is
    performed from both. *)
Lemma market_check_reads_usa_period_1_witness :
  (getPrice Demo.policyScenario "CO2" "USA" 1 = getPrice Demo.otherScenario "CO2" "USA" 1
   /\ double_eqb (getPrice Demo.policyScenario "CO2" "China" 1)
                 (getPrice Demo.otherScenario "CO2" "China" 1) = false
   /\ double_eqb (getPrice (scenario Demo.world) (mGHGName Demo.calculator) "USA" 1)
                 NO_MARKET_PRICE = false
   /\ (Z.of_nat (mNumPoints Demo.calculator) + 1 < 2 ^ 32)%Z
   /\ sweepWellFormed "CO2" 2 Demo.policyScenario = true
   /\ sweepWellFormed "CO2" 2 Demo.otherScenario = true
   /\ 0 < getmaxper getModeltime
   /\ mPeriodCostCurves Demo.calculator = [])
  /\ (skipsCostCurves Demo.conf Demo.calculator Demo.world
      <-> skipsCostCurves Demo.conf Demo.calculator (Demo.start Demo.otherScenario))
  /\ (skipsCostCurves Demo.conf Demo.calculator Demo.world
      <-> double_eqb (getPrice (scenario Demo.world) (mGHGName Demo.calculator) "USA" 1)
                     NO_MARKET_PRICE = true)
  /\ (forall success final w',
        calculateAbatementCostCurve Demo.conf Demo.calculator Demo.world
        = Some (success, final, w') ->
        filter isGetPrice (calls w')
        = filter isGetPrice (calls Demo.world)
          ++ [CallGetPrice (mGHGName Demo.calculator) "USA" 1])
  /\ performsCostCurves Demo.conf Demo.calculator Demo.world
  /\ performsCostCurves Demo.conf Demo.calculator (Demo.start Demo.otherScenario).
Proof.
  assert (Hsame : getPrice Demo.policyScenario "CO2" "USA" 1
                  = getPrice Demo.otherScenario "CO2" "USA" 1)
    by (vm_compute; reflexivity).
  assert (Hactive : double_eqb (getPrice (scenario Demo.world)
                                         (mGHGName Demo.calculator) "USA" 1)
                               NO_MARKET_PRICE = false)
    by (vm_compute; reflexivity).
  assert (Hfits : (Z.of_nat (mNumPoints Demo.calculator) + 1 < 2 ^ 32)%Z)
    by (vm_compute; reflexivity).
  assert (Hwf1 : sweepWellFormed "CO2" 2 Demo.policyScenario = true)
    by (vm_compute; reflexivity).
  assert (Hwf2 : sweepWellFormed "CO2" 2 Demo.otherScenario = true)
    by (vm_compute; reflexivity).
  assert (Hper : 0 < getmaxper getModeltime) by (cbn; lia).
  split.
  { split; [ exact Hsame | ]. split; [ vm_compute; reflexivity | ].
    repeat split; assumption. }
  destruct (market_check_reads_usa_period_1 Demo.conf Demo.calculator Demo.world
              (Demo.start Demo.otherScenario) Hsame)
    as (Hboth & Hskip & Hquery & Hperformed).
  split; [ exact Hboth | ]. split; [ exact Hskip | ]. split; [ exact Hquery | ].
  split.
  - apply (Hperformed Hactive Demo.world (or_introl eq_refl));
      [ exact Hfits | exact Hwf1 | exact Hper | reflexivity ].
  - apply (Hperformed Hactive (Demo.start Demo.otherScenario) (or_intror eq_refl));
      [ exact Hfits | exact Hwf2 | exact Hper | reflexivity ].
Defined.

(** C1 (amended) on the calculator left by the sweep of the policy
    scenario, where the trials of every region reach different reductions
    in every period. *)
Lemma period_cost_curves_built_witness :
  ((Z.of_nat (mNumPoints Demo.sweptCalculator) + 1 < 2 ^ 32)%Z
   /\ trialsCoverRegions Demo.sweptCalculator = true
   /\ forallb (fun per =>
                 forallb (fun rIter =>
                            distinctReductions Demo.sweptCalculator per
                                               (fst rIter) (snd rIter))
                         (nth 0 (mEmissionsQCurves Demo.sweptCalculator) []))
              (seq 0 (getmaxper getModeltime)) = true)
  /\ exists after,
       createCostCurvesByPeriod Demo.sweptCalculator = Some after
       /\ List.length (mPeriodCostCurves after) = getmaxper getModeltime
       /\ forall per region first,
            per < getmaxper getModeltime ->
            curveOf region (mEmissionsQCurves Demo.sweptCalculator) 0 = Some first ->
            exists curve pts,
              curveOf region (mPeriodCostCurves after) per = Some curve
              /\ Forall2 (pointOfTrial Demo.sweptCalculator region first
                                       (getper_to_yr getModeltime per))
                         (seq 0 (mNumPoints Demo.sweptCalculator + 1)) pts
              /\ curvePoints curve = addPoints pts []
              /\ ascendingX (curvePoints curve)
              /\ (forall p, In p (curvePoints curve) -> In p pts)
              /\ List.length (curvePoints curve) <= mNumPoints Demo.sweptCalculator + 1
              /\ (distinctReductions Demo.sweptCalculator per region first = true ->
                  Permutation pts (curvePoints curve)
                  /\ List.length (curvePoints curve)
                     = mNumPoints Demo.sweptCalculator + 1).
Proof.
  split; [ repeat split; vm_compute; reflexivity | ].
  apply (period_cost_curves_built Demo.sweptCalculator).
  - vm_compute. reflexivity.
  - vm_compute. reflexivity.
Defined.

(** C1 as stated fails on the policy scenario: "USA" is in the baseline's
    quantity map, with 80 in 2005 against 100 in the zero-tax trial; the
    curve stored for 2005 has the reductions 0, 10 and 20 and not the
    quantities relative to the baseline, -20, -10 and 0. *)
Lemma period_cost_curve_not_relative_to_baseline :
  createCostCurvesByPeriod Demo.sweptCalculator = Some Demo.costedCalculator
  /\ isSome (curveOf "USA" (mEmissionsQCurves Demo.sweptCalculator)
                     (mNumPoints Demo.sweptCalculator)) = true
  /\ option_map (fun c => map pointX (curvePoints c))
                (curveOf "USA" (mPeriodCostCurves Demo.costedCalculator) 0)
     = Some [0; 10; 20]%float
  /\ ~ builtFromBaseline Demo.sweptCalculator Demo.costedCalculator 0 "USA".
Proof.
  split; [ vm_compute; reflexivity | ].
  split; [ vm_compute; reflexivity | ].
  split; [ vm_compute; reflexivity | ].
  intros (curve & pts & Hcurve & Hpts & Hperm).
  vm_compute in Hcurve. injection Hcurve as <-.
  change (seq 0 (mNumPoints Demo.sweptCalculator + 1)) with [0; 1; 2] in Hpts.
  inversion Hpts as [ | t0 p0 ts ps Hp0 _ ]; subst.
  vm_compute in Hp0. injection Hp0 as <-.
  eapply Permutation_in in Hperm; [ | left; reflexivity ].
  cbn [curvePoints In] in Hperm.
  destruct Hperm as [H | [H | [H | []]]];
    apply (f_equal (fun p => double_eqb (pointX p) (-20)%float)) in H;
    vm_compute in H; discriminate.
Qed.

(** C5 on the calculator holding the period cost curves of the policy
    scenario, whose periods are the years 2005 and 2020. *)
Lemma regional_costs_from_period_curves_witness :
  (periodsCoverRegions Demo.costedCalculator = true /\ distinctYears = true)
  /\ exists after,
       createRegionalCostCurves Demo.conf Demo.costedCalculator = Some after
       /\ forall region,
            In region (costedRegions Demo.costedCalculator) ->
            exists (periodCurves : list Curve) (yearCurve : Curve),
              Forall2 (fun per curve =>
                         curveOf region (mPeriodCostCurves Demo.costedCalculator) per
                         = Some curve)
                      (seq 0 (getmaxper getModeltime)) periodCurves
              /\ yearCurve
                 = setTitle region
                     (PointSetCurve
                        (addPoints
                           (map (fun pc =>
                                   mkXYDataPoint
                                     (double_of_int (getper_to_yr getModeltime (fst pc)))
                                     (getIntegral (snd pc) 0%float DBL_MAX))
                                (combine (seq 0 (getmaxper getModeltime)) periodCurves))
                           []))
              /\ (distinctYears = true ->
                  List.length (curvePoints yearCurve) = getmaxper getModeltime
                  /\ Permutation
                       (map pointX (curvePoints yearCurve))
                       (map (fun per => double_of_int (getper_to_yr getModeltime per))
                            (seq 0 (getmaxper getModeltime))))
              /\ StdMap.find region (mRegionalCostCurves after) = Some yearCurve
              /\ StdMap.find region (mRegionalCosts after)
                 = Some (getIntegral yearCurve
                           (double_of_int (getInt Demo.conf "discount-start-year" 2005))
                           (double_of_int (getEndYear getModeltime)))
              /\ StdMap.find region (mRegionalDiscountedCosts after)
                 = Some (getDiscountedValue yearCurve
                           (double_of_int (getInt Demo.conf "discount-start-year" 2005))
                           (double_of_int (getEndYear getModeltime))
                           (getDouble Demo.conf "discountRate" 0x1.999999999999ap-5%float)).
Proof.
  split; [ split; vm_compute; reflexivity | ].
  apply (regional_costs_from_period_curves Demo.conf Demo.costedCalculator).
  vm_compute. reflexivity.
Defined.

(** C6 on the same calculator, whose period maps hold a "global" region. *)
Lemma global_costs_sum_regional_costs_witness :
  (periodsCoverRegions Demo.costedCalculator = true
   /\ ascendingKeys (StdMap.keys (nth 0 (mPeriodCostCurves Demo.costedCalculator) []))
      = true
   /\ mGlobalCost Demo.costedCalculator = 0%float
   /\ mGlobalDiscountedCost Demo.costedCalculator = 0%float
   /\ mRegionalCostCurves Demo.costedCalculator = []
   /\ mRegionalCosts Demo.costedCalculator = []
   /\ mRegionalDiscountedCosts Demo.costedCalculator = [])
  /\ In "global" (StdMap.keys (nth 0 (mPeriodCostCurves Demo.costedCalculator) []))
  /\ exists after,
       createRegionalCostCurves Demo.conf Demo.costedCalculator = Some after
       /\ mGlobalCost after = sumFrom 0%float (map snd (mRegionalCosts after))
       /\ mGlobalDiscountedCost after
          = sumFrom 0%float (map snd (mRegionalDiscountedCosts after))
       /\ StdMap.keys (mRegionalCosts after)
          = filter notGlobal
              (StdMap.keys (nth 0 (mPeriodCostCurves Demo.costedCalculator) []))
       /\ StdMap.keys (mRegionalDiscountedCosts after) = StdMap.keys (mRegionalCosts after)
       /\ StdMap.keys (mRegionalCostCurves after) = StdMap.keys (mRegionalCosts after)
       /\ ~ In "global" (StdMap.keys (mRegionalCosts after)).
Proof.
  split; [ | split ].
  - split; [ vm_compute; reflexivity | ]. split; [ vm_compute; reflexivity | ].
    repeat split; reflexivity.
  - cbn. auto.
  - apply (global_costs_sum_regional_costs Demo.conf Demo.costedCalculator).
    + vm_compute. reflexivity.
    + vm_compute. reflexivity.
    + reflexivity.
    + reflexivity.
    + reflexivity.
    + reflexivity.
    + reflexivity.
Defined.

(** The same on the policy scenario. *)
Lemma second_computation_adds_to_the_totals_witness :
  (double_eqb (getPrice Demo.policyScenario "CO2" "USA" 1) NO_MARKET_PRICE = false
   /\ (Z.of_nat (mNumPoints (newTotalPolicyCostCalculator Demo.conf)) + 1 < 2 ^ 32)%Z
   /\ sweepWellFormed "CO2" 2 Demo.policyScenario = true
   /\ 0 < getmaxper getModeltime)
  /\ exists (success : bool) (first second : TotalPolicyCostCalculator)
            (w1 w2 : World Demo.Scenario),
       calculateAbatementCostCurve Demo.conf (newTotalPolicyCostCalculator Demo.conf)
         Demo.world
       = Some (success, first, w1)
       /\ calculateAbatementCostCurve Demo.conf first
            (mkWorld (scenario Demo.world) [] [])
          = Some (success, second, w2)
       /\ mEmissionsQCurves second = mEmissionsQCurves first
       /\ mEmissionsTCurves second = mEmissionsTCurves first
       /\ mPeriodCostCurves second = mPeriodCostCurves first
       /\ mRegionalCostCurves second = mRegionalCostCurves first
       /\ mRegionalCosts second = mRegionalCosts first
       /\ mRegionalDiscountedCosts second = mRegionalDiscountedCosts first
       /\ mGlobalCost first = sumFrom 0%float (map snd (mRegionalCosts first))
       /\ mGlobalCost second
          = sumFrom (mGlobalCost first) (map snd (mRegionalCosts first))
       /\ mGlobalDiscountedCost first
          = sumFrom 0%float (map snd (mRegionalDiscountedCosts first))
       /\ mGlobalDiscountedCost second
          = sumFrom (mGlobalDiscountedCost first)
                    (map snd (mRegionalDiscountedCosts first)).
Proof.
  split.
  - split; [ vm_compute; reflexivity | ]. split; [ vm_compute; reflexivity | ].
    split; [ vm_compute; reflexivity | cbn; lia ].
  - apply (second_computation_adds_to_the_totals Demo.conf Demo.world [] []).
    + vm_compute. reflexivity.
    + vm_compute. reflexivity.
    + vm_compute. reflexivity.
    + cbn. lia.
Defined.

(** C7: on the policy scenario, computing twice with one calculator from
    the same scenario state leaves the same regional costs, but a global
    cost of 4687.5 after the first computation and of 9375 after the
    second: lines 256-257 add to totals that only the constructor zeroes
    (lines 52-53), so the total stored is twice the sum of the regional
    costs, against the comment at line 219. *)
Lemma second_computation_changes_the_global_cost :
  option_map (fun r => snd (fst r)) (Demo.compute Demo.calculator Demo.policyScenario)
  = Some Demo.first
  /\ option_map (fun r => snd (fst r)) (Demo.compute Demo.first Demo.policyScenario)
     = Some Demo.second
  /\ mRegionalCosts Demo.second = mRegionalCosts Demo.first
  /\ mGlobalCost Demo.first = 4687.5%float
  /\ mGlobalCost Demo.second = 9375%float
  /\ mGlobalCost Demo.second <> mGlobalCost Demo.first.
Proof.
  split; [ vm_compute; reflexivity | ].
  split; [ vm_compute; reflexivity | ].
  split; [ reflexivity | ]. split; [ reflexivity | ]. split; [ reflexivity | ].
  intro H. apply (f_equal (fun x => double_eqb x 9375%float)) in H.
  vm_compute in H. discriminate.
Qed.

End OnTheDemo.

(* ================================================================== *)
(** * More of the calculator *)

(** ** Faults of the period cost curve builder *)

Section BuilderFaults.

Context {curveOps : CurveOps}.
Context {Scenario : Type} {facade : ScenarioFacade Scenario}.

Variable self : TotalPolicyCostCalculator.

Lemma trialPoints_None (region : string) (first : Curve) (year : Z) (trial : nat)
    (trials : list nat) :
  In trial trials ->
  trialPoint self region first year trial = None ->
  forall acc, trialPoints self region first year trials acc = None.
Proof.
  intros Hin Hnone. induction trials as [ | t rest IH ]; [ contradiction | ].
  intro acc. cbn [trialPoints]. destruct Hin as [-> | Hin].
  - rewrite Hnone. reflexivity.
  - destruct (trialPoint self region first year t); [ apply IH; assumption | reflexivity ].
Qed.

Lemma periodRegionLoop_None (per : nat) (rIter : string * Curve)
    (regions : list (string * Curve)) :
  In rIter regions ->
  periodCostCurve self per (fst rIter) (snd rIter) = None ->
  forall acc, periodRegionLoop self per regions acc = None.
Proof.
  intros Hin Hnone. induction regions as [ | r rest IH ]; [ contradiction | ].
  intro acc. cbn [periodRegionLoop]. destruct Hin as [-> | Hin].
  - rewrite Hnone. reflexivity.
  - destruct (periodCostCurve self per (fst r) (snd r));
      [ apply IH; assumption | reflexivity ].
Qed.

(** X1: with N + 1 representable as [unsigned int] (otherwise the loop
    of line 199 reads no trial), [createCostCurvesByPeriod] faults when
    the quantity or price map of some trial t <= N lacks a region of
    trial 0's quantity map and there is a period to build: [operator[]]
    yields a null curve pointer for the missing region and line 201 or
    202 calls [getY] through it. *)
Theorem createCostCurvesByPeriod_faults_on_missing_region (first : RegionCurves)
    (region : string) (trial : nat) :
  (Z.of_nat (mNumPoints self) + 1 < 2 ^ 32)%Z ->
  nth_error (mEmissionsQCurves self) 0 = Some first ->
  In region (StdMap.keys first) ->
  trial < mNumPoints self + 1 ->
  curveOf region (mEmissionsQCurves self) trial = None
  \/ curveOf region (mEmissionsTCurves self) trial = None ->
  0 < getmaxper getModeltime ->
  createCostCurvesByPeriod self = None.
Proof.
  intros Hfits Hfirst Hin Htrial Hmissing Hper.
  apply in_map_iff in Hin. destruct Hin as (rIter & <- & Hin).
  assert (Hpoint : forall year,
             trialPoint self (fst rIter) (snd rIter) year trial = None).
  { intro year. unfold trialPoint. destruct Hmissing as [-> | Ht]; [ reflexivity | ].
    rewrite Ht. destruct (curveOf (fst rIter) (mEmissionsQCurves self) trial); reflexivity. }
  assert (Hcurve : forall per, periodCostCurve self per (fst rIter) (snd rIter) = None).
  { intro per. unfold periodCostCurve.
    rewrite (trialPoints_None (fst rIter) (snd rIter) _ trial);
      [ reflexivity | | apply Hpoint ].
    apply in_seq. rewrite (trialCount_fits self Hfits). lia. }
  unfold createCostCurvesByPeriod.
  destruct (getmaxper getModeltime) as [ | n ] eqn:En; [ lia | ].
  cbn [seq periodLoop]. rewrite Hfirst. cbn beta iota.
  destruct (nth_error (resize _ _ _) 0) as [old | ]; [ | reflexivity ].
  rewrite (periodRegionLoop_None 0 rIter first Hin (Hcurve 0)). reflexivity.
Qed.

End BuilderFaults.

(** ** What the period cost curve builder stores *)

Section BuilderStores.

Context {curveOps : CurveOps}.
Context {Scenario : Type} {facade : ScenarioFacade Scenario}.

Variable self : TotalPolicyCostCalculator.

Lemma periodCostBindings_same (other : TotalPolicyCostCalculator) (per : nat)
    (regions : RegionCurves) :
  mEmissionsQCurves other = mEmissionsQCurves self ->
  mEmissionsTCurves other = mEmissionsTCurves self ->
  mNumPoints other = mNumPoints self ->
  periodCostBindings other per regions = periodCostBindings self per regions.
Proof.
  intros HQ HT HN. unfold periodCostBindings. apply map_ext. intro rIter.
  unfold periodCostCurveOr. f_equal. f_equal.
  apply periodCostCurve_same; assumption.
Qed.

(** X2: the curve [createCostCurvesByPeriod] stores for a period and a
    region of trial 0's quantity map is titled with the name of the region
    followed by " period cost curve", and its numerical label is the
    period, whatever the maps held before. *)
Theorem period_cost_curves_titled_and_labelled :
  trialsCoverRegions self = true ->
  exists after,
    createCostCurvesByPeriod self = Some after
    /\ forall per region,
         per < getmaxper getModeltime ->
         In region (StdMap.keys (nth 0 (mEmissionsQCurves self) [])) ->
         exists curve,
           curveOf region (mPeriodCostCurves after) per = Some curve
           /\ curveTitle curve = (region ++ " period cost curve")%string
           /\ curveNumericalLabel curve = Some per.
Proof.
  intro Hcov.
  destruct (trialsCoverRegions_inv self Hcov) as (first & Hfirst & Hord & Hall).
  rewrite (createCostCurvesByPeriod_spec self first Hcov Hfirst).
  eexists. split; [ reflexivity | ].
  intros per region Hper Hregion.
  rewrite (nth_error_nth _ _ _ Hfirst) in Hregion.
  destruct (find_key_In first region Hord Hregion) as [c Ec].
  destruct (periodCostCurve_spec self per region c) as (pts & Ecurve & _).
  { intros trial Htrial. apply Hall; [ pose proof (trialCount_le self); lia | assumption ]. }
  eexists. split.
  - cbn [mPeriodCostCurves withPeriodCostCurves]. unfold curveOf.
    rewrite nth_error_map, nth_error_seq.
    destruct (Nat.ltb_spec per (getmaxper getModeltime)); [ | lia ].
    cbn [option_map Nat.add]. rewrite find_insertAll, lastBinding_ordered.
    + unfold periodCostBindings.
      rewrite (find_map_values (fun r x => periodCostCurveOr self per r x)).
      unfold RegionCurves in *. rewrite Ec. cbn [option_map].
      unfold periodCostCurveOr. rewrite Ecurve. reflexivity.
    + unfold StdMap.ordered, periodCostBindings.
      rewrite (keys_map_values (fun r x => periodCostCurveOr self per r x)).
      exact Hord.
  - split; reflexivity.
Qed.

(** X3: on a calculator that holds no period cost curves yet,
    [createCostCurvesByPeriod] leaves one map per period, each with exactly
    the regions of trial 0's quantity map, in the same (key) order. *)
Theorem period_maps_hold_the_regions_of_trial_0 :
  trialsCoverRegions self = true ->
  mPeriodCostCurves self = [] ->
  exists after,
    createCostCurvesByPeriod self = Some after
    /\ List.length (mPeriodCostCurves after) = getmaxper getModeltime
    /\ forall costCurves,
         In costCurves (mPeriodCostCurves after) ->
         StdMap.keys costCurves = StdMap.keys (nth 0 (mEmissionsQCurves self) [])
         /\ StdMap.ordered costCurves.
Proof.
  intros Hcov Hfresh.
  destruct (trialsCoverRegions_inv self Hcov) as (first & Hfirst & Hord & _).
  rewrite (createCostCurvesByPeriod_spec self first Hcov Hfirst).
  eexists. split; [ reflexivity | ].
  cbn [mPeriodCostCurves withPeriodCostCurves].
  split; [ rewrite length_map, length_seq; reflexivity | ].
  intros costCurves Hin. apply in_map_iff in Hin. destruct Hin as (per & <- & _).
  rewrite Hfresh, resize_nil, nth_repeat.
  assert (Hb : StdMap.ordered (periodCostBindings self per first)).
  { unfold StdMap.ordered, periodCostBindings.
    rewrite (keys_map_values (fun r x => periodCostCurveOr self per r x)). exact Hord. }
  rewrite (insertAll_ordered_nil _ Hb). split; [ | exact Hb ].
  rewrite (nth_error_nth _ _ _ Hfirst). unfold periodCostBindings.
  apply (keys_map_values (fun r x => periodCostCurveOr self per r x)).
Qed.

(** X4: building the period cost curves a second time changes nothing:
    the builder reads the trial curves only and overwrites, region by
    region, what the first pass stored (the maps held before are taken in
    key order, as [std::map]s are). *)
Theorem createCostCurvesByPeriod_twice (after : TotalPolicyCostCalculator) :
  trialsCoverRegions self = true ->
  forallb (fun m => ascendingKeys (StdMap.keys m)) (mPeriodCostCurves self) = true ->
  createCostCurvesByPeriod self = Some after ->
  createCostCurvesByPeriod after = Some after.
Proof.
  intros Hcov Hmaps Hbuilt.
  destruct (trialsCoverRegions_inv self Hcov) as (first & Hfirst & Hord & _).
  rewrite (createCostCurvesByPeriod_spec self first Hcov Hfirst) in Hbuilt.
  injection Hbuilt as <-.
  remember (map _ (seq 0 (getmaxper getModeltime))) as pcs eqn:Epcs.
  assert (Hlen : List.length pcs = getmaxper getModeltime)
    by (rewrite Epcs, length_map, length_seq; reflexivity).
  assert (Hsized : resize [] (getmaxper getModeltime) pcs = pcs)
    by (rewrite <- Hlen; apply resize_same_length).
  rewrite (createCostCurvesByPeriod_spec (withPeriodCostCurves pcs self) first Hcov Hfirst).
  f_equal.
  transitivity (withPeriodCostCurves pcs (withPeriodCostCurves pcs self));
    [ | reflexivity ].
  f_equal. cbn [mPeriodCostCurves withPeriodCostCurves].
  rewrite Hsized.
  apply nth_error_ext_eq. intro i.
  rewrite nth_error_map, nth_error_seq.
  destruct (Nat.ltb_spec i (getmaxper getModeltime)) as [Hlt | Hge].
  - cbn [option_map Nat.add].
    assert (Ei : nth_error pcs i
                 = Some (StdMap.insertAll (periodCostBindings self i first)
                           (nth i (resize [] (getmaxper getModeltime)
                                          (mPeriodCostCurves self)) []))).
    { rewrite Epcs, nth_error_map, nth_error_seq.
      destruct (Nat.ltb_spec i (getmaxper getModeltime)); [ reflexivity | lia ]. }
    rewrite (nth_error_nth _ _ _ Ei), Ei. f_equal.
    rewrite (periodCostBindings_same (withPeriodCostCurves pcs self) i first)
      by reflexivity.
    apply insertAll_twice.
    unfold StdMap.ordered.
    destruct (nth_error (resize [] (getmaxper getModeltime) (mPeriodCostCurves self)) i)
      as [old | ] eqn:Eold.
    + rewrite (nth_error_nth _ _ _ Eold).
      unfold resize in Eold. apply nth_error_In in Eold. apply in_app_or in Eold.
      destruct Eold as [Hold | Hold].
      * apply ascendingKeys_sorted. rewrite forallb_forall in Hmaps.
        apply Hmaps.
        rewrite <- (firstn_skipn (getmaxper getModeltime) (mPeriodCostCurves self)).
        apply in_or_app. left. exact Hold.
      * apply repeat_spec in Hold. subst old. constructor.
    + apply nth_error_None in Eold. rewrite nth_overflow by assumption. constructor.
  - cbn [option_map]. symmetry. apply nth_error_None. lia.
Qed.

End BuilderStores.

(** ** More of the aggregator *)

Section AggregatorMore.

Context {curveOps : CurveOps}.
Context {Scenario : Type} {facade : ScenarioFacade Scenario}.

Variable conf : Configuration.

Lemma regionCostPoints_None (self : TotalPolicyCostCalculator) (region : string)
    (per : nat) (periods : list nat) :
  In per periods ->
  curveOf region (mPeriodCostCurves self) per = None ->
  forall acc, regionCostPoints self region periods acc = None.
Proof.
  intros Hin Hnone. induction periods as [ | p rest IH ]; [ contradiction | ].
  intro acc. cbn [regionCostPoints]. destruct Hin as [-> | Hin].
  - rewrite Hnone. reflexivity.
  - destruct (curveOf region (mPeriodCostCurves self) p);
      [ apply IH; assumption | reflexivity ].
Qed.

Lemma regionLoop_None (self : TotalPolicyCostCalculator) (discountRate : double)
    (startYear : Z) (rIter : string * Curve) (regions : list (string * Curve)) :
  In rIter regions ->
  notGlobal (fst rIter) = true ->
  regionCostPoints self (fst rIter) (seq 0 (getmaxper getModeltime)) [] = None ->
  forall other,
    mPeriodCostCurves other = mPeriodCostCurves self ->
    regionLoop discountRate startYear regions other = None.
Proof.
  intros Hin Hng Hnone.
  induction regions as [ | r rest IH ]; [ contradiction | ].
  intros other Hsame. cbn [regionLoop]. destruct Hin as [-> | Hin].
  - unfold notGlobal in Hng.
    destruct (String.eqb (fst rIter) "global"); [ discriminate | ].
    rewrite (regionCostPoints_same self other _ _ _ Hsame), Hnone. reflexivity.
  - destruct (String.eqb (fst r) "global"); [ apply IH; assumption | ].
    destruct (regionCostPoints other (fst r) (seq 0 (getmaxper getModeltime)) []);
      [ | reflexivity ].
    apply IH; assumption.
Qed.

(** X5: [createRegionalCostCurves] faults when a region of period 0's
    map that is not "global" has no cost curve in the map of some period:
    [operator[]] yields a null curve pointer and line 241 calls
    [getIntegral] through it. *)
Theorem createRegionalCostCurves_faults_on_missing_period_curve
    (self : TotalPolicyCostCalculator) (first : RegionCurves) (region : string)
    (per : nat) :
  nth_error (mPeriodCostCurves self) 0 = Some first ->
  In region (StdMap.keys first) ->
  notGlobal region = true ->
  per < getmaxper getModeltime ->
  curveOf region (mPeriodCostCurves self) per = None ->
  createRegionalCostCurves conf self = None.
Proof.
  intros Hfirst Hin Hng Hper Hnone.
  apply in_map_iff in Hin. destruct Hin as (rIter & <- & Hin).
  unfold createRegionalCostCurves. rewrite Hfirst.
  apply (regionLoop_None self _ _ rIter first Hin Hng); [ | reflexivity ].
  apply (regionCostPoints_None self (fst rIter) per); [ | exact Hnone ].
  apply in_seq. lia.
Qed.

(** X6: [createRegionalCostCurves] never resets the totals: whatever the
    calculator holds, each total ends as its value before plus, left to
    right in region order, the costs stored for the regions processed. *)
Theorem createRegionalCostCurves_adds_to_the_totals (self : TotalPolicyCostCalculator) :
  periodsCoverRegions self = true ->
  exists after,
    createRegionalCostCurves conf self = Some after
    /\ mGlobalCost after
       = sumFrom (mGlobalCost self)
           (map (fun region => orDefault (StdMap.find region (mRegionalCosts after))
                                         0%float)
                (costedRegions self))
    /\ mGlobalDiscountedCost after
       = sumFrom (mGlobalDiscountedCost self)
           (map (fun region =>
                   orDefault (StdMap.find region (mRegionalDiscountedCosts after))
                             0%float)
                (costedRegions self)).
Proof.
  intro Hcov.
  rewrite (createRegionalCostCurves_spec conf self Hcov).
  eexists. split; [ reflexivity | ].
  destruct (fold_recordRegion conf self (costedRegions self) self)
    as (H1 & H2 & _ & H4 & H5 & _).
  rewrite H1, H2, H4, H5. split.
  - f_equal. apply map_ext_in. intros region Hin.
    rewrite StdMapFacts.find_insertAll, lastBinding_keyed,
      (existsb_eqb_In region _ Hin). reflexivity.
  - f_equal. apply map_ext_in. intros region Hin.
    rewrite StdMapFacts.find_insertAll, lastBinding_keyed,
      (existsb_eqb_In region _ Hin). reflexivity.
Qed.

Lemma existsb_eqb_not_In (k : string) (rs : list string) :
  ~ In k rs -> existsb (String.eqb k) rs = false.
Proof.
  intro Hnot. induction rs as [ | r rest IH ]; [ reflexivity | ].
  cbn [existsb]. destruct (String.eqb_spec k r) as [-> | _].
  - exfalso. apply Hnot. left. reflexivity.
  - apply IH. intro Hin. apply Hnot. right. exact Hin.
Qed.

(** X7: [createRegionalCostCurves] writes the entries of the regions it
    processes and no other: what the three regional maps held for any
    other region, "global" among them, is still there afterwards, and the
    trial curves and the period cost curves are as before. *)
Theorem createRegionalCostCurves_keeps_other_regions (self : TotalPolicyCostCalculator) :
  periodsCoverRegions self = true ->
  exists after,
    createRegionalCostCurves conf self = Some after
    /\ (forall region,
          ~ In region (costedRegions self) ->
          StdMap.find region (mRegionalCostCurves after)
          = StdMap.find region (mRegionalCostCurves self)
          /\ StdMap.find region (mRegionalCosts after)
             = StdMap.find region (mRegionalCosts self)
          /\ StdMap.find region (mRegionalDiscountedCosts after)
             = StdMap.find region (mRegionalDiscountedCosts self))
    /\ ~ In "global" (costedRegions self)
    /\ mPeriodCostCurves after = mPeriodCostCurves self
    /\ mEmissionsQCurves after = mEmissionsQCurves self
    /\ mEmissionsTCurves after = mEmissionsTCurves self.
Proof.
  intro Hcov.
  pose proof (createRegionalCostCurves_spec conf self Hcov) as Espec.
  destruct (createRegionalCostCurves_keeps conf self _ Espec) as (_ & Hp & Hq & Ht).
  rewrite Espec. eexists. split; [ reflexivity | ].
  split; [ | split; [ apply global_not_costed | auto ] ].
  intros region Hnot.
  destruct (fold_recordRegion conf self (costedRegions self) self)
    as (_ & _ & H3 & H4 & H5 & _).
  rewrite H3, H4, H5, !StdMapFacts.find_insertAll, !lastBinding_keyed,
    (existsb_eqb_not_In region _ Hnot).
  repeat split.
Qed.

(** X8: with a model time of no period, a computation on an active
    policy market faults, whatever the calculator and the scenario: the
    builder leaves no period map, and line 231 takes the first. *)
Theorem calculateAbatementCostCurve_faults_without_a_period
    (self : TotalPolicyCostCalculator) (w : World Scenario) :
  getmaxper getModeltime = 0 ->
  double_eqb (getPrice (scenario w) (mGHGName self) "USA" 1) NO_MARKET_PRICE = false ->
  calculateAbatementCostCurve conf self w = None.
Proof.
  intros Hzero Hprice.
  destruct (calculateAbatementCostCurve conf self w) as [[[success final] w'] | ] eqn:E;
    [ | reflexivity ].
  destruct (calculate_returns conf self w success final w' Hprice E)
    as (_ & _ & _ & _ & _ & _ & Hpos).
  lia.
Qed.

(** X9: a computation asked for no point of the cost curve, on an active
    policy market, runs no trial and sets no tax: it reads the price and
    the two sets of curves of the primary run, leaves the scenario as it
    was, logs nothing and reports success. *)
Theorem computation_without_points (self : TotalPolicyCostCalculator)
    (w : World Scenario) :
  mNumPoints self = 0 ->
  double_eqb (getPrice (scenario w) (mGHGName self) "USA" 1) NO_MARKET_PRICE = false ->
  sweepWellFormed (mGHGName self) 0 (scenario w) = true ->
  0 < getmaxper getModeltime ->
  mPeriodCostCurves self = [] ->
  exists final w',
    calculateAbatementCostCurve conf self w = Some (true, final, w')
    /\ scenario w' = scenario w
    /\ calls w' = calls w ++ [CallGetPrice (mGHGName self) "USA" 1;
                              CallGetEmissionsQuantityCurves (mGHGName self);
                              CallGetEmissionsPriceCurves (mGHGName self)]
    /\ mainLog w' = mainLog w
    /\ mEmissionsQCurves final = [getEmissionsQuantityCurves (scenario w) (mGHGName self)]
    /\ mEmissionsTCurves final = [getEmissionsPriceCurves (scenario w) (mGHGName self)].
Proof.
  intros Hzero Hprice Hwf Hper Hfresh.
  destruct (calculate_spec conf self w Hprice) as (w' & Ecalc & Hs & Hc & Hl);
    [ rewrite Hzero; reflexivity | rewrite Hzero; exact Hwf | exact Hper
    | left; exact Hfresh | ].
  destruct (calculate_returns conf self w _ _ _ Hprice Ecalc)
    as (_ & _ & _ & Hq & Ht & _).
  rewrite Ecalc. unfold computationCalls in Hc. rewrite Hzero in *.
  cbn [seq flat_map map scenarioAfter] in *. rewrite app_nil_r in Hl.
  eexists _, w'. repeat split; assumption.
Qed.

End AggregatorMore.

(** ** More of the sweep *)

Section SweepMore.

Context {curveOps : CurveOps}.
Context {Scenario : Type} {facade : ScenarioFacade Scenario}.

Lemma runTrialsLoop_short (n : nat) (points : list nat) :
  In n points ->
  forall success self w,
    List.length (mEmissionsQCurves self) <= n ->
    runTrialsLoop points success self w = None.
Proof.
  induction points as [ | currPoint rest IH ]; [ contradiction | ].
  intros Hin success self w Hle. cbn [runTrialsLoop]. cbv zeta.
  destruct (nth_error (mEmissionsTCurves self) (mNumPoints self)); [ | reflexivity ].
  destruct (assignAt currPoint _ (mEmissionsQCurves self)) as [qCurves | ] eqn:Eq;
    [ | reflexivity ].
  destruct (assignAt currPoint _ (mEmissionsTCurves self)) as [tCurves | ];
    [ | reflexivity ].
  pose proof (assignAt_length _ _ _ _ Eq) as Hlen.
  destruct Hin as [-> | Hin].
  - unfold assignAt in Eq.
    destruct (Nat.ltb_spec n (List.length (mEmissionsQCurves self)));
      [ lia | discriminate ].
  - apply IH; [ exact Hin | ]. cbn [mEmissionsQCurves withEmissionsTCurves
      withEmissionsQCurves]. lia.
Qed.

(** X10: [runTrials] indexes the two vectors of trial curves without
    sizing them, which [calculateAbatementCostCurve] does first: called
    with a trial to run on a calculator whose quantity vector is shorter
    than [mNumPoints], or whose price vector has no element at index
    [mNumPoints], it faults (lines 149 and 175-176). *)
Theorem runTrials_faults_on_short_vectors (self : TotalPolicyCostCalculator)
    (w : World Scenario) :
  0 < mNumPoints self ->
  List.length (mEmissionsQCurves self) < mNumPoints self
  \/ List.length (mEmissionsTCurves self) <= mNumPoints self ->
  runTrials self w = None.
Proof.
  intros Hpos Hshort. unfold runTrials.
  destruct Hshort as [Hq | Ht].
  - apply (runTrialsLoop_short (List.length (mEmissionsQCurves self)));
      [ apply in_seq; lia | lia ].
  - destruct (mNumPoints self) as [ | k ] eqn:Ek; [ lia | ].
    cbn [seq runTrialsLoop]. rewrite Ek.
    assert (E : nth_error (mEmissionsTCurves self) (S k) = None)
      by (apply nth_error_None; exact Ht).
    rewrite E. reflexivity.
Qed.

End SweepMore.

(** ** More of the output *)

Lemma assignAt_repeat_last {A : Type} (d x : A) (k : nat) :
  assignAt k x (repeat d (S k)) = Some (repeat d k ++ [x]).
Proof.
  unfold assignAt. rewrite repeat_length.
  destruct (Nat.ltb_spec k (S k)) as [ _ | ]; [ | lia ]. f_equal. f_equal.
  - induction k as [ | k IH ]; [ reflexivity | ].
    change (d :: firstn k (repeat d (S k)) = d :: repeat d k). f_equal. exact IH.
  - f_equal. apply skipn_all2. rewrite repeat_length. lia.
Qed.

Lemma last_app_four {A : Type} (l : list A) (a b c d dflt : A) :
  last (l ++ [a; b; c; d]) dflt = d.
Proof.
  change [a; b; c; d] with ([a; b; c] ++ [d]). rewrite app_assoc. apply last_last.
Qed.

Lemma wellNested_curves (curves : list (string * Curve)) (opened : list string)
    (rest : list XMLItem) :
  wellNested opened (map (fun rIter => XMLCurve (snd rIter)) curves ++ rest)
  = wellNested opened rest.
Proof.
  induction curves as [ | c curves IH ]; [ reflexivity | exact IH ].
Qed.

Lemma wellNested_elements (tag : string) (values : list (string * double))
    (opened : list string) (rest : list XMLItem) :
  wellNested opened
    (map (fun iter => XMLElement (snd iter) tag (Some (fst iter))) values ++ rest)
  = wellNested opened rest.
Proof.
  induction values as [ | v values IH ]; [ reflexivity | exact IH ].
Qed.

Section OutputMore.

Context {curveOps : CurveOps}.
Context {Scenario : Type} {facade : ScenarioFacade Scenario}.

Variable self : TotalPolicyCostCalculator.

Lemma totalsToDB_rows (var3name : string) (totals : list (string * double)) :
  0 < getmaxper getModeltime ->
  totalsToDB var3name totals = Some (map (totalRow var3name) totals).
Proof.
  intro Hper. induction totals as [ | iter rest IH ]; [ reflexivity | ].
  cbn [totalsToDB map]. rewrite IH. unfold totalInLastPeriod, totalRow.
  destruct (getmaxper getModeltime) as [ | k ]; [ lia | ].
  cbn [Nat.sub]. rewrite Nat.sub_0_r, assignAt_repeat_last. reflexivity.
Qed.

(** X11: with at least one period, [writeToDB] writes one row per
    regional cost curve, holding the costs of the periods, then one row
    per regional cost and one per regional discounted cost, each zero in
    every period but the last, where the total stands; all values are
    converted from 1975 to 1990 dollars. *)
Theorem writeToDB_rows :
  0 < getmaxper getModeltime ->
  writeToDB self
  = Some (map periodRow (mRegionalCostCurves self)
            ++ map (totalRow "PolicyCostTotalUndisc") (mRegionalCosts self)
            ++ map (totalRow "PolicyCostTotalDisc") (mRegionalDiscountedCosts self)).
Proof.
  intro Hper. unfold writeToDB.
  rewrite !totalsToDB_rows by exact Hper. reflexivity.
Qed.

(** X12: with a model time of no period and a regional cost to write,
    [writeToDB] faults: the vector of the row is empty and lines 317 and
    325 write its element [maxPeriod - 1]. *)
Theorem writeToDB_faults_without_a_period :
  getmaxper getModeltime = 0 ->
  0 < List.length (mRegionalCosts self) + List.length (mRegionalDiscountedCosts self) ->
  writeToDB self = None.
Proof.
  intros Hzero Hsome.
  assert (Hfault : forall var3name iter rest, totalsToDB var3name (iter :: rest) = None).
  { intros var3name iter rest. cbn [totalsToDB]. unfold totalInLastPeriod.
    rewrite Hzero. reflexivity. }
  unfold writeToDB.
  destruct (mRegionalCosts self) as [ | iter rest ]; [ | rewrite Hfault; reflexivity ].
  destruct (mRegionalDiscountedCosts self) as [ | iter rest ]; [ cbn in Hsome; lia | ].
  rewrite Hfault. reflexivity.
Qed.

Lemma wellNested_allPeriodCostCurvesXML (periods : list nat) :
  forall xml,
    allPeriodCostCurvesXML self periods = Some xml ->
    forall opened rest, wellNested opened (xml ++ rest) = wellNested opened rest.
Proof.
  induction periods as [ | per periods IH ]; intros xml Exml opened rest;
    cbn [allPeriodCostCurvesXML] in Exml.
  - injection Exml as <-. reflexivity.
  - unfold periodCostCurvesXML in Exml.
    destruct (nth_error (mPeriodCostCurves self) per) as [costCurves | ];
      [ | discriminate ].
    destruct (allPeriodCostCurvesXML self periods) as [there | ]; [ | discriminate ].
    injection Exml as <-.
    rewrite <- app_assoc. cbn [app wellNested].
    rewrite <- app_assoc, wellNested_curves. cbn [app wellNested].
    rewrite String.eqb_refl. cbn [andb]. apply IH. reflexivity.
Qed.

Lemma isSome_allPeriodCostCurvesXML (count : nat) :
  forall from,
    isSome (allPeriodCostCurvesXML self (seq from count))
    = (count =? 0) || (from + count <=? List.length (mPeriodCostCurves self)).
Proof.
  induction count as [ | count IH ]; intro from; [ reflexivity | ].
  cbn [seq allPeriodCostCurvesXML]. unfold periodCostCurvesXML.
  specialize (IH (S from)).
  destruct (nth_error (mPeriodCostCurves self) from) as [costCurves | ] eqn:Ehere.
  - assert (Hfrom : from < List.length (mPeriodCostCurves self))
      by (apply nth_error_Some; congruence).
    destruct (allPeriodCostCurvesXML self (seq (S from) count)); cbn [isSome] in *;
      destruct (Nat.eqb_spec count 0), (Nat.leb_spec (S from + count)
                                          (List.length (mPeriodCostCurves self))),
               (Nat.leb_spec (from + S count) (List.length (mPeriodCostCurves self)));
      cbn [orb Nat.eqb] in *; try reflexivity; try discriminate; lia.
  - apply nth_error_None in Ehere. cbn [isSome Nat.eqb orb].
    destruct (Nat.leb_spec (from + S count) (List.length (mPeriodCostCurves self)));
      [ lia | reflexivity ].
Qed.

(** X13: [createXMLOutputString] takes the map of every period from
    [mPeriodCostCurves] by index (line 350): it returns when the vector
    holds a map for each period of the model time, and faults when it
    holds fewer. *)
Theorem createXMLOutputString_needs_every_period :
  isSome (createXMLOutputString self)
  = (getmaxper getModeltime <=? List.length (mPeriodCostCurves self)).
Proof.
  unfold createXMLOutputString.
  pose proof (isSome_allPeriodCostCurvesXML (getmaxper getModeltime) 0) as H.
  cbn [Nat.add] in H.
  destruct (allPeriodCostCurvesXML self (seq 0 (getmaxper getModeltime)));
    cbn [isSome] in *; rewrite H;
    destruct (Nat.eqb_spec (getmaxper getModeltime) 0) as [-> | _ ];
    reflexivity.
Qed.

(** X14: the document [createXMLOutputString] builds is well nested:
    every closing tag closes the tag opened last and not yet closed, and
    the document ends with nothing open. *)
Theorem createXMLOutputString_well_nested :
  getmaxper getModeltime <= List.length (mPeriodCostCurves self) ->
  exists xml,
    createXMLOutputString self = Some xml
    /\ wellNested [] xml = true
    /\ hd_error xml = Some (XMLOpeningTag "CostCurvesInfo" None)
    /\ last xml (XMLCurve (PointSetCurve [])) = XMLClosingTag "CostCurvesInfo".
Proof.
  intro Hlen. unfold createXMLOutputString.
  destruct (allPeriodCostCurvesXML_Some self (seq 0 (getmaxper getModeltime)))
    as [byPeriod Eby].
  { intros per Hin. apply in_seq in Hin. lia. }
  rewrite Eby. eexists. split; [ reflexivity | ]. split; [ | split ].
  - cbn [app wellNested].
    rewrite (wellNested_allPeriodCostCurvesXML _ _ Eby).
    cbn [app wellNested String.eqb Ascii.eqb Bool.eqb andb].
    rewrite wellNested_curves.
    cbn [app wellNested String.eqb Ascii.eqb Bool.eqb andb].
    rewrite wellNested_elements.
    cbn [app wellNested String.eqb Ascii.eqb Bool.eqb andb].
    rewrite wellNested_elements.
    reflexivity.
  - reflexivity.
  - rewrite !app_assoc. apply last_app_four.
Qed.

End OutputMore.

(** ** Parsing the input driver *)

Lemma last_cons_default {A : Type} (l : list A) :
  forall x d, last (x :: l) d = last l x.
Proof.
  induction l as [ | y l IH ]; intros x d; [ reflexivity | ].
  change (last (x :: y :: l) d) with (last (y :: l) d).
  rewrite (IH y d), (IH y x). reflexivity.
Qed.

Section InputDriverFacts.

Variable text : string.

Lemma parseChildNodes_spec (nodeList : list DOMNode) :
  forall parsingSuccessful self mainLog,
    parseChildNodes text nodeList parsingSuccessful self mainLog
    = (parsingSuccessful && forallb (fun node => negb (unrecognized text node)) nodeList,
       mkInputDriver
         (last (map getValue (filter (namesInput text) nodeList)) (mInputName self)),
       mainLog ++ map (fun node => unrecognizedWarning self (getNodeName node))
                      (filter (unrecognized text) nodeList)).
Proof.
  induction nodeList as [ | curr rest IH ]; intros parsingSuccessful self mainLog.
  - cbn. rewrite andb_true_r, app_nil_r. destruct self. reflexivity.
  - cbn [parseChildNodes filter forallb]. unfold namesInput at 1, unrecognized at 1 3.
    destruct (String.eqb (getNodeName curr) text); cbn [negb andb].
    + apply IH.
    + destruct (String.eqb (getNodeName curr) "input-name"); cbn [negb andb].
      * rewrite IH. cbn [map mInputName]. rewrite last_cons_default. reflexivity.
      * rewrite IH. cbn [map andb]. rewrite andb_false_r, <- app_assoc. reflexivity.
Qed.

(** X15: [XMLParse] goes through every child of the node and stops at
    none: it returns true exactly when each child is a text node or an
    "input-name" element, and it logs one warning per other child, in
    document order, naming the child and "input-driver". *)
Theorem XMLParse_flags_unrecognized_children (self : InputDriver) (aNode : DOMNode)
    (mainLog : list string) :
  exists parsed,
    XMLParse text self (Some aNode) mainLog
    = Some (forallb (fun node => negb (unrecognized text node)) (getChildNodes aNode),
            parsed,
            (mainLog
               ++ map (fun node =>
                         "Unrecognized text string: " ++ getNodeName node
                           ++ " found while parsing" ++ "input-driver")%string
                      (filter (unrecognized text) (getChildNodes aNode)))%list).
Proof.
  unfold XMLParse. rewrite parseChildNodes_spec. eexists. reflexivity.
Qed.

(** X16: after [XMLParse] the driver is named by the last "input-name"
    child of the node, later children of other kinds and earlier names
    notwithstanding; a node without such a child leaves the name as it
    was. *)
Theorem XMLParse_keeps_the_last_name (self : InputDriver) (aNode : DOMNode)
    (mainLog : list string) :
  exists parsingSuccessful mainLog',
    XMLParse text self (Some aNode) mainLog
    = Some (parsingSuccessful,
            mkInputDriver
              (last (map getValue (filter (namesInput text) (getChildNodes aNode)))
                    (mInputName self)),
            mainLog').
Proof.
  unfold XMLParse. rewrite parseChildNodes_spec. eexists _, _. reflexivity.
Qed.

End InputDriverFacts.

(** An <input-driver> element with white space, two names and a stray
    element: the driver ends up named by the second name, parsing is
    reported as failed, and the stray element is the one warned about. *)
Example XMLParse_driverNode :
  XMLParse "#text" (mkInputDriver "") (Some DemoMore.driverNode) []
  = Some (false, mkInputDriver "gas",
          ["Unrecognized text string: output-name found while parsinginput-driver"]).
Proof. reflexivity. Qed.

(* ================================================================== *)
(** * The further properties on the small scenarios *)

Section OnTheDemoMore.

#[local] Existing Instance Demo.curveOps.
#[local] Existing Instance Demo.facade.

(** X1 on the swept calculator whose price map of trial 1 is empty. *)
Lemma createCostCurvesByPeriod_faults_on_missing_region_witness :
  ((Z.of_nat (mNumPoints DemoMore.lackingCalculator) + 1 < 2 ^ 32)%Z
   /\ nth_error (mEmissionsQCurves DemoMore.lackingCalculator) 0
   = Some (nth 0 (mEmissionsQCurves DemoMore.lackingCalculator) [])
   /\ In "USA" (StdMap.keys (nth 0 (mEmissionsQCurves DemoMore.lackingCalculator) []))
   /\ 1 < mNumPoints DemoMore.lackingCalculator + 1
   /\ curveOf "USA" (mEmissionsTCurves DemoMore.lackingCalculator) 1 = None
   /\ 0 < getmaxper getModeltime)
  /\ createCostCurvesByPeriod DemoMore.lackingCalculator = None.
Proof.
  assert (H0 : (Z.of_nat (mNumPoints DemoMore.lackingCalculator) + 1 < 2 ^ 32)%Z)
    by (vm_compute; reflexivity).
  assert (H1 : nth_error (mEmissionsQCurves DemoMore.lackingCalculator) 0
               = Some (nth 0 (mEmissionsQCurves DemoMore.lackingCalculator) []))
    by (vm_compute; reflexivity).
  assert (H2 : In "USA" (StdMap.keys
                           (nth 0 (mEmissionsQCurves DemoMore.lackingCalculator) [])))
    by (vm_compute; tauto).
  assert (H3 : 1 < mNumPoints DemoMore.lackingCalculator + 1) by (vm_compute; lia).
  assert (H4 : curveOf "USA" (mEmissionsTCurves DemoMore.lackingCalculator) 1 = None)
    by (vm_compute; reflexivity).
  assert (H5 : 0 < getmaxper getModeltime) by (vm_compute; lia).
  split; [ repeat split; assumption | ].
  apply (createCostCurvesByPeriod_faults_on_missing_region
           DemoMore.lackingCalculator
           (nth 0 (mEmissionsQCurves DemoMore.lackingCalculator) []) "USA" 1
           H0 H1 H2 H3 (or_intror H4) H5).
Defined.

(** Where trials reach the same reduction the curve has fewer samples
    than trials: in a period without tax every trial emits what trial 0
    emits, the three points have x = 0, and the curve keeps one sample
    (the next period, taxed, has its three). *)
Example period_without_tax_keeps_one_sample :
  option_map (fun r => snd (fst r)) (Demo.compute Demo.calculator DemoMore.untaxedScenario)
  = Some DemoMore.untaxedCalculator
  /\ option_map
       (fun first => map (reductionOf DemoMore.untaxedCalculator "USA" first 2005)
                         [0; 1; 2])
       (curveOf "USA" (mEmissionsQCurves DemoMore.untaxedCalculator) 0)
     = Some [0; 0; 0]%float
  /\ option_map curvePoints
       (curveOf "USA" (mPeriodCostCurves DemoMore.untaxedCalculator) 0)
     = Some [mkXYDataPoint 0%float 0%float]
  /\ option_map (fun c => List.length (curvePoints c))
       (curveOf "USA" (mPeriodCostCurves DemoMore.untaxedCalculator) 1)
     = Some 3.
Proof. repeat split; vm_compute; reflexivity. Qed.

(** X2 on the swept calculator of the policy scenario. *)
Lemma period_cost_curves_titled_and_labelled_witness :
  trialsCoverRegions Demo.sweptCalculator = true
  /\ exists after,
       createCostCurvesByPeriod Demo.sweptCalculator = Some after
       /\ forall per region,
            per < getmaxper getModeltime ->
            In region (StdMap.keys (nth 0 (mEmissionsQCurves Demo.sweptCalculator) [])) ->
            exists curve,
              curveOf region (mPeriodCostCurves after) per = Some curve
              /\ curveTitle curve = (region ++ " period cost curve")%string
              /\ curveNumericalLabel curve = Some per.
Proof.
  split; [ vm_compute; reflexivity | ].
  apply (period_cost_curves_titled_and_labelled Demo.sweptCalculator).
  vm_compute. reflexivity.
Defined.

(** X3 on the same calculator, which holds no period cost curve yet. *)
Lemma period_maps_hold_the_regions_of_trial_0_witness :
  (trialsCoverRegions Demo.sweptCalculator = true
   /\ mPeriodCostCurves Demo.sweptCalculator = [])
  /\ exists after,
       createCostCurvesByPeriod Demo.sweptCalculator = Some after
       /\ List.length (mPeriodCostCurves after) = getmaxper getModeltime
       /\ forall costCurves,
            In costCurves (mPeriodCostCurves after) ->
            StdMap.keys costCurves
            = StdMap.keys (nth 0 (mEmissionsQCurves Demo.sweptCalculator) [])
            /\ StdMap.ordered costCurves.
Proof.
  split; [ split; [ vm_compute; reflexivity | reflexivity ] | ].
  apply (period_maps_hold_the_regions_of_trial_0 Demo.sweptCalculator).
  - vm_compute. reflexivity.
  - reflexivity.
Defined.

(** X4: the builder applied to what it built from the swept calculator. *)
Lemma createCostCurvesByPeriod_twice_witness :
  (trialsCoverRegions Demo.sweptCalculator = true
   /\ forallb (fun m => ascendingKeys (StdMap.keys m))
              (mPeriodCostCurves Demo.sweptCalculator) = true
   /\ createCostCurvesByPeriod Demo.sweptCalculator = Some Demo.costedCalculator)
  /\ createCostCurvesByPeriod Demo.costedCalculator = Some Demo.costedCalculator.
Proof.
  assert (H1 : trialsCoverRegions Demo.sweptCalculator = true)
    by (vm_compute; reflexivity).
  assert (H2 : forallb (fun m => ascendingKeys (StdMap.keys m))
                       (mPeriodCostCurves Demo.sweptCalculator) = true)
    by (vm_compute; reflexivity).
  assert (H3 : createCostCurvesByPeriod Demo.sweptCalculator
               = Some Demo.costedCalculator)
    by (vm_compute; reflexivity).
  split; [ repeat split; assumption | ].
  apply (createCostCurvesByPeriod_twice Demo.sweptCalculator Demo.costedCalculator
           H1 H2 H3).
Defined.

(** X5 on the calculator whose map of period 1 is empty. *)
Lemma createRegionalCostCurves_faults_on_missing_period_curve_witness :
  (nth_error (mPeriodCostCurves DemoMore.shortCalculator) 0
   = Some (nth 0 (mPeriodCostCurves DemoMore.shortCalculator) [])
   /\ In "USA" (StdMap.keys (nth 0 (mPeriodCostCurves DemoMore.shortCalculator) []))
   /\ notGlobal "USA" = true
   /\ 1 < getmaxper getModeltime
   /\ curveOf "USA" (mPeriodCostCurves DemoMore.shortCalculator) 1 = None)
  /\ createRegionalCostCurves Demo.conf DemoMore.shortCalculator = None.
Proof.
  assert (H1 : nth_error (mPeriodCostCurves DemoMore.shortCalculator) 0
               = Some (nth 0 (mPeriodCostCurves DemoMore.shortCalculator) []))
    by (vm_compute; reflexivity).
  assert (H2 : In "USA" (StdMap.keys
                           (nth 0 (mPeriodCostCurves DemoMore.shortCalculator) [])))
    by (vm_compute; tauto).
  assert (H3 : notGlobal "USA" = true) by (vm_compute; reflexivity).
  assert (H4 : 1 < getmaxper getModeltime) by (vm_compute; lia).
  assert (H5 : curveOf "USA" (mPeriodCostCurves DemoMore.shortCalculator) 1 = None)
    by (vm_compute; reflexivity).
  split; [ repeat split; assumption | ].
  apply (createRegionalCostCurves_faults_on_missing_period_curve Demo.conf
           DemoMore.shortCalculator
           (nth 0 (mPeriodCostCurves DemoMore.shortCalculator) []) "USA" 1
           H1 H2 H3 H4 H5).
Defined.

(** X6 on the calculator that holds costs recorded earlier. *)
Lemma createRegionalCostCurves_adds_to_the_totals_witness :
  periodsCoverRegions DemoMore.reusedCalculator = true
  /\ exists after,
       createRegionalCostCurves Demo.conf DemoMore.reusedCalculator = Some after
       /\ mGlobalCost after
          = sumFrom (mGlobalCost DemoMore.reusedCalculator)
              (map (fun region =>
                      orDefault (StdMap.find region (mRegionalCosts after)) 0%float)
                   (costedRegions DemoMore.reusedCalculator))
       /\ mGlobalDiscountedCost after
          = sumFrom (mGlobalDiscountedCost DemoMore.reusedCalculator)
              (map (fun region =>
                      orDefault (StdMap.find region (mRegionalDiscountedCosts after))
                                0%float)
                   (costedRegions DemoMore.reusedCalculator)).
Proof.
  split; [ vm_compute; reflexivity | ].
  apply (createRegionalCostCurves_adds_to_the_totals Demo.conf
           DemoMore.reusedCalculator).
  vm_compute. reflexivity.
Defined.

(** X7 on the same calculator, which holds entries for "Atlantis" and for
    "global". *)
Lemma createRegionalCostCurves_keeps_other_regions_witness :
  periodsCoverRegions DemoMore.reusedCalculator = true
  /\ exists after,
       createRegionalCostCurves Demo.conf DemoMore.reusedCalculator = Some after
       /\ (forall region,
             ~ In region (costedRegions DemoMore.reusedCalculator) ->
             StdMap.find region (mRegionalCostCurves after)
             = StdMap.find region (mRegionalCostCurves DemoMore.reusedCalculator)
             /\ StdMap.find region (mRegionalCosts after)
                = StdMap.find region (mRegionalCosts DemoMore.reusedCalculator)
             /\ StdMap.find region (mRegionalDiscountedCosts after)
                = StdMap.find region (mRegionalDiscountedCosts DemoMore.reusedCalculator))
       /\ ~ In "global" (costedRegions DemoMore.reusedCalculator)
       /\ mPeriodCostCurves after = mPeriodCostCurves DemoMore.reusedCalculator
       /\ mEmissionsQCurves after = mEmissionsQCurves DemoMore.reusedCalculator
       /\ mEmissionsTCurves after = mEmissionsTCurves DemoMore.reusedCalculator.
Proof.
  split; [ vm_compute; reflexivity | ].
  apply (createRegionalCostCurves_keeps_other_regions Demo.conf
           DemoMore.reusedCalculator).
  vm_compute. reflexivity.
Defined.

(** X9 on the policy scenario, with a calculator configured for no
    point. *)
Lemma computation_without_points_witness :
  (mNumPoints (newTotalPolicyCostCalculator DemoMore.noPointConf) = 0
   /\ double_eqb (getPrice (scenario Demo.world)
                           (mGHGName (newTotalPolicyCostCalculator DemoMore.noPointConf))
                           "USA" 1) NO_MARKET_PRICE = false
   /\ sweepWellFormed (mGHGName (newTotalPolicyCostCalculator DemoMore.noPointConf)) 0
                      (scenario Demo.world) = true
   /\ 0 < getmaxper getModeltime
   /\ mPeriodCostCurves (newTotalPolicyCostCalculator DemoMore.noPointConf) = [])
  /\ exists final w',
       calculateAbatementCostCurve DemoMore.noPointConf
         (newTotalPolicyCostCalculator DemoMore.noPointConf) Demo.world
       = Some (true, final, w')
       /\ scenario w' = scenario Demo.world
       /\ calls w'
          = calls Demo.world
              ++ [CallGetPrice (mGHGName (newTotalPolicyCostCalculator
                                            DemoMore.noPointConf)) "USA" 1;
                  CallGetEmissionsQuantityCurves
                    (mGHGName (newTotalPolicyCostCalculator DemoMore.noPointConf));
                  CallGetEmissionsPriceCurves
                    (mGHGName (newTotalPolicyCostCalculator DemoMore.noPointConf))]
       /\ mainLog w' = mainLog Demo.world
       /\ mEmissionsQCurves final
          = [getEmissionsQuantityCurves (scenario Demo.world)
               (mGHGName (newTotalPolicyCostCalculator DemoMore.noPointConf))]
       /\ mEmissionsTCurves final
          = [getEmissionsPriceCurves (scenario Demo.world)
               (mGHGName (newTotalPolicyCostCalculator DemoMore.noPointConf))].
Proof.
  split; [ repeat split; vm_compute; try reflexivity; lia | ].
  apply (computation_without_points DemoMore.noPointConf
           (newTotalPolicyCostCalculator DemoMore.noPointConf) Demo.world).
  - reflexivity.
  - vm_compute. reflexivity.
  - vm_compute. reflexivity.
  - vm_compute. lia.
  - reflexivity.
Defined.

(** X10 on a newly constructed calculator, whose vectors are empty. *)
Lemma runTrials_faults_on_short_vectors_witness :
  (0 < mNumPoints Demo.calculator
   /\ List.length (mEmissionsTCurves Demo.calculator) <= mNumPoints Demo.calculator)
  /\ runTrials Demo.calculator Demo.world = None.
Proof.
  assert (H1 : 0 < mNumPoints Demo.calculator) by (vm_compute; lia).
  assert (H2 : List.length (mEmissionsTCurves Demo.calculator)
               <= mNumPoints Demo.calculator) by (vm_compute; lia).
  split; [ split; assumption | ].
  apply (runTrials_faults_on_short_vectors Demo.calculator Demo.world H1
           (or_intror H2)).
Defined.

(** X11 on the calculator after a computation from the policy scenario. *)
Lemma writeToDB_rows_witness :
  0 < getmaxper getModeltime
  /\ writeToDB Demo.first
     = Some (map periodRow (mRegionalCostCurves Demo.first)
               ++ map (totalRow "PolicyCostTotalUndisc") (mRegionalCosts Demo.first)
               ++ map (totalRow "PolicyCostTotalDisc")
                      (mRegionalDiscountedCosts Demo.first)).
Proof.
  split; [ vm_compute; lia | ].
  apply (writeToDB_rows Demo.first).
  vm_compute. lia.
Defined.

(** X14 on the same calculator. *)
Lemma createXMLOutputString_well_nested_witness :
  getmaxper getModeltime <= List.length (mPeriodCostCurves Demo.first)
  /\ exists xml,
       createXMLOutputString Demo.first = Some xml
       /\ wellNested [] xml = true
       /\ hd_error xml = Some (XMLOpeningTag "CostCurvesInfo" None)
       /\ last xml (XMLCurve (PointSetCurve [])) = XMLClosingTag "CostCurvesInfo".
Proof.
  split; [ vm_compute; lia | ].
  apply (createXMLOutputString_well_nested Demo.first).
  vm_compute. lia.
Defined.

End OnTheDemoMore.

Section WithoutAPeriod.

#[local] Existing Instance Demo.curveOps.
#[local] Existing Instance DemoMore.noPeriodFacade.

(** X8 on the policy scenario under a model time of no period. *)
Lemma calculateAbatementCostCurve_faults_without_a_period_witness :
  (getmaxper getModeltime = 0
   /\ double_eqb (getPrice (scenario Demo.world) (mGHGName Demo.calculator) "USA" 1)
                 NO_MARKET_PRICE = false)
  /\ calculateAbatementCostCurve Demo.conf Demo.calculator Demo.world = None.
Proof.
  split; [ split; [ reflexivity | vm_compute; reflexivity ] | ].
  apply (calculateAbatementCostCurve_faults_without_a_period Demo.conf
           Demo.calculator Demo.world).
  - reflexivity.
  - vm_compute. reflexivity.
Defined.

(** X12 on the calculator of a computation, written under a model time
    of no period. *)
Lemma writeToDB_faults_without_a_period_witness :
  (getmaxper getModeltime = 0
   /\ 0 < List.length (mRegionalCosts Demo.first)
          + List.length (mRegionalDiscountedCosts Demo.first))
  /\ writeToDB Demo.first = None.
Proof.
  split; [ split; [ reflexivity | vm_compute; lia ] | ].
  apply (writeToDB_faults_without_a_period Demo.first).
  - reflexivity.
  - vm_compute. lia.
Defined.

End WithoutAPeriod.
